(** * Virtual EPC region manager (arch/x86/kernel/cpu/sgx/virt.c)

    A shallow embedding of the SGX virtual EPC driver: the per-region
    sparse page table, the fault path, the debug access path, the mmap
    hook and the three-pass release protocol with the zombie list.

    Kernel-side data (the xarray of the region, the zombie list, the
    user buffer of a debug access) is modelled concretely.  Everything
    the driver calls but does not define (ENCLS leaves, the EPC page
    allocator, the mm subsystem) is an oracle over an abstract world
    state, gathered in the record [platform]; every call to an oracle,
    every lock operation and every write to the zombie list is appended
    to an event trace so that "the page was freed", "nothing was
    allocated" or "spliced back before the unlock" are statements about
    that trace. *)

From Stdlib Require Import ZArith Lia.
From Stdlib Require Strings.Byte.
From stdpp Require Import base decidable option list sorting gmap.

Local Open Scope Z_scope.

(** ** Machine integers and kernel constants *)

(** Modelled from the spec: the constants and macros of the kernel
    headers that virt.c includes (asm/page.h, linux/mm.h, errno,
    asm/sgx_arch.h) are missing from the unit.  The spec names them by
    role only (page size, shared mapping, dump-excluded, invalid
    argument, I/O error, still-has-children); they carry the values of
    the x86-64 Linux headers here.  The theorems below read them by
    name. *)
Module K.

(** [unsigned long] arithmetic on x86-64 wraps at 2^64. *)
Definition wrap64 (z : Z) : Z := z mod 2 ^ 64.

Definition ULONG_SIZE : Z := 8.             (* sizeof(unsigned long) *)
Definition PAGE_SHIFT : Z := 12.
Definition PAGE_SIZE : Z := Z.shiftl 1 PAGE_SHIFT.
Definition PAGE_MASK : Z := Z.lnot (PAGE_SIZE - 1).
Definition PFN_DOWN (x : Z) : Z := Z.shiftr x PAGE_SHIFT.
Definition ALIGN_DOWN (x a : Z) : Z := Z.land x (Z.lnot (a - 1)).

(* errno values *)
Definition EIO : Z := 5.
Definition ENOMEM : Z := 12.
Definition EFAULT : Z := 14.
Definition EBUSY : Z := 16.
Definition EINVAL : Z := 22.

(* vm_fault_t codes and fault flags *)
Definition VM_FAULT_SIGBUS : Z := 2.
Definition VM_FAULT_NOPAGE : Z := 256.
Definition VM_FAULT_RETRY : Z := 1024.
Definition FAULT_FLAG_ALLOW_RETRY : Z := 4.

(* vm_flags bits *)
Definition VM_SHARED : Z := 8.
Definition VM_PFNMAP : Z := 1024.
Definition VM_IO : Z := 16384.
Definition VM_DONTDUMP : Z := 67108864.

(* ENCLS error code of EREMOVE on a SECS page that still has children *)
Definition SGX_CHILD_PRESENT : Z := 13.

End K.
Import K.

(** ** Data *)

Abbreviation byte := Byte.byte.

(** [struct sgx_epc_page]: a handle is the address of the descriptor
    together with the one field the driver reads, [section].  The list
    linkage of the descriptor is represented by membership in the lists
    below. *)
Record sgx_epc_page := EpcPage { page_desc : Z; section : Z }.

#[global] Instance sgx_epc_page_eq_dec : EqDecision sgx_epc_page.
Proof. solve_decision. Defined.

(** sizeof(struct sgx_epc_page): two ints, a pointer and a list head. *)
Definition SIZEOF_EPC_PAGE : Z := 32.

(** [struct sgx_epc_section], the fields used by the address helpers. *)
Record sgx_epc_section := EpcSection {
  phys_addr : Z;
  virt_addr : Z;
  pages : Z;      (* address of the descriptor array *)
}.

(** [struct vm_area_struct], the fields the driver touches.  Pointers
    ([vm_mm], [vm_ops], [vm_private_data]) are kept as identities. *)
Inductive vm_ops_id := sgx_virt_epc_vm_ops.

#[global] Instance vm_ops_id_eq_dec : EqDecision vm_ops_id.
Proof. solve_decision. Defined.

Record vm_area_struct := Vma {
  vm_start : Z;
  vm_pgoff : Z;
  vm_flags : Z;
  vm_mm : Z;
  vm_ops : option vm_ops_id;
  vm_private_data : option Z;
}.

#[global] Instance vm_area_struct_eq_dec : EqDecision vm_area_struct.
Proof. solve_decision. Defined.

(** [struct vm_fault] *)
Record vm_fault := VmFault {
  vmf_vma : vm_area_struct;
  vmf_address : Z;
  vmf_flags : Z;
}.

(** [struct sgx_virt_epc]; the rw-semaphore shows up as trace events.
    [epc_id] is the address of the structure (file->private_data). *)
Record sgx_virt_epc := VirtEpc {
  epc_id : Z;
  page_array : gmap Z sgx_epc_page;
  mm : Z;
}.

(** Calls that leave the driver. *)
Inductive event :=
  | EvAlloc (r : Z + sgx_epc_page)          (* sgx_alloc_epc_page *)
  | EvFree (p : sgx_epc_page)               (* sgx_free_epc_page *)
  | EvRawFree (p : sgx_epc_page)            (* __sgx_free_epc_page *)
  | EvEremove (va : Z) (r : Z)              (* __eremove *)
  | EvWarn                                  (* WARN_ON_ONCE fired *)
  | EvInsertPfn (vma : vm_area_struct) (addr pfn : Z) (r : Z)   (* vmf_insert_pfn *)
  | EvEdbgrd (va : Z) (r : Z) (w : Z)       (* __edbgrd *)
  | EvEdbgwr (va : Z) (w : Z) (r : Z)       (* __edbgwr *)
  | EvDownWrite | EvUpWrite                 (* epc->lock *)
  | EvMutexLock | EvMutexUnlock             (* virt_epc_lock *)
  | EvListDel (p : sgx_epc_page)            (* list_del, from the zombie list *)
  | EvListSplice (l : list sgx_epc_page)    (* list_splice_tail, onto the zombie list *)
  | EvMmapReadUnlock
  | EvMmdrop (m : Z)
  | EvKfree (p : Z).

#[global] Instance event_eq_dec : EqDecision event.
Proof. solve_decision. Defined.

(** The collaborators of the driver (the page allocator, the ENCLS
    leaves, the table's memory, the mm subsystem and the signal state of
    the current task), none of them part of the unit, as oracles over
    a world [HW]. *)
Record platform (HW : Type) := Platform {
  sgx_epc_sections : Z → sgx_epc_section;
  sgx_alloc_epc_page : HW → (Z + sgx_epc_page) * HW;
  sgx_free_epc_page : sgx_epc_page → HW → HW;
  __sgx_free_epc_page : sgx_epc_page → HW → HW;
  __eremove : Z → HW → Z * HW;
  __edbgrd : Z → HW → Z * Z * HW;
  __edbgwr : Z → Z → HW → Z * HW;
  xa_store_err : Z → sgx_epc_page → HW → Z * HW;
  vmf_insert_pfn : vm_area_struct → Z → Z → HW → Z * HW;
  signal_pending : HW → bool;
}.
Arguments sgx_epc_sections {HW}.
Arguments sgx_alloc_epc_page {HW}.
Arguments sgx_free_epc_page {HW}.
Arguments __sgx_free_epc_page {HW}.
Arguments __eremove {HW}.
Arguments __edbgrd {HW}.
Arguments __edbgwr {HW}.
Arguments xa_store_err {HW}.
Arguments vmf_insert_pfn {HW}.
Arguments signal_pending {HW}.

(** The state the driver runs in: one region, the global zombie list,
    the trace and the world. *)
Record kstate (HW : Type) := KState {
  epc : sgx_virt_epc;
  virt_epc_zombie_pages : list sgx_epc_page;
  trace : list event;
  hw : HW;
}.
Arguments KState {HW}.
Arguments epc {HW}.
Arguments virt_epc_zombie_pages {HW}.
Arguments trace {HW}.
Arguments hw {HW}.

(** ** A state monad for the driver *)

Definition M (HW A : Type) : Type := kstate HW → A * kstate HW.

Definition kret {HW A} (a : A) : M HW A := λ st, (a, st).
Definition kbind {HW A B} (c : M HW A) (k : A → M HW B) : M HW B :=
  λ st, let '(a, st') := c st in k a st'.

Notation "'let*' x ':=' c 'in' k" := (kbind c (λ x, k))
  (at level 10, x pattern, c at level 100, k at level 200, only parsing).
Notation "c ';;' k" := (kbind c (λ _, k))
  (at level 100, k at level 200, only parsing).

Section Driver.
Context {HW : Type} (P : platform HW).

Definition emit (e : event) : M HW unit :=
  λ st, (tt, KState (epc st) (virt_epc_zombie_pages st) (trace st ++ [e]) (hw st)).

Definition set_hw (h : HW) : M HW unit :=
  λ st, (tt, KState (epc st) (virt_epc_zombie_pages st) (trace st) h).

Definition set_page_array (m : gmap Z sgx_epc_page) : M HW unit :=
  λ st, (tt, KState (VirtEpc (epc_id (epc st)) m (mm (epc st)))
                    (virt_epc_zombie_pages st) (trace st) (hw st)).

(** *** sgx.h *)

Definition sgx_get_epc_phys_addr (page : sgx_epc_page) : Z :=
  let sec := sgx_epc_sections P (section page) in
  let index := wrap64 (page_desc page - pages sec) / SIZEOF_EPC_PAGE in
  wrap64 (phys_addr sec + index * PAGE_SIZE).

Definition sgx_get_epc_virt_addr (page : sgx_epc_page) : Z :=
  let sec := sgx_epc_sections P (section page) in
  let index := wrap64 (page_desc page - pages sec) / SIZEOF_EPC_PAGE in
  wrap64 (virt_addr sec + index * PAGE_SIZE).

(** *** Collaborator calls, logged *)

Definition call_alloc : M HW (Z + sgx_epc_page) :=
  λ st, let '(r, h) := sgx_alloc_epc_page P (hw st) in
        (r, KState (epc st) (virt_epc_zombie_pages st) (trace st ++ [EvAlloc r]) h).

Definition call_free (p : sgx_epc_page) : M HW unit :=
  λ st, (tt, KState (epc st) (virt_epc_zombie_pages st) (trace st ++ [EvFree p])
                    (sgx_free_epc_page P p (hw st))).

Definition call_raw_free (p : sgx_epc_page) : M HW unit :=
  λ st, (tt, KState (epc st) (virt_epc_zombie_pages st) (trace st ++ [EvRawFree p])
                    (__sgx_free_epc_page P p (hw st))).

Definition call_eremove (va : Z) : M HW Z :=
  λ st, let '(r, h) := __eremove P va (hw st) in
        (r, KState (epc st) (virt_epc_zombie_pages st) (trace st ++ [EvEremove va r]) h).

Definition call_edbgrd (va : Z) : M HW (Z * Z) :=
  λ st, let '(r, w, h) := __edbgrd P va (hw st) in
        ((r, w), KState (epc st) (virt_epc_zombie_pages st)
                        (trace st ++ [EvEdbgrd va r w]) h).

Definition call_edbgwr (va w : Z) : M HW Z :=
  λ st, let '(r, h) := __edbgwr P va w (hw st) in
        (r, KState (epc st) (virt_epc_zombie_pages st)
                   (trace st ++ [EvEdbgwr va w r]) h).

Definition call_insert_pfn (vma : vm_area_struct) (addr pfn : Z) : M HW Z :=
  λ st, let '(r, h) := vmf_insert_pfn P vma addr pfn (hw st) in
        (r, KState (epc st) (virt_epc_zombie_pages st)
                   (trace st ++ [EvInsertPfn vma addr pfn r]) h).

(** *** The xarray of the region *)

(** Modelled from the spec: linux/xarray.h is missing from the unit.
    The table is "a mapping from page-index to an owned physical-page
    handle" with unique keys: [xa_load] and [xa_erase] are map lookup
    and deletion; [xa_store] either stores or, when the table itself
    cannot get memory, leaves the array as it was and reports the error
    (the value of [xa_err]), as decided by the oracle [xa_store_err]. *)

Definition xa_load (index : Z) : M HW (option sgx_epc_page) :=
  λ st, (page_array (epc st) !! index, st).

Definition xa_erase (index : Z) : M HW unit :=
  λ st, set_page_array (delete index (page_array (epc st))) st.

Definition xa_store (index : Z) (p : sgx_epc_page) : M HW Z :=
  λ st, let '(r, h) := xa_store_err P index p (hw st) in
        let st1 := snd (set_hw h st) in
        if decide (r = 0)
        then (0, snd (set_page_array (<[index := p]> (page_array (epc st1))) st1))
        else (r, st1).

(** *** Fault path *)

Definition sgx_virt_epc_calc_index (vma : vm_area_struct) (addr : Z) : Z :=
  wrap64 (vm_pgoff vma + PFN_DOWN (wrap64 (addr - vm_start vma))).

Definition __sgx_virt_epc_fault (vma : vm_area_struct) (addr : Z) : M HW Z :=
  let index := sgx_virt_epc_calc_index vma addr in
  let* epc_page := xa_load index in
  match epc_page with
  | Some _ => kret 0
  | None =>
    let* r := call_alloc in
    match r with
    | inl err => kret err                          (* PTR_ERR *)
    | inr epc_page =>
      let* ret := xa_store index epc_page in
      if decide (ret ≠ 0) then
        (* err_free *)
        call_free epc_page ;; kret ret
      else
        let pfn := PFN_DOWN (sgx_get_epc_phys_addr epc_page) in
        let* ret := call_insert_pfn vma addr pfn in
        if decide (ret ≠ VM_FAULT_NOPAGE) then
          (* err_delete, then err_free *)
          xa_erase index ;; call_free epc_page ;; kret (- EFAULT)
        else kret 0
    end
  end.

Definition sgx_virt_epc_fault (vmf : vm_fault) : M HW Z :=
  let vma := vmf_vma vmf in
  emit EvDownWrite ;;
  let* ret := __sgx_virt_epc_fault vma (vmf_address vmf) in
  emit EvUpWrite ;;
  λ st,
    if decide (ret = 0) then (VM_FAULT_NOPAGE, st)
    else if signal_pending P (hw st) then (VM_FAULT_NOPAGE, st)
    else if decide (ret = - EBUSY ∧ Z.land (vmf_flags vmf) FAULT_FLAG_ALLOW_RETRY ≠ 0)
         then (emit EvMmapReadUnlock ;; kret VM_FAULT_RETRY) st
         else (VM_FAULT_SIGBUS, st).

(** *** Debug access path *)

Definition byte_val (b : byte) : Z := Z.of_N (Byte.to_N b).

Definition byte_of (z : Z) : byte :=
  default Byte.x00 (Byte.of_N (Z.to_N (z mod 256))).

(** x86-64 is little-endian: byte [j] of the array that backs an
    [unsigned long] holds bits [8j .. 8j+7]. *)
Definition word_to_bytes (w : Z) : list byte :=
  map (λ j, byte_of (Z.shiftr w (8 * j))) (seqZ 0 ULONG_SIZE).

Definition bytes_to_word (l : list byte) : Z :=
  foldr (λ b acc, byte_val b + 256 * acc) 0 l.

(** memcpy(dst + doff, src + soff, cnt) of the C library, for ranges
    inside both arrays. *)
Definition memcpy (dst : list byte) (doff : Z) (src : list byte) (soff cnt : Z)
  : list byte :=
  take (Z.to_nat doff) dst
    ++ take (Z.to_nat cnt) (drop (Z.to_nat soff) src)
    ++ drop (Z.to_nat (doff + cnt)) dst.

(** The locals of [sgx_virt_epc_access] that live across iterations,
    and the caller's buffer. *)
Record access_vars := AccessVars {
  av_i : Z;
  av_cnt : Z;
  av_index : Z;
  av_ret : Z;
  av_data : list byte;
  av_buf : list byte;
}.

(** Lines 106-108: the page index is recomputed on the first iteration
    and whenever the chunk starts in another page than the previous one. *)
Definition access_index (vma : vm_area_struct) (start : Z) (v : access_vars) : Z :=
  let addr := wrap64 (start + av_i v) in
  if decide (av_i v = 0 ∨ PFN_DOWN addr ≠ PFN_DOWN (wrap64 (addr - av_cnt v)))
  then sgx_virt_epc_calc_index vma addr
  else av_index v.

(** One execution of the loop body.  [inl r] is the early [return r]
    of the body; [inr v] carries the locals to the increment [i += cnt]. *)
Definition access_body (vma : vm_area_struct) (start len : Z) (write : bool)
    (v : access_vars) : M HW (Z + access_vars) :=
  let i := av_i v in
  let addr := wrap64 (start + i) in
  let index := access_index vma start v in
  emit EvDownWrite ;;
  let* epc_page := xa_load index in
  match epc_page with
  | None => emit EvUpWrite ;; kret (inl (- EIO))
  | Some epc_page =>
    let offset := Z.land addr (ULONG_SIZE - 1) in
    let addr := ALIGN_DOWN addr ULONG_SIZE in
    let cnt := Z.min (ULONG_SIZE - offset) (len - i) in
    let p := wrap64 (sgx_get_epc_virt_addr epc_page + Z.land addr (Z.lnot PAGE_MASK)) in
    (* EDBGRD for read, or to do RMW for a partial write. *)
    let* (ret, data) :=
      if decide (write = false ∨ cnt ≠ ULONG_SIZE)
      then let* (r, w) := call_edbgrd p in
           kret (r, if decide (r = 0) then word_to_bytes w else av_data v)
      else kret (av_ret v, av_data v) in
    let* (ret, data, buf) :=
      if decide (ret = 0) then
        if write then
          let data := memcpy data offset (av_buf v) i cnt in
          let* r := call_edbgwr p (bytes_to_word data) in
          kret (r, data, av_buf v)
        else
          kret (ret, data, memcpy (av_buf v) i data offset cnt)
      else kret (ret, data, av_buf v) in
    emit EvUpWrite ;;
    kret (inr (AccessVars i cnt index ret data buf))
  end.

(** for (i = 0; i < len && !ret; i += cnt) { body }
    if (ret) return -EIO; return i; *)
Fixpoint access_loop (fuel : nat) (vma : vm_area_struct) (start len : Z)
    (write : bool) (v : access_vars) (st : kstate HW)
  : option (Z * list byte * kstate HW) :=
  if decide (av_i v < len ∧ av_ret v = 0) then
    match fuel with
    | O => None
    | S fuel' =>
      match access_body vma start len write v st with
      | (inl r, st') => Some (r, av_buf v, st')
      | (inr v', st') =>
        access_loop fuel' vma start len write
          (AccessVars (av_i v' + av_cnt v') (av_cnt v') (av_index v')
                      (av_ret v') (av_data v') (av_buf v')) st'
      end
    end
  else if decide (av_ret v ≠ 0) then Some (- EIO, av_buf v, st)
  else Some (av_i v, av_buf v, st).

(** The scratch word [data] is never read before EDBGRD or memcpy has
    filled it; it starts out as eight zero bytes here.  Every iteration
    consumes at least one byte, so [len] iterations are enough. *)
Definition access_init (buf : list byte) : access_vars :=
  AccessVars 0 0 0 0 (word_to_bytes 0) buf.

Definition sgx_virt_epc_access (vma : vm_area_struct) (start : Z)
    (buf : list byte) (len : Z) (write : bool) (st : kstate HW)
  : option (Z * list byte * kstate HW) :=
  access_loop (Z.to_nat len) vma start len write (access_init buf) st.

(** *** mmap *)

Definition sgx_virt_epc_mmap (file_private_data : sgx_virt_epc)
    (vma : vm_area_struct) : Z * vm_area_struct :=
  let epc := file_private_data in
  if decide (Z.land (vm_flags vma) VM_SHARED = 0) then (- EINVAL, vma)
  else if decide (vm_mm vma ≠ mm epc) then (- EINVAL, vma)
  else (0, Vma (vm_start vma) (vm_pgoff vma)
               (Z.lor (vm_flags vma) (Z.lor (Z.lor VM_PFNMAP VM_IO) VM_DONTDUMP))
               (vm_mm vma)
               (Some sgx_virt_epc_vm_ops)
               (Some (epc_id file_private_data))).

(** *** Release *)

(** WARN_ON_ONCE(cond) warns on its first hit only: it keeps a static
    flag that the warning sets.  Line 181 is the only warning of the
    driver, so the flag is set exactly when the trace, the log of what
    the driver has done so far, holds an [EvWarn]. *)
Definition warned (st : kstate HW) : bool := bool_decide (EvWarn ∈ trace st).

Definition WARN_ON_ONCE (cond : bool) : M HW unit :=
  λ st, if cond && negb (warned st) then emit EvWarn st else (tt, st).

Definition sgx_virt_epc_free_page (epc_page : option sgx_epc_page) : M HW Z :=
  match epc_page with
  | None => kret 0
  | Some pg =>
    let* ret := call_eremove (sgx_get_epc_virt_addr pg) in
    if decide (ret ≠ 0) then
      WARN_ON_ONCE (bool_decide (ret ≠ SGX_CHILD_PRESENT)) ;;
      kret ret
    else
      call_raw_free pg ;; kret 0
  end.

(** Modelled from the spec: the xa_for_each macro of linux/xarray.h is
    missing from the unit; it "iterates every entry" of the table, by
    index.  [xa_find] / [xa_find_after] give the present entry with the
    least index that is at least, respectively greater than, [index]. *)
Definition xa_least (ok : Z → bool) (l : list (Z * sgx_epc_page))
  : option (Z * sgx_epc_page) :=
  foldr (λ kv acc,
           if ok kv.1 then
             match acc with
             | Some kv' => if bool_decide (kv.1 < kv'.1) then Some kv else acc
             | None => Some kv
             end
           else acc) None l.

Definition xa_find (m : gmap Z sgx_epc_page) (index : Z) :=
  xa_least (λ k, bool_decide (index ≤ k)) (map_to_list m).

Definition xa_find_after (m : gmap Z sgx_epc_page) (index : Z) :=
  xa_least (λ k, bool_decide (index < k)) (map_to_list m).

(** xa_for_each(&epc->page_array, index, entry) { body }
    with [L] the locals the body updates.  The cursor is advanced with
    [xa_find_after] on the array as the body left it, so every
    iteration stands on a larger index than the one before; a body that
    stores nothing is run at most once per entry, which is the fuel
    [xa_for_each] hands out. *)
Fixpoint xa_for_each_from {L : Type} (fuel : nat)
    (body : Z → sgx_epc_page → L → M HW L)
    (cur : option (Z * sgx_epc_page)) (l : L) (st : kstate HW)
  : option (L * kstate HW) :=
  match cur with
  | None => Some (l, st)
  | Some (index, entry) =>
    match fuel with
    | O => None
    | S fuel' =>
      let '(l', st') := body index entry l st in
      xa_for_each_from fuel' body (xa_find_after (page_array (epc st')) index) l' st'
    end
  end.

Definition xa_for_each {L : Type} (body : Z → sgx_epc_page → L → M HW L)
    (l : L) (st : kstate HW) : option (L * kstate HW) :=
  xa_for_each_from (size (page_array (epc st))) body
                   (xa_find (page_array (epc st)) 0) l st.

(** Where the cursor of xa_for_each stands after the iteration at
    [(index, entry)]. *)
Definition xa_for_each_next {L : Type} (body : Z → sgx_epc_page → L → M HW L)
    (index : Z) (entry : sgx_epc_page) (l : L) (st : kstate HW)
  : option (Z * sgx_epc_page) :=
  xa_find_after (page_array (epc (body index entry l st).2)) index.

(** Body of the first loop (lines 199-204). *)
Definition release_pass1_body (index : Z) (entry : sgx_epc_page) (_ : unit)
  : M HW unit :=
  let* r := sgx_virt_epc_free_page (Some entry) in
  if decide (r ≠ 0) then kret tt                 (* continue *)
  else xa_erase index.

(** Body of the second loop (lines 214-220); the local is [secs_pages]. *)
Definition release_pass2_body (index : Z) (entry : sgx_epc_page)
    (secs_pages : list sgx_epc_page) : M HW (list sgx_epc_page) :=
  let epc_page := entry in
  let* r := sgx_virt_epc_free_page (Some epc_page) in
  let secs_pages := if decide (r ≠ 0) then secs_pages ++ [epc_page] else secs_pages in
  xa_erase index ;;
  kret secs_pages.

(** list_del of linux/list.h on the zombie list: the node of the page
    is unlinked. *)
Fixpoint list_del (p : sgx_epc_page) (l : list sgx_epc_page) : list sgx_epc_page :=
  match l with
  | [] => []
  | q :: l' => if decide (q = p) then l' else q :: list_del p l'
  end.

(** The two writes to the zombie list, logged: list_del of a page that
    is on it, and list_splice_tail of [secs_pages] onto it. *)
Definition call_list_del (p : sgx_epc_page) : M HW unit :=
  λ st, (tt, KState (epc st) (list_del p (virt_epc_zombie_pages st))
                    (trace st ++ [EvListDel p]) (hw st)).

Definition call_list_splice_tail (l : list sgx_epc_page) : M HW unit :=
  λ st, (tt, KState (epc st) (virt_epc_zombie_pages st ++ l)
                    (trace st ++ [EvListSplice l]) (hw st)).

(** Body of the third loop (lines 228-239): the page is unlinked from
    the zombie list before EREMOVE is retried. *)
Definition release_pass3_body (epc_page : sgx_epc_page)
    (secs_pages : list sgx_epc_page) : M HW (list sgx_epc_page) :=
  call_list_del epc_page ;;
  let* r := sgx_virt_epc_free_page (Some epc_page) in
  kret (if decide (r ≠ 0) then secs_pages ++ [epc_page] else secs_pages).

(** list_for_each_entry_safe over the zombie list: [todo] is what the
    saved cursor [tmp] still has to visit. *)
Fixpoint release_pass3_walk (todo secs_pages : list sgx_epc_page)
  : M HW (list sgx_epc_page) :=
  match todo with
  | [] => kret secs_pages
  | epc_page :: tmp =>
    let* secs_pages := release_pass3_body epc_page secs_pages in
    release_pass3_walk tmp secs_pages
  end.

Definition release_pass3 (secs_pages : list sgx_epc_page) : M HW unit :=
  emit EvMutexLock ;;
  let* secs_pages := (λ st, release_pass3_walk (virt_epc_zombie_pages st) secs_pages st) in
  (if decide (secs_pages ≠ [])
   then call_list_splice_tail secs_pages
   else kret tt) ;;
  emit EvMutexUnlock.

Definition sgx_virt_epc_release (st : kstate HW) : option (Z * kstate HW) :=
  let secs_pages : list sgx_epc_page := [] in
  let '(_, st) := emit (EvMmdrop (mm (epc st))) st in
  '(_, st) ← xa_for_each release_pass1_body tt st;
  '(secs_pages, st) ← xa_for_each release_pass2_body secs_pages st;
  let '(_, st) := release_pass3 secs_pages st in
  let '(_, st) := emit (EvKfree (epc_id (epc st))) st in
  Some (0, st).

End Driver.

Arguments sgx_virt_epc_mmap : simpl never.

(** ** A reference platform

    A small executable world used to run the driver on concrete
    inputs: enclave memory as a map from 8-byte aligned addresses to
    words, a parent relation between enclave pages (EREMOVE of a page
    fails with SGX_CHILD_PRESENT while another page names it as its
    parent), a pool of free EPC pages, and switches for the failures
    the mm subsystem can report. *)

Record sim_hw := SimHw {
  sim_mem : gmap Z Z;
  sim_parent : list (Z * Z);          (* (child va, SECS va) *)
  sim_pool : list sgx_epc_page;
  sim_dbg_fault : list Z;             (* addresses on which EDBG{RD,WR} fault *)
  sim_store_err : Z;                  (* what xa_err(xa_store()) reports *)
  sim_insert_ret : Z;                 (* what vmf_insert_pfn reports *)
  sim_signal : bool;                  (* signal_pending(current) *)
}.

Definition ENCLS_FAULT : Z := Z.lor (Z.shiftl 1 30) 14.

Definition sim_section : sgx_epc_section := EpcSection 2147483648 4294967296 65536.

Definition sim_eremove (va : Z) (h : sim_hw) : Z * sim_hw :=
  if bool_decide (Exists (λ cp, cp.2 = va) (sim_parent h))
  then (SGX_CHILD_PRESENT, h)
  else (0, SimHw (sim_mem h) (filter (λ cp, cp.1 ≠ va) (sim_parent h)) (sim_pool h)
                 (sim_dbg_fault h) (sim_store_err h) (sim_insert_ret h) (sim_signal h)).

Definition sim_alloc (h : sim_hw) : (Z + sgx_epc_page) * sim_hw :=
  match sim_pool h with
  | [] => (inl (- ENOMEM), h)
  | p :: pool => (inr p, SimHw (sim_mem h) (sim_parent h) pool (sim_dbg_fault h)
                               (sim_store_err h) (sim_insert_ret h) (sim_signal h))
  end.

Definition sim_free (p : sgx_epc_page) (h : sim_hw) : sim_hw :=
  SimHw (sim_mem h) (sim_parent h) (sim_pool h ++ [p]) (sim_dbg_fault h)
        (sim_store_err h) (sim_insert_ret h) (sim_signal h).

Definition sim_edbgrd (va : Z) (h : sim_hw) : Z * Z * sim_hw :=
  if bool_decide (va ∈ sim_dbg_fault h) then (ENCLS_FAULT, 0, h)
  else (0, default 0 (sim_mem h !! va), h).

Definition sim_edbgwr (va w : Z) (h : sim_hw) : Z * sim_hw :=
  if bool_decide (va ∈ sim_dbg_fault h) then (ENCLS_FAULT, h)
  else (0, SimHw (<[va := w]> (sim_mem h)) (sim_parent h) (sim_pool h) (sim_dbg_fault h)
                 (sim_store_err h) (sim_insert_ret h) (sim_signal h)).

Definition sim_platform : platform sim_hw :=
  Platform sim_hw
    (λ _, sim_section)
    sim_alloc sim_free sim_free sim_eremove sim_edbgrd sim_edbgwr
    (λ _ _ h, (sim_store_err h, h))
    (λ _ _ _ h, (sim_insert_ret h, h))
    sim_signal.

(** Descriptors 0, 1, 2, ... of the one section of the reference
    platform, and the kernel virtual address of their EPC pages. *)
Definition sim_page (n : Z) : sgx_epc_page := EpcPage (65536 + 32 * n) 0.
Definition sim_va (n : Z) : Z := 4294967296 + 4096 * n.

Definition sim_world : sim_hw :=
  SimHw ∅ [] [] [] 0 VM_FAULT_NOPAGE false.

Definition sim_state (tbl : list (Z * sgx_epc_page)) (zombies : list sgx_epc_page)
    (h : sim_hw) : kstate sim_hw :=
  KState (VirtEpc 1 (list_to_map tbl) 7) zombies [] h.

(** A mapping of the region at user address 0x10000, file offset 0. *)
Definition sim_vma : vm_area_struct := Vma 65536 0 VM_SHARED 7 None None.

(** A region whose entry 0 is a SECS page with its only child at entry 1. *)
Definition sim_secs_first : kstate sim_hw :=
  sim_state [(0, sim_page 0); (1, sim_page 1)] []
            (SimHw ∅ [(sim_va 1, sim_va 0)] [] [] 0 VM_FAULT_NOPAGE false).

(** Region A of the end-to-end scenario: entries 0, 1, 2, where page 2
    is a SECS page whose only child is page 5, owned by region B. *)
Definition sim_region_a : kstate sim_hw :=
  sim_state [(0, sim_page 0); (1, sim_page 1); (2, sim_page 2)] []
            (SimHw ∅ [(sim_va 5, sim_va 2)] [] [] 0 VM_FAULT_NOPAGE false).

(** Region B, opened in the world and with the zombie list that the
    release of another region left behind. *)
Definition sim_region_b (after : kstate sim_hw) : kstate sim_hw :=
  KState (VirtEpc 2 (list_to_map [(0, sim_page 5)]) 8)
         (virt_epc_zombie_pages after) [] (hw after).

(** A region with one resolved page, the enclave word at its start
    holding [w], and EDBG{RD,WR} faulting on the addresses [faults]. *)
Definition sim_debug (w : Z) (faults : list Z) : kstate sim_hw :=
  sim_state [(0, sim_page 0)] []
            (SimHw {[ sim_va 0 := w ]} [] [] faults 0 VM_FAULT_NOPAGE false).

(** A region with nothing resolved yet, in a world with the given free
    pool and mm-subsystem switches. *)
Definition sim_fresh (pool : list sgx_epc_page) (store_err insert_ret : Z)
    (signal : bool) : kstate sim_hw :=
  sim_state [] [] (SimHw ∅ [] pool [] store_err insert_ret signal).

(** ** Reading the trace *)

(** Pages handed back by [__sgx_free_epc_page], in order. *)
Definition raw_freed (tr : list event) : list sgx_epc_page :=
  omap (λ e, match e with EvRawFree p => Some p | _ => None end) tr.

(** Calls of [sgx_alloc_epc_page], in order. *)
Definition alloc_calls (tr : list event) : list (Z + sgx_epc_page) :=
  omap (λ e, match e with EvAlloc r => Some r | _ => None end) tr.

(** A page frame was installed for page index [idx]. *)
Definition is_install (idx : Z) (e : event) : bool :=
  match e with
  | EvInsertPfn vma addr _ r =>
    bool_decide (sgx_virt_epc_calc_index vma addr = idx ∧ r = VM_FAULT_NOPAGE)
  | _ => false
  end.

Definition install_count (idx : Z) (tr : list event) : nat :=
  length (filter (λ e, is_install idx e = true) tr).

(** A run of fault callbacks on one region. *)
Definition fault_seq {HW} (P : platform HW) (faults : list vm_fault)
    (st : kstate HW) : kstate HW :=
  foldl (λ st vmf, (sgx_virt_epc_fault P vmf st).2) st faults.

(** Indices of an xarray are [unsigned long] values. *)
Definition xa_index_ok (m : gmap Z sgx_epc_page) : Prop :=
  map_Forall (λ k _, 0 ≤ k < 2 ^ 64) m.

(** The page handles a table owns. *)
Definition xa_pages (m : gmap Z sgx_epc_page) : list sgx_epc_page :=
  (map_to_list m).*2.

(** What the first two loops keep true, relative to the state [st0]
    the loop started in: the pages freed so far, the pages put aside
    and the pages still in the table are the pages of the table at
    [st0]; the zombie list is not touched. *)
Definition release_inv {HW} (st0 : kstate HW) (secs_pages : list sgx_epc_page)
    (st : kstate HW) : Prop :=
  virt_epc_zombie_pages st = virt_epc_zombie_pages st0 ∧
  epc_id (epc st) = epc_id (epc st0) ∧
  ∃ tr, trace st = trace st0 ++ tr ∧ alloc_calls tr = [] ∧
        raw_freed tr ++ secs_pages ++ xa_pages (page_array (epc st))
        ≡ₚ xa_pages (page_array (epc st0)).

(** An EDBGRD or EDBGWR that reported a failure. *)
Definition is_dbg_failure (e : event) : bool :=
  match e with
  | EvEdbgrd _ r _ => bool_decide (r ≠ 0)
  | EvEdbgwr _ _ r => bool_decide (r ≠ 0)
  | _ => false
  end.

(** The events of a debug access show a failed chunk: an ENCLS failure,
    or a critical section left at once because the entry was absent
    (a chunk that finds its entry always issues an ENCLS leaf). *)
Definition access_failed (tr : list event) : Prop :=
  (∃ e, e ∈ tr ∧ is_dbg_failure e = true) ∨
  (∃ tr0, tr = tr0 ++ [EvDownWrite; EvUpWrite]).

(** Byte [j] of a machine word. *)
Definition word_byte (w j : Z) : Z := Z.land (Z.shiftr w (8 * j)) 255.

(** ** Further readings of the trace *)

(** Pages handed back by [sgx_free_epc_page] (the error paths of the
    fault handler), in order. *)
Definition freed (tr : list event) : list sgx_epc_page :=
  omap (λ e, match e with EvFree p => Some p | _ => None end) tr.

(** Pages that [sgx_alloc_epc_page] handed out, in order. *)
Definition allocated (tr : list event) : list sgx_epc_page :=
  omap (λ e, match e with EvAlloc (inr p) => Some p | _ => None end) tr.

(** Calls of [mmap_read_unlock]. *)
Definition mmap_unlocks (tr : list event) : nat :=
  length (filter (λ e, e = EvMmapReadUnlock) tr).

(** The region lock along a trace, starting held or not: down_write and
    up_write alternate, the calls the driver makes on behalf of the
    region's table (page allocation and free, page-frame installation,
    EDBGRD, EDBGWR) happen with the lock held, mmap_read_unlock with the
    lock dropped, and the lock is not held at the end. *)
Fixpoint rwsem_ok (held : bool) (tr : list event) : bool :=
  match tr with
  | [] => negb held
  | EvDownWrite :: tr => negb held && rwsem_ok true tr
  | EvUpWrite :: tr => held && rwsem_ok false tr
  | EvAlloc _ :: tr | EvFree _ :: tr | EvInsertPfn _ _ _ _ :: tr
  | EvEdbgrd _ _ _ :: tr | EvEdbgwr _ _ _ :: tr => held && rwsem_ok held tr
  | EvMmapReadUnlock :: tr => negb held && rwsem_ok held tr
  | _ :: tr => rwsem_ok held tr
  end.

(** EDBGRD and EDBGWR calls. *)
Definition is_edbgrd (e : event) : bool :=
  match e with EvEdbgrd _ _ _ => true | _ => false end.

Definition is_edbgwr (e : event) : bool :=
  match e with EvEdbgwr _ _ _ => true | _ => false end.

Definition is_encls_event (e : event) : bool := is_edbgrd e || is_edbgwr e.

(** The kernel address [sgx_virt_epc_access] hands to EDBGRD and EDBGWR
    for the byte at user address [a] of a page with descriptor [pg]
    (lines 124-128): the word that contains the byte. *)
Definition access_word_addr {HW} (P : platform HW) (pg : sgx_epc_page) (a : Z) : Z :=
  wrap64 (sgx_get_epc_virt_addr P pg + Z.land (ALIGN_DOWN a ULONG_SIZE) (Z.lnot PAGE_MASK)).

(** The locals of [sgx_virt_epc_access] at the top of an iteration are
    consistent: on the first iteration nothing is assumed; later,
    [index] is the page index of the address the previous chunk started
    at, which lies [cnt] bytes back. *)
Definition access_vars_ok (vma : vm_area_struct) (start : Z) (v : access_vars) : Prop :=
  av_i v = 0 ∨
  (0 < av_cnt v ≤ av_i v ∧
   av_index v = sgx_virt_epc_calc_index vma (wrap64 (start + (av_i v - av_cnt v)))).

(** The locals after the increment [i += cnt] of the for loop. *)
Definition access_next (v : access_vars) : access_vars :=
  AccessVars (av_i v + av_cnt v) (av_cnt v) (av_index v) (av_ret v) (av_data v) (av_buf v).

(** The address an EDBGRD or EDBGWR was executed on. *)
Definition dbg_addr (e : event) : option Z :=
  match e with
  | EvEdbgrd p _ _ => Some p
  | EvEdbgwr p _ _ => Some p
  | _ => None
  end.

(** The EREMOVE results that the WARN_ON_ONCE of line 181 is there for. *)
Definition unexpected (r : Z) : bool :=
  bool_decide (r ≠ 0 ∧ r ≠ SGX_CHILD_PRESENT).

Definition any_unexpected (calls : list (sgx_epc_page * Z)) : bool :=
  existsb (λ c, unexpected c.2) calls.

(** What one call of [sgx_virt_epc_free_page] on the page [c.1] leaves in
    the trace when EREMOVE returns [c.2], [w] telling whether the
    warning has been given before. *)
Definition free_page_events {HW} (P : platform HW) (w : bool)
    (c : sgx_epc_page * Z) : list event :=
  EvEremove (sgx_get_epc_virt_addr P c.1) c.2
  :: (if decide (c.2 = 0) then [EvRawFree c.1]
      else if decide (c.2 ≠ SGX_CHILD_PRESENT) then (if w then [] else [EvWarn])
      else []).

(** What a row of such calls leaves in the trace.  With [unlink] each
    call comes after the list_del of its page (the third loop of the
    release path); the warning is given by the first call that meets an
    unexpected result. *)
Fixpoint calls_events {HW} (P : platform HW) (unlink w : bool)
    (calls : list (sgx_epc_page * Z)) : list event :=
  match calls with
  | [] => []
  | c :: calls =>
    (if unlink then [EvListDel c.1] else [])
      ++ free_page_events P w c
      ++ calls_events P unlink (w || unexpected c.2) calls
  end.

(** The zombie list after the writes of a trace. *)
Fixpoint zombie_replay (tr : list event) (l : list sgx_epc_page) : list sgx_epc_page :=
  match tr with
  | [] => l
  | EvListDel p :: tr => zombie_replay tr (list_del p l)
  | EvListSplice s :: tr => zombie_replay tr (l ++ s)
  | _ :: tr => zombie_replay tr l
  end.

(** Taking or dropping virt_epc_lock; these and the writes to the
    zombie list. *)
Definition is_mutex_event (e : event) : bool :=
  match e with EvMutexLock | EvMutexUnlock => true | _ => false end.

Definition is_registry_event (e : event) : bool :=
  match e with
  | EvMutexLock | EvMutexUnlock | EvListDel _ | EvListSplice _ => true
  | _ => false
  end.

(** The pages of the calls that did not return 0, in call order. *)
Definition failed_pages (calls : list (sgx_epc_page * Z)) : list sgx_epc_page :=
  (filter (λ c, c.2 ≠ 0) calls).*1.

(** A visit of an xa_for_each loop of the release path: the index, the
    entry and what [sgx_virt_epc_free_page] returned for it. *)
Definition visit_call (x : Z * sgx_epc_page * Z) : sgx_epc_page * Z := (x.1.2, x.2).

(** The visits whose call did not return 0, in visiting order. *)
Definition visit_failed (v : list (Z * sgx_epc_page * Z)) : list (Z * sgx_epc_page * Z) :=
  filter (λ x, x.2 ≠ 0) v.

(** The indices whose call returned 0: the first loop erases them. *)
Definition done_keys (v : list (Z * sgx_epc_page * Z)) : list Z :=
  (filter (λ x, x.2 = 0) v).*1.*1.

(** Ascending index order of table entries. *)
Definition key_lt (a b : Z * sgx_epc_page) : Prop := a.1 < b.1.

(** The page frames that [vmf_insert_pfn] installed (it answered
    VM_FAULT_NOPAGE), with the mapping and the address, in order. *)
Definition installs (tr : list event) : list (vm_area_struct * Z * Z) :=
  omap (λ e, match e with
             | EvInsertPfn vma addr pfn r =>
               if decide (r = VM_FAULT_NOPAGE) then Some (vma, addr, pfn) else None
             | _ => None
             end) tr.

(** &section->pages[n]: the descriptor in slot [n] of EPC section [s]. *)
Definition section_page {HW} (P : platform HW) (s n : Z) : sgx_epc_page :=
  EpcPage (pages (sgx_epc_sections P s) + SIZEOF_EPC_PAGE * n) s.

(** Slot [n] of section [s] exists: neither its descriptor, nor the
    page it stands for, is beyond the end of the address space. *)
Definition section_slot_ok {HW} (P : platform HW) (s n : Z) : Prop :=
  let sec := sgx_epc_sections P s in
  0 ≤ n ∧ SIZEOF_EPC_PAGE * n < 2 ^ 64 ∧
  0 ≤ phys_addr sec ∧ phys_addr sec + PAGE_SIZE * n < 2 ^ 64 ∧
  0 ≤ virt_addr sec ∧ virt_addr sec + PAGE_SIZE * n < 2 ^ 64.

(** What a debug access may leave in the trace. *)
Definition is_access_event (e : event) : bool :=
  match e with
  | EvDownWrite | EvUpWrite | EvEdbgrd _ _ _ | EvEdbgwr _ _ _ => true
  | _ => false
  end.

(** *** open

    Lines 250-266.  [kzalloc] is what the allocation returned ([None]
    for NULL), [current_mm] is current->mm and [private_data] is
    file->private_data; the calls that leave the driver are listed in
    order. *)

Inductive open_event :=
  | OevMmgrab (m : Z)
  | OevInitRwsem (epc : Z)
  | OevXaInit (epc : Z).

Definition sgx_virt_epc_open (kzalloc : option Z) (current_mm : Z)
    (private_data : option sgx_virt_epc)
  : Z * option sgx_virt_epc * list open_event :=
  match kzalloc with
  | None => (- ENOMEM, private_data, [])
  | Some epc =>
    (0, Some (VirtEpc epc ∅ current_mm),
     [OevMmgrab current_mm; OevInitRwsem epc; OevXaInit epc])
  end.

(** The mm references dropped and the regions freed, in order. *)
Definition mm_events (tr : list event) : list (Z + Z) :=
  omap (λ e, match e with
             | EvMmdrop m => Some (inl m)
             | EvKfree p => Some (inr p)
             | _ => None
             end) tr.

(** The calls the inner fault resolution makes: the page allocator and
    the installation of the page frame. *)
Definition is_table_event (e : event) : bool :=
  match e with
  | EvAlloc _ | EvFree _ | EvInsertPfn _ _ _ _ => true
  | _ => false
  end.

(** What a fault callback may leave in the trace. *)
Definition is_fault_event (e : event) : bool :=
  match e with
  | EvDownWrite | EvUpWrite | EvAlloc _ | EvFree _ | EvInsertPfn _ _ _ _
  | EvMmapReadUnlock => true
  | _ => false
  end.

(** EDBGRD and EDBGWR behave as a memory of words on the worlds [good]:
    neither fails, EDBGRD returns the word at the address and changes
    no word, EDBGWR stores its word at the address and changes no other
    word.  [mem h p] is the enclave word at address [p] in world [h]. *)
Definition dbg_memory {HW} (P : platform HW) (mem : HW → Z → Z) (good : HW → Prop)
  : Prop :=
  (∀ p h, good h →
     (__edbgrd P p h).1.1 = 0 ∧ (__edbgrd P p h).1.2 = mem h p ∧
     good (__edbgrd P p h).2 ∧ ∀ q, mem (__edbgrd P p h).2 q = mem h q) ∧
  (∀ p w h, good h →
     (__edbgwr P p w h).1 = 0 ∧ good (__edbgwr P p w h).2 ∧
     ∀ q, mem (__edbgwr P p w h).2 q = if decide (q = p) then w else mem h q).

(** Different words of the range [start, start + len) are backed by
    different words of enclave memory. *)
Definition words_distinct {HW} (P : platform HW) (vma : vm_area_struct)
    (m : gmap Z sgx_epc_page) (start len : Z) : Prop :=
  ∀ k k' pg pg', 0 ≤ k < len → 0 ≤ k' < len →
    m !! sgx_virt_epc_calc_index vma (start + k) = Some pg →
    m !! sgx_virt_epc_calc_index vma (start + k') = Some pg' →
    access_word_addr P pg (start + k) = access_word_addr P pg' (start + k') →
    (start + k) / 8 = (start + k') / 8.

(** ** Proof support *)

Ltac unfold_m :=
  unfold kbind, kret, emit, set_hw, set_page_array, call_alloc,
    call_free, call_raw_free, call_eremove, call_edbgrd, call_edbgwr,
    call_insert_pfn, call_list_del, call_list_splice_tail,
    xa_load, xa_erase, xa_store in *.

Ltac kcbn :=
  cbn [fst snd epc virt_epc_zombie_pages trace hw page_array epc_id mm
       av_i av_cnt av_index av_ret av_data av_buf] in *.

Lemma epc_eta (e : sgx_virt_epc) :
  VirtEpc (epc_id e) (page_array e) (mm e) = e.
Proof. by destruct e. Qed.

Lemma kstate_eta {HW} (st : kstate HW) :
  KState (epc st) (virt_epc_zombie_pages st) (trace st) (hw st) = st.
Proof. by destruct st. Qed.

Lemma install_count_app idx tr1 tr2 :
  install_count idx (tr1 ++ tr2) = (install_count idx tr1 + install_count idx tr2)%nat.
Proof. unfold install_count. by rewrite filter_app, length_app. Qed.

(** ** The fault path *)

Section FaultFacts.
Context {HW : Type} (P : platform HW).

Lemma fault_present vma addr (st : kstate HW) pg :
  page_array (epc st) !! sgx_virt_epc_calc_index vma addr = Some pg →
  __sgx_virt_epc_fault P vma addr st = (0, st).
Proof.
  intros Hpg. unfold __sgx_virt_epc_fault. unfold_m. by rewrite Hpg.
Qed.

(** What one inner fault resolution does to the table and the trace. *)
Lemma fault_inner_cases vma addr (st : kstate HW) :
  let idx := sgx_virt_epc_calc_index vma addr in
  let r := __sgx_virt_epc_fault P vma addr st in
  virt_epc_zombie_pages r.2 = virt_epc_zombie_pages st ∧
  ((page_array (epc r.2) = page_array (epc st) ∧
    ∀ i, install_count i (trace r.2) = install_count i (trace st))
   ∨ (r.1 = 0 ∧ page_array (epc st) !! idx = None ∧
      (∃ pg, page_array (epc r.2) = <[idx := pg]> (page_array (epc st))) ∧
      ∀ i, install_count i (trace r.2)
           = (install_count i (trace st) + if decide (i = idx) then 1 else 0)%nat)).
Proof.
  intros idx r. subst r. unfold __sgx_virt_epc_fault. fold idx. unfold_m.
  destruct (page_array (epc st) !! idx) as [pg|] eqn:Hidx; simpl.
  { split; [done|]. left. done. }
  destruct (sgx_alloc_epc_page P (hw st)) as [[err|pg] h1] eqn:Ha; simpl.
  { split; [done|]. left. split; [done|]. intros i.
    rewrite install_count_app. simpl. unfold install_count at 2. simpl. lia. }
  destruct (xa_store_err P idx pg h1) as [e h2] eqn:Hs; simpl.
  destruct (decide (e = 0)) as [->|He]; simpl.
  - destruct (vmf_insert_pfn P vma addr _ h2) as [ri h3] eqn:Hi; simpl.
    destruct (decide (ri ≠ VM_FAULT_NOPAGE)) as [Hri|Hri]; simpl.
    + split; [done|]. left. split.
      * rewrite delete_insert_eq. by apply delete_id.
      * intros i. rewrite !install_count_app. unfold install_count at 2 3 4. simpl.
        rewrite filter_cons_False; [simpl; lia|].
        simpl. rewrite bool_decide_eq_true. tauto.
    + apply dec_stable in Hri. subst ri.
      split; [done|]. right. repeat split; eauto.
      intros i. rewrite !install_count_app. unfold install_count at 2 3. simpl.
      fold idx. destruct (decide (i = idx)) as [->|Hne].
      * rewrite filter_cons_True; [simpl; lia|]. simpl.
        by rewrite bool_decide_eq_true.
      * rewrite filter_cons_False; [simpl; lia|]. simpl.
        rewrite bool_decide_eq_true. intros [? _]. subst idx. congruence.
  - destruct (decide (e ≠ 0)); [simpl|done].
    split; [done|]. left. split; [done|]. intros i.
    rewrite !install_count_app. unfold install_count at 2 3. simpl. lia.
Qed.

Lemma install_count_snoc_other idx tr e :
  is_install idx e = false → install_count idx (tr ++ [e]) = install_count idx tr.
Proof.
  intros He. rewrite install_count_app. unfold install_count at 2.
  rewrite filter_cons_False; [simpl; lia|]. by rewrite He.
Qed.

(** The callback, in terms of the locked inner resolution. *)
Lemma fault_outer_unfold (vmf : vm_fault) (st : kstate HW) :
  let r := __sgx_virt_epc_fault P (vmf_vma vmf) (vmf_address vmf) (emit EvDownWrite st).2 in
  let st2 := (emit EvUpWrite r.2).2 in
  sgx_virt_epc_fault P vmf st =
    if decide (r.1 = 0) then (VM_FAULT_NOPAGE, st2)
    else if signal_pending P (hw r.2) then (VM_FAULT_NOPAGE, st2)
    else if decide (r.1 = - EBUSY ∧ Z.land (vmf_flags vmf) FAULT_FLAG_ALLOW_RETRY ≠ 0)
         then (VM_FAULT_RETRY, (emit EvMmapReadUnlock st2).2)
         else (VM_FAULT_SIGBUS, st2).
Proof.
  intros r st2. subst st2 r. unfold sgx_virt_epc_fault, kbind at 1 2 3.
  simpl. destruct (__sgx_virt_epc_fault P _ _ _) as [ret st1]. simpl.
  repeat (case_decide || case_match); done.
Qed.

Lemma fault_outer_cases (vmf : vm_fault) (st : kstate HW) :
  let idx := sgx_virt_epc_calc_index (vmf_vma vmf) (vmf_address vmf) in
  let st' := (sgx_virt_epc_fault P vmf st).2 in
  (page_array (epc st') = page_array (epc st) ∧
   ∀ i, install_count i (trace st') = install_count i (trace st))
  ∨ (page_array (epc st) !! idx = None ∧
     (∃ pg, page_array (epc st') = <[idx := pg]> (page_array (epc st))) ∧
     ∀ i, install_count i (trace st')
          = (install_count i (trace st) + if decide (i = idx) then 1 else 0)%nat).
Proof.
  intros idx st'. subst st'. rewrite fault_outer_unfold.
  pose proof (fault_inner_cases (vmf_vma vmf) (vmf_address vmf) (emit EvDownWrite st).2)
    as [_ Hin].
  fold idx in Hin.
  destruct (__sgx_virt_epc_fault P _ _ _) as [ret st1]. cbn [fst snd] in *.
  assert (Hin' :
    (page_array (epc (emit EvUpWrite st1).2) = page_array (epc st) ∧
     ∀ i, install_count i (trace (emit EvUpWrite st1).2) = install_count i (trace st))
    ∨ (page_array (epc st) !! idx = None ∧
       (∃ pg, page_array (epc (emit EvUpWrite st1).2) = <[idx := pg]> (page_array (epc st))) ∧
       ∀ i, install_count i (trace (emit EvUpWrite st1).2)
            = (install_count i (trace st) + if decide (i = idx) then 1 else 0)%nat)).
  { destruct Hin as [[Ht Hc]|(_ & Hn & [pg Ht] & Hc)]; [left|right]; simpl in *.
    - split; [done|]. intros i.
      rewrite install_count_snoc_other, Hc by done. by rewrite install_count_snoc_other.
    - split; [done|]. split; [by exists pg|]. intros i.
      rewrite install_count_snoc_other, Hc by done. by rewrite install_count_snoc_other. }
  clear Hin.
  repeat (case_decide || case_match); cbn [fst snd]; try exact Hin'.
  destruct Hin' as [[Ht Hc]|(Hn & [pg Ht] & Hc)]; [left|right]; simpl in *.
  - split; [done|]. intros i. rewrite install_count_snoc_other by done. apply Hc.
  - split; [done|]. split; [by exists pg|]. intros i.
    rewrite install_count_snoc_other by done. apply Hc.
Qed.

(** Over a run of faults a resolved index stays resolved and sees no
    further installation; an unresolved one sees at most one. *)
Lemma fault_seq_installs idx (faults : list vm_fault) (st : kstate HW) :
  let st' := fault_seq P faults st in
  (is_Some (page_array (epc st) !! idx) →
     install_count idx (trace st') = install_count idx (trace st)) ∧
  (install_count idx (trace st') ≤ install_count idx (trace st) + 1)%nat.
Proof.
  revert st. induction faults as [|vmf faults IH]; intros st; simpl.
  { split; [done|lia]. }
  destruct (IH (sgx_virt_epc_fault P vmf st).2) as [IH1 IH2].
  destruct (fault_outer_cases vmf st) as [[Ht Hc]|(Hn & [pg Ht] & Hc)].
  - rewrite Ht in IH1. rewrite Hc in IH1, IH2. done.
  - rewrite Ht in IH1. rewrite Hc in IH1, IH2.
    set (j := sgx_virt_epc_calc_index (vmf_vma vmf) (vmf_address vmf)) in *.
    destruct (decide (idx = j)) as [->|Hne].
    + rewrite lookup_insert_eq in IH1. split.
      * intros [? ?]. congruence.
      * rewrite IH1 by eauto. lia.
    + rewrite lookup_insert_ne in IH1 by done. split.
      * intros Hs. rewrite IH1 by done. lia.
      * lia.
Qed.

End FaultFacts.

(** C4: a fault on an address whose page index already has an entry
    is resolved with no work: the inner resolution returns 0 and leaves
    the whole state as it was (table, trace and world: no allocation,
    no store, no page-frame installation), and the callback answers
    VM_FAULT_NOPAGE having only taken and dropped the region lock.
    Over any run of fault callbacks such an index sees no installation
    at all, and any index, resolved or not, sees at most one. *)
Theorem fault_resolved_index_noop {HW} (P : platform HW)
    (vmf : vm_fault) (st : kstate HW) (pg : sgx_epc_page) :
  let idx := sgx_virt_epc_calc_index (vmf_vma vmf) (vmf_address vmf) in
  page_array (epc st) !! idx = Some pg →
  __sgx_virt_epc_fault P (vmf_vma vmf) (vmf_address vmf) st = (0, st) ∧
  sgx_virt_epc_fault P vmf st
  = (VM_FAULT_NOPAGE,
     KState (epc st) (virt_epc_zombie_pages st)
            (trace st ++ [EvDownWrite; EvUpWrite]) (hw st)) ∧
  (∀ faults,
     install_count idx (trace (fault_seq P faults st)) = install_count idx (trace st)) ∧
  (∀ i faults (st0 : kstate HW),
     install_count i (trace (fault_seq P faults st0))
     ≤ install_count i (trace st0) + 1)%nat.
Proof.
  intros idx Hpg. split; [by eapply fault_present|]. split; [|split].
  - rewrite fault_outer_unfold.
    rewrite (fault_present P _ _ (emit EvDownWrite st).2 pg) by done.
    cbn. by rewrite <- app_assoc.
  - intros faults. apply fault_seq_installs. by rewrite Hpg.
  - intros i faults st0. apply fault_seq_installs.
Qed.

(** C5: on an absent index, once a page has been allocated, a failing
    table store frees that page and returns the store error, and a
    failing page-frame installation erases the entry just stored, frees
    the page and returns -EFAULT; either way the table is what it was
    before the fault and has no entry at the index. *)
Theorem fault_error_paths {HW} (P : platform HW)
    (vma : vm_area_struct) (addr : Z) (st : kstate HW)
    (pg : sgx_epc_page) (h1 h2 : HW) (e : Z) :
  let idx := sgx_virt_epc_calc_index vma addr in
  let pfn := PFN_DOWN (sgx_get_epc_phys_addr P pg) in
  page_array (epc st) !! idx = None →
  sgx_alloc_epc_page P (hw st) = (inr pg, h1) →
  xa_store_err P idx pg h1 = (e, h2) →
  (e ≠ 0 →
     __sgx_virt_epc_fault P vma addr st
     = (e, KState (epc st) (virt_epc_zombie_pages st)
                  (trace st ++ [EvAlloc (inr pg); EvFree pg])
                  (sgx_free_epc_page P pg h2))) ∧
  (e = 0 → ∀ r h3,
     vmf_insert_pfn P vma addr pfn h2 = (r, h3) →
     r ≠ VM_FAULT_NOPAGE →
     __sgx_virt_epc_fault P vma addr st
     = (- EFAULT, KState (epc st) (virt_epc_zombie_pages st)
                         (trace st ++ [EvAlloc (inr pg); EvInsertPfn vma addr pfn r; EvFree pg])
                         (sgx_free_epc_page P pg h3))).
Proof.
  intros idx pfn Hidx Ha Hs. split.
  - intros He. unfold __sgx_virt_epc_fault. fold idx. unfold_m.
    rewrite Hidx, Ha. cbn [fst snd hw]. rewrite Hs. cbn [fst snd].
    destruct (decide (e = 0)); [done|]. destruct (decide (e ≠ 0)); [|done].
    cbn. by rewrite <- !app_assoc.
  - intros -> r h3 Hi Hr. unfold __sgx_virt_epc_fault. fold idx. unfold_m. unfold_m.
    rewrite Hidx, Ha. cbn [fst snd hw]. rewrite Hs.
    cbn [fst snd hw epc trace virt_epc_zombie_pages page_array epc_id mm].
    destruct (decide (0 = 0)); [|done]. destruct (decide (0 ≠ 0)); [done|].
    cbn [fst snd hw epc trace virt_epc_zombie_pages page_array epc_id mm].
    fold pfn. rewrite Hi. destruct (decide (r ≠ VM_FAULT_NOPAGE)); [|done].
    cbn [fst snd hw epc trace virt_epc_zombie_pages page_array epc_id mm].
    rewrite delete_insert_eq, delete_id by done.
    by rewrite epc_eta, <- !app_assoc.
Qed.

(** C9: when a signal is pending at the point where the callback looks
    (after the region lock has been dropped), the callback answers
    VM_FAULT_NOPAGE whatever the inner resolution returned; with no
    signal pending and a failed resolution it answers VM_FAULT_RETRY or
    VM_FAULT_SIGBUS. *)
Theorem fault_signal_pending_resolved {HW} (P : platform HW)
    (vmf : vm_fault) (st : kstate HW) :
  let r := __sgx_virt_epc_fault P (vmf_vma vmf) (vmf_address vmf) (emit EvDownWrite st).2 in
  (signal_pending P (hw r.2) = true →
     sgx_virt_epc_fault P vmf st = (VM_FAULT_NOPAGE, (emit EvUpWrite r.2).2)) ∧
  (signal_pending P (hw r.2) = false → r.1 ≠ 0 →
     (sgx_virt_epc_fault P vmf st).1 = VM_FAULT_RETRY ∨
     (sgx_virt_epc_fault P vmf st).1 = VM_FAULT_SIGBUS).
Proof.
  intros r. rewrite fault_outer_unfold. fold r. split.
  - intros ->. by case_decide.
  - intros -> Hr. repeat case_decide; simpl; tauto.
Qed.

(** ** mmap *)

Lemma land_bit_zero (x n : Z) :
  0 ≤ n → Z.land x (2 ^ n) = 0 ↔ Z.testbit x n = false.
Proof.
  intros Hn. split.
  - intros H0. assert (Hb : Z.testbit (Z.land x (2 ^ n)) n = false)
      by (rewrite H0; apply Z.bits_0).
    rewrite Z.land_spec, Z.pow2_bits_true, andb_true_r in Hb by done. done.
  - intros Hx. apply Z.bits_inj'. intros m Hm.
    rewrite Z.land_spec, Z.bits_0, Z.pow2_bits_eqb by done.
    destruct (Z.eqb_spec n m) as [->|]; [by rewrite Hx|apply andb_false_r].
Qed.

(** C8: the mmap hook returns -EINVAL exactly when VM_SHARED is clear
    in vm_flags (bit 3) or the mm of the mapping is not the mm the
    region was opened by, and then leaves the vma alone; otherwise it
    returns 0 with vm_ops pointing at the region's operations (fault
    and access), VM_PFNMAP, VM_IO and VM_DONTDUMP (bits 10, 14 and 26)
    or-ed into the old flags, and vm_private_data pointing at the
    region. *)
Theorem mmap_rejects_iff (e : sgx_virt_epc) (vma : vm_area_struct) :
  let r := sgx_virt_epc_mmap e vma in
  (r.1 = - EINVAL ↔ Z.land (vm_flags vma) VM_SHARED = 0 ∨ vm_mm vma ≠ mm e) ∧
  (Z.land (vm_flags vma) VM_SHARED = 0 ↔ Z.testbit (vm_flags vma) 3 = false) ∧
  (r.1 = - EINVAL ∧ r.2 = vma ∨
   r.1 = 0 ∧
   vm_ops r.2 = Some sgx_virt_epc_vm_ops ∧
   vm_private_data r.2 = Some (epc_id e) ∧
   vm_start r.2 = vm_start vma ∧ vm_pgoff r.2 = vm_pgoff vma ∧ vm_mm r.2 = vm_mm vma ∧
   vm_flags r.2 = Z.lor (vm_flags vma) (Z.lor (Z.lor VM_PFNMAP VM_IO) VM_DONTDUMP) ∧
   ∀ n, 0 ≤ n →
     Z.testbit (vm_flags r.2) n
     = Z.testbit (vm_flags vma) n || bool_decide (n = 10 ∨ n = 14 ∨ n = 26)).
Proof.
  intros r. subst r. unfold sgx_virt_epc_mmap.
  split; [|split; [change VM_SHARED with (2 ^ 3); by apply land_bit_zero|]].
  - destruct (decide (Z.land (vm_flags vma) VM_SHARED = 0)) as [Hs|Hs]; cbn [fst snd].
    { split; [|done]. intros _. by left. }
    destruct (decide (vm_mm vma ≠ mm e)) as [Hm|Hm]; cbn [fst snd].
    { split; [|done]. intros _. by right. }
    split; [done|]. intros [Hb|Hb]; done.
  - destruct (decide (Z.land (vm_flags vma) VM_SHARED = 0)) as [Hs|Hs]; cbn [fst snd];
      [by left|].
    destruct (decide (vm_mm vma ≠ mm e)) as [Hm|Hm];
      cbn [fst snd vm_ops vm_private_data vm_start vm_pgoff vm_mm vm_flags];
      [by left|].
    right. repeat split; try done. intros n Hn.
    change VM_PFNMAP with (2 ^ 10). change VM_IO with (2 ^ 14).
    change VM_DONTDUMP with (2 ^ 26).
    rewrite !Z.lor_spec, !Z.pow2_bits_eqb by done.
    f_equal.
    destruct (Z.eqb_spec 10 n), (Z.eqb_spec 14 n), (Z.eqb_spec 26 n); subst;
      cbn [orb]; try done; symmetry; apply bool_decide_eq_false; lia.
Qed.

(** ** Iterating over the xarray *)

Lemma xa_least_Some ok l k v :
  xa_least ok l = Some (k, v) →
  (k, v) ∈ l ∧ ok k = true ∧ ∀ k' v', (k', v') ∈ l → ok k' = true → k ≤ k'.
Proof.
  revert k v. induction l as [|[k0 v0] l IH]; intros k v; simpl; [done|].
  destruct (ok k0) eqn:Hok.
  - destruct (xa_least ok l) as [[k1 v1]|] eqn:Hl; simpl.
    + destruct (IH k1 v1 eq_refl) as (Hin & Hk1 & Hmin).
      case_bool_decide as Hlt; intros [= <- <-].
      * split; [left|]. split; [done|]. intros k' v' [[= -> ->]|Hin']%elem_of_cons Hk'; [lia|].
        specialize (Hmin _ _ Hin' Hk'). lia.
      * split; [by right|]. split; [done|].
        intros k' v' [[= -> ->]|Hin']%elem_of_cons Hk'; [lia|]. eauto.
    + intros [= <- <-]. split; [left|]. split; [done|].
      intros k' v' [[= -> ->]|Hin']%elem_of_cons Hk'; [lia|].
      exfalso. clear IH. induction l as [|[k2 v2] l IHl]; [by inversion Hin'|].
      simpl in Hl. destruct (ok k2) eqn:Hk2.
      * destruct (xa_least ok l) as [[??]|]; [case_bool_decide|]; done.
      * apply elem_of_cons in Hin' as [[= -> ->]|Hin']; [congruence|eauto].
  - intros Hl. destruct (IH _ _ Hl) as (Hin & Hk & Hmin).
    split; [by right|]. split; [done|].
    intros k' v' [[= -> ->]|Hin']%elem_of_cons Hk'; [congruence|eauto].
Qed.

Lemma xa_least_None ok l k v :
  xa_least ok l = None → (k, v) ∈ l → ok k = false.
Proof.
  induction l as [|[k0 v0] l IH]; simpl; [by inversion 2|].
  destruct (ok k0) eqn:Hok.
  - destruct (xa_least ok l) as [[??]|]; [case_bool_decide|]; done.
  - intros Hl [[= -> ->]|Hin]%elem_of_cons; eauto.
Qed.

Lemma xa_find_after_Some (m : gmap Z sgx_epc_page) index k v :
  xa_find_after m index = Some (k, v) →
  m !! k = Some v ∧ index < k ∧ ∀ k' v', m !! k' = Some v' → index < k' → k ≤ k'.
Proof.
  intros (Hin & Hk & Hmin)%xa_least_Some.
  apply elem_of_map_to_list in Hin. apply bool_decide_eq_true in Hk.
  split; [done|]. split; [done|]. intros k' v' Hk' Hlt.
  apply (Hmin k' v'); [by apply elem_of_map_to_list|by apply bool_decide_eq_true].
Qed.

Lemma xa_find_after_None (m : gmap Z sgx_epc_page) index k v :
  xa_find_after m index = None → m !! k = Some v → k ≤ index.
Proof.
  unfold xa_find_after. intros Hn Hk. apply elem_of_map_to_list in Hk.
  pose proof (xa_least_None _ _ _ _ Hn Hk) as Hf. simpl in Hf.
  apply bool_decide_eq_false in Hf. lia.
Qed.

Lemma xa_find_Some (m : gmap Z sgx_epc_page) index k v :
  xa_find m index = Some (k, v) →
  m !! k = Some v ∧ index ≤ k ∧ ∀ k' v', m !! k' = Some v' → index ≤ k' → k ≤ k'.
Proof.
  intros (Hin & Hk & Hmin)%xa_least_Some.
  apply elem_of_map_to_list in Hin. apply bool_decide_eq_true in Hk.
  split; [done|]. split; [done|]. intros k' v' Hk' Hlt.
  apply (Hmin k' v'); [by apply elem_of_map_to_list|by apply bool_decide_eq_true].
Qed.

Lemma xa_find_None (m : gmap Z sgx_epc_page) index k v :
  xa_find m index = None → m !! k = Some v → k < index.
Proof.
  unfold xa_find. intros Hn Hk. apply elem_of_map_to_list in Hk.
  pose proof (xa_least_None _ _ _ _ Hn Hk) as Hf. simpl in Hf.
  apply bool_decide_eq_false in Hf. lia.
Qed.

(** The entries at or above the cursor bound the iterations left. *)
Lemma xa_remaining_decreases (m m' : gmap Z sgx_epc_page) index entry k' :
  m !! index = Some entry → m' ⊆ m → index < k' →
  (size (filter (λ kv, (k' ≤ kv.1)%Z) m')
   < size (filter (λ kv, (index ≤ kv.1)%Z) m))%nat.
Proof.
  intros Hidx Hsub Hlt. apply map_subset_size. split.
  - apply map_subseteq_spec. intros i x [Hi Hk]%map_lookup_filter_Some. simpl in Hk.
    apply map_lookup_filter_Some. split; [by eapply lookup_weaken|simpl; lia].
  - intros Hback.
    assert (Hin : filter (λ kv : Z * sgx_epc_page, index ≤ kv.1) m !! index = Some entry)
      by (apply map_lookup_filter_Some; split; [done|simpl; lia]).
    pose proof (lookup_weaken _ _ _ _ Hin Hback) as [_ Hk]%map_lookup_filter_Some.
    simpl in Hk. lia.
Qed.

Section ForEach.
Context {HW : Type} {L : Type} (body : Z → sgx_epc_page → L → M HW L).
Context (I : L → kstate HW → Prop) (erases : bool).
Hypothesis body_ok : ∀ index entry l st,
  page_array (epc st) !! index = Some entry → I l st →
  I (body index entry l st).1 (body index entry l st).2 ∧
  (page_array (epc (body index entry l st).2) = delete index (page_array (epc st))
   ∨ erases = false ∧
     page_array (epc (body index entry l st).2) = page_array (epc st)).

Lemma xa_for_each_from_rule fuel cur l st :
  I l st →
  match cur with
  | Some (index, entry) =>
    page_array (epc st) !! index = Some entry ∧
    (size (filter (λ kv, (index ≤ kv.1)%Z) (page_array (epc st))) ≤ fuel)%nat
  | None => True
  end →
  ∃ l' st',
    xa_for_each_from fuel body cur l st = Some (l', st') ∧ I l' st' ∧
    page_array (epc st') ⊆ page_array (epc st) ∧
    (erases = true → ∀ index entry, cur = Some (index, entry) →
       ∀ k, index ≤ k → page_array (epc st') !! k = None).
Proof.
  revert cur l st. induction fuel as [|fuel IH]; intros [[index entry]|] l st HI Hcur.
  - destruct Hcur as [Hidx Hsz]. exfalso.
    assert (Hin : filter (λ kv : Z * sgx_epc_page, index ≤ kv.1) (page_array (epc st))
                    !! index = Some entry)
      by (apply map_lookup_filter_Some; split; [done|simpl; lia]).
    pose proof (map_size_ne_0_lookup_2 _ index (ex_intro _ entry Hin)). lia.
  - exists l, st. simpl. repeat split; [done|done|]. intros _ ? ? [=].
  - destruct Hcur as [Hidx Hsz]. simpl.
    destruct (body_ok index entry l st Hidx HI) as [HI1 Htbl].
    destruct (body index entry l st) as [l1 st1] eqn:Hb. simpl in HI1, Htbl |- *.
    assert (Hsub1 : page_array (epc st1) ⊆ page_array (epc st)).
    { destruct Htbl as [->|[_ ->]]; [apply delete_subseteq|done]. }
    destruct (xa_find_after (page_array (epc st1)) index) as [[k' v']|] eqn:Hnext.
    + apply xa_find_after_Some in Hnext as (Hk' & Hlt & Hmin).
      destruct (IH (Some (k', v')) l1 st1 HI1) as (l2 & st2 & Hrun & HI2 & Hsub2 & Her).
      { split; [done|].
        pose proof (xa_remaining_decreases _ _ index entry k' Hidx Hsub1 Hlt). lia. }
      exists l2, st2. split; [exact Hrun|]. split; [exact HI2|]. split; [by etrans|].
      intros He ? ? [= <- <-] k Hk.
      destruct (decide (k' ≤ k)) as [Hge|Hlt']; [by eapply Her|].
      eapply lookup_weaken_None; [|done].
      destruct Htbl as [Hd|[? _]]; [|congruence]. rewrite Hd.
      destruct (decide (k = index)) as [->|Hne]; [apply lookup_delete_eq|].
      rewrite lookup_delete_ne by done.
      destruct (page_array (epc st) !! k) as [x|] eqn:Hx; [|done].
      exfalso. specialize (Hmin k x). rewrite Hd, lookup_delete_ne in Hmin by done.
      specialize (Hmin Hx). lia.
    + exists l1, st1. split; [by destruct fuel|]. split; [done|]. split; [done|].
      intros He ? ? [= <- <-] k Hk.
      destruct Htbl as [Hd|[? _]]; [|congruence].
      destruct (decide (k = index)) as [->|Hne]; [rewrite Hd; apply lookup_delete_eq|].
      destruct (page_array (epc st1) !! k) as [x|] eqn:Hx; [|done].
      pose proof (xa_find_after_None _ _ _ _ Hnext Hx). lia.
  - exists l, st. simpl. repeat split; [done|done|]. intros _ ? ? [=].
Qed.

Lemma xa_for_each_rule l st :
  I l st →
  ∃ l' st',
    xa_for_each body l st = Some (l', st') ∧ I l' st' ∧
    page_array (epc st') ⊆ page_array (epc st) ∧
    (erases = true → xa_index_ok (page_array (epc st)) → page_array (epc st') = ∅).
Proof.
  intros HI. unfold xa_for_each.
  destruct (xa_find (page_array (epc st)) 0) as [[index entry]|] eqn:Hfirst.
  - apply xa_find_Some in Hfirst as (Hidx & Hge & Hmin).
    destruct (xa_for_each_from_rule (size (page_array (epc st))) (Some (index, entry)) l st HI)
      as (l' & st' & Hrun & HI' & Hsub & Her).
    { split; [done|]. apply map_subseteq_size, map_filter_subseteq. }
    exists l', st'. split; [done|]. split; [done|]. split; [done|].
    intros He Hwf. apply map_empty. intros k.
    destruct (decide (index ≤ k)) as [Hk|Hk]; [by eapply Her|].
    eapply lookup_weaken_None; [|done].
    destruct (page_array (epc st) !! k) as [x|] eqn:Hx; [|done].
    exfalso. assert (0 ≤ k) by (apply (Hwf k x Hx)).
    specialize (Hmin k x Hx). lia.
  - exists l, st. split; [by destruct (size _)|]. split; [done|]. split; [done|].
    intros _ Hwf. apply map_empty. intros k.
    destruct (page_array (epc st) !! k) as [x|] eqn:Hx; [|done].
    exfalso. assert (0 ≤ k) by (apply (Hwf k x Hx)).
    pose proof (xa_find_None _ _ _ _ Hfirst Hx). lia.
Qed.

End ForEach.

(** ** Release *)

Lemma raw_freed_app tr1 tr2 : raw_freed (tr1 ++ tr2) = raw_freed tr1 ++ raw_freed tr2.
Proof. apply omap_app. Qed.

Lemma alloc_calls_app tr1 tr2 :
  alloc_calls (tr1 ++ tr2) = alloc_calls tr1 ++ alloc_calls tr2.
Proof. apply omap_app. Qed.

Lemma xa_pages_delete (m : gmap Z sgx_epc_page) i x :
  m !! i = Some x → x :: xa_pages (delete i m) ≡ₚ xa_pages m.
Proof.
  intros Hi. unfold xa_pages.
  by rewrite <- (map_to_list_delete m i x Hi).
Qed.

Section ReleaseFacts.
Context {HW : Type} (P : platform HW).

Lemma warned_snoc (l : list event) (e : event) :
  e ≠ EvWarn → bool_decide (EvWarn ∈ l ++ [e]) = bool_decide (EvWarn ∈ l).
Proof.
  intros He. apply bool_decide_ext.
  rewrite elem_of_app, list_elem_of_singleton. intuition congruence.
Qed.

(** The helper, spelled out on the result of EREMOVE. *)
Lemma free_page_unfold (pg : sgx_epc_page) (st : kstate HW) :
  let va := sgx_get_epc_virt_addr P pg in
  sgx_virt_epc_free_page P (Some pg) st =
    if decide ((__eremove P va (hw st)).1 ≠ 0)
    then ((__eremove P va (hw st)).1,
          KState (epc st) (virt_epc_zombie_pages st)
                 (trace st ++ EvEremove va (__eremove P va (hw st)).1
                    :: (if decide ((__eremove P va (hw st)).1 ≠ SGX_CHILD_PRESENT)
                        then (if warned st then [] else [EvWarn]) else []))
                 (__eremove P va (hw st)).2)
    else (0, KState (epc st) (virt_epc_zombie_pages st)
                    (trace st ++ [EvEremove va 0; EvRawFree pg])
                    (__sgx_free_epc_page P pg (__eremove P va (hw st)).2)).
Proof.
  intros va. unfold sgx_virt_epc_free_page, WARN_ON_ONCE, warned. fold va. unfold_m.
  destruct (__eremove P va (hw st)) as [r h]. cbn [fst snd trace].
  destruct (decide (r ≠ 0)) as [Hr|Hr].
  - kcbn. rewrite warned_snoc by done.
    destruct (decide (r ≠ SGX_CHILD_PRESENT));
      [rewrite bool_decide_eq_true_2 by done|rewrite bool_decide_eq_false_2 by done];
      destruct (bool_decide (EvWarn ∈ trace st)); cbn; by rewrite <- ?app_assoc.
  - apply dec_stable in Hr. subst r. cbn. by rewrite <- app_assoc.
Qed.

Lemma free_page_effect (pg : sgx_epc_page) (st : kstate HW) :
  let r := (__eremove P (sgx_get_epc_virt_addr P pg) (hw st)).1 in
  let res := sgx_virt_epc_free_page P (Some pg) st in
  res.1 = r ∧ epc res.2 = epc st ∧
  virt_epc_zombie_pages res.2 = virt_epc_zombie_pages st ∧
  ∃ tr, trace res.2 = trace st ++ tr ∧
        raw_freed tr = (if decide (r = 0) then [pg] else []) ∧
        alloc_calls tr = [].
Proof.
  intros r res. subst res. rewrite free_page_unfold. fold r.
  destruct (decide (r ≠ 0)) as [Hr|Hr]; cbn [fst snd epc virt_epc_zombie_pages trace].
  - repeat split; try done. eexists. split; [done|].
    destruct (decide (r = 0)); [done|]. case_decide; [|done]. by destruct (warned st).
  - apply dec_stable in Hr. repeat split; try done. eexists. split; [done|].
    by destruct (decide (r = 0)).
Qed.

Lemma release_inv_init (st0 : kstate HW) : release_inv st0 [] st0.
Proof.
  split; [done|]. split; [done|]. exists []. by rewrite app_nil_r.
Qed.

Lemma release_pass1_body_ok (st0 : kstate HW) index entry (u : unit) st :
  page_array (epc st) !! index = Some entry →
  release_inv st0 [] st →
  release_inv st0 [] (release_pass1_body P index entry u st).2 ∧
  (page_array (epc (release_pass1_body P index entry u st).2)
     = delete index (page_array (epc st))
   ∨ false = false ∧
     page_array (epc (release_pass1_body P index entry u st).2) = page_array (epc st)).
Proof.
  intros Hidx (Hz & Hid & tr & Htr & Hal & Hperm).
  unfold release_pass1_body, kbind.
  destruct (free_page_effect entry st) as (Hr & He & Hz' & tr' & Htr' & Hfr & Hal').
  destruct (sgx_virt_epc_free_page P (Some entry) st) as [r st1].
  cbn [fst snd] in *. subst r.
  set (r := (__eremove P (sgx_get_epc_virt_addr P entry) (hw st)).1) in *.
  destruct (decide (r ≠ 0)) as [Hr|Hr].
  - destruct (decide (r = 0)); [done|]. cbn [kret snd]. split; [|right; split; [done|by rewrite He]].
    split; [congruence|]. split; [congruence|]. exists (tr ++ tr').
    rewrite Htr', Htr, app_assoc. split; [done|].
    rewrite alloc_calls_app, raw_freed_app, Hal, Hal', Hfr, He. split; [done|].
    by rewrite app_nil_r.
  - destruct (decide (r = 0)); [|done]. unfold xa_erase, set_page_array, release_inv.
    cbn [fst snd epc page_array virt_epc_zombie_pages trace epc_id]. split; [|left; by rewrite He].
    split; [congruence|]. split; [congruence|]. exists (tr ++ tr').
    rewrite Htr', Htr, app_assoc. split; [done|].
    rewrite alloc_calls_app, raw_freed_app, Hal, Hal', Hfr, He. split; [done|].
    rewrite <- Hperm, <- (xa_pages_delete _ _ _ Hidx). simpl.
    by rewrite <- app_assoc.
Qed.

Lemma release_pass2_body_ok (st0 : kstate HW) index entry secs st :
  page_array (epc st) !! index = Some entry →
  release_inv st0 secs st →
  release_inv st0 (release_pass2_body P index entry secs st).1
              (release_pass2_body P index entry secs st).2 ∧
  (page_array (epc (release_pass2_body P index entry secs st).2)
     = delete index (page_array (epc st))
   ∨ true = false ∧
     page_array (epc (release_pass2_body P index entry secs st).2) = page_array (epc st)).
Proof.
  intros Hidx (Hz & Hid & tr & Htr & Hal & Hperm).
  unfold release_pass2_body, kbind.
  destruct (free_page_effect entry st) as (Hr & He & Hz' & tr' & Htr' & Hfr & Hal').
  destruct (sgx_virt_epc_free_page P (Some entry) st) as [r st1].
  cbn [fst snd] in *. subst r.
  set (r := (__eremove P (sgx_get_epc_virt_addr P entry) (hw st)).1) in *.
  unfold xa_erase, set_page_array, kret, release_inv.
  cbn [fst snd epc page_array virt_epc_zombie_pages trace epc_id].
  split; [|left; by rewrite He].
  split; [congruence|]. split; [congruence|]. exists (tr ++ tr').
  rewrite Htr', Htr, app_assoc. split; [done|].
  rewrite alloc_calls_app, raw_freed_app, Hal, Hal', Hfr, He. split; [done|].
  rewrite <- Hperm, <- (xa_pages_delete _ _ _ Hidx).
  destruct (decide (r ≠ 0)) as [Hr|Hr].
  - destruct (decide (r = 0)); [done|]. rewrite app_nil_r, <- !app_assoc.
    by apply Permutation_app_head, Permutation_app_head.
  - destruct (decide (r = 0)); [|done]. rewrite <- !app_assoc. simpl.
    apply Permutation_app_head. apply Permutation_middle.
Qed.

Lemma list_del_head p (l : list sgx_epc_page) : list_del p (p :: l) = l.
Proof. simpl. by destruct (decide (p = p)). Qed.

Lemma release_pass3_body_spec pg tmp secs (st : kstate HW) :
  virt_epc_zombie_pages st = pg :: tmp →
  let res := release_pass3_body P pg secs st in
  let r := (__eremove P (sgx_get_epc_virt_addr P pg) (hw st)).1 in
  virt_epc_zombie_pages res.2 = tmp ∧ epc res.2 = epc st ∧
  res.1 = (if decide (r ≠ 0) then secs ++ [pg] else secs) ∧
  ∃ tr, trace res.2 = trace st ++ tr ∧ alloc_calls tr = [] ∧
        raw_freed tr = (if decide (r = 0) then [pg] else []).
Proof.
  intros Hz res r. subst res. unfold release_pass3_body, kbind, call_list_del, kret.
  rewrite Hz, list_del_head.
  pose proof (free_page_effect pg (KState (epc st) tmp (trace st ++ [EvListDel pg]) (hw st)))
    as (Hr & He & Hz' & tr' & Htr' & Hfr & Hal').
  destruct (sgx_virt_epc_free_page P (Some pg) _) as [r' st1].
  cbn [fst snd epc virt_epc_zombie_pages trace hw] in *. subst r'. fold r in Hfr |- *.
  repeat split; try done. exists (EvListDel pg :: tr').
  split; [by rewrite Htr', <- app_assoc|]. done.
Qed.

Lemma release_pass3_walk_spec todo secs (st : kstate HW) :
  virt_epc_zombie_pages st = todo →
  let res := release_pass3_walk P todo secs st in
  virt_epc_zombie_pages res.2 = [] ∧ epc res.2 = epc st ∧
  ∃ tr failed, trace res.2 = trace st ++ tr ∧ alloc_calls tr = [] ∧
               res.1 = secs ++ failed ∧
               raw_freed tr ++ failed ≡ₚ todo.
Proof.
  revert secs st. induction todo as [|pg tmp IH]; intros secs st Hz; simpl.
  { split; [done|]. split; [done|]. exists [], []. by rewrite !app_nil_r. }
  unfold kbind.
  destruct (release_pass3_body_spec pg tmp secs st Hz) as (Hz1 & He1 & Hs1 & tr1 & Htr1 & Hal1 & Hfr1).
  destruct (release_pass3_body P pg secs st) as [secs1 st1]. cbn [fst snd] in *.
  destruct (IH secs1 st1 Hz1) as (Hz2 & He2 & tr2 & failed & Htr2 & Hal2 & Hs2 & Hperm).
  split; [done|]. split; [congruence|].
  set (r := (__eremove P (sgx_get_epc_virt_addr P pg) (hw st)).1) in *.
  exists (tr1 ++ tr2), ((if decide (r ≠ 0) then [pg] else []) ++ failed).
  rewrite Htr2, Htr1, app_assoc. split; [done|].
  rewrite alloc_calls_app, Hal1, Hal2. split; [done|]. split.
  - rewrite Hs2, Hs1. destruct (decide (r ≠ 0)); by rewrite <- ?app_assoc.
  - rewrite raw_freed_app, Hfr1. destruct (decide (r ≠ 0)) as [Hr|Hr].
    + destruct (decide (r = 0)); [done|]. simpl.
      rewrite <- Hperm. symmetry. apply Permutation_middle.
    + destruct (decide (r = 0)); [|done]. simpl. by rewrite Hperm.
Qed.

Lemma release_pass3_spec secs (st : kstate HW) :
  let res := (release_pass3 P secs st).2 in
  epc res = epc st ∧
  ∃ tr failed,
    trace res = trace st ++ EvMutexLock :: tr ++ [EvMutexUnlock] ∧
    alloc_calls tr = [] ∧
    virt_epc_zombie_pages res = secs ++ failed ∧
    raw_freed tr ++ failed ≡ₚ virt_epc_zombie_pages st.
Proof.
  intros res. subst res. unfold release_pass3, kbind.
  set (st3 := (emit EvMutexLock st).2).
  change (emit EvMutexLock st) with (tt, st3). cbv beta iota.
  destruct (release_pass3_walk_spec (virt_epc_zombie_pages st3) secs st3 eq_refl)
    as (Hz3 & He3 & tr3 & failed & Htr3 & Hal3 & Hs3 & Hperm3).
  destruct (release_pass3_walk P (virt_epc_zombie_pages st3) secs st3) as [secs' st4].
  cbn [fst snd] in *. subst secs'.
  assert (Hcommon : trace st4 = trace st ++ EvMutexLock :: tr3).
  { rewrite Htr3. subst st3. cbn [emit snd trace]. by rewrite <- app_assoc. }
  destruct (decide (secs ++ failed ≠ [])) as [Hne|Hne];
    unfold call_list_splice_tail, kret, emit; cbn [fst snd epc trace virt_epc_zombie_pages].
  - split; [by rewrite He3|]. exists (tr3 ++ [EvListSplice (secs ++ failed)]), failed.
    rewrite Hcommon, Hz3, <- !app_assoc. split; [done|].
    rewrite alloc_calls_app, raw_freed_app, Hal3. cbn [alloc_calls raw_freed omap].
    by rewrite !app_nil_r.
  - apply dec_stable in Hne. split; [by rewrite He3|]. exists tr3, failed.
    rewrite Hcommon, Hz3, Hne, <- app_assoc. done.
Qed.

End ReleaseFacts.

(** C2 (as the code has it): in the first loop, when EREMOVE fails on
    an entry the entry stays in the table and nothing is freed; when it
    succeeds the entry is erased and the page is freed.  In both cases
    the loop goes on with the entry of least index above the current
    one (or ends when there is none).  The loop as a whole always
    terminates, and what it freed together with what it left in the
    table is what the table held. *)
Theorem release_pass1_entry {HW} (P : platform HW)
    (index : Z) (entry : sgx_epc_page) (st : kstate HW) :
  page_array (epc st) !! index = Some entry →
  let r := (__eremove P (sgx_get_epc_virt_addr P entry) (hw st)).1 in
  let st' := (release_pass1_body P index entry tt st).2 in
  let next := xa_for_each_next (release_pass1_body P) index entry tt st in
  (r ≠ 0 → page_array (epc st') = page_array (epc st) ∧
           raw_freed (trace st') = raw_freed (trace st)) ∧
  (r = 0 → page_array (epc st') = delete index (page_array (epc st)) ∧
           raw_freed (trace st') = raw_freed (trace st) ++ [entry]) ∧
  (∀ fuel, xa_for_each_from (S fuel) (release_pass1_body P) (Some (index, entry)) tt st
           = xa_for_each_from fuel (release_pass1_body P) next tt st') ∧
  (∀ k v, next = Some (k, v) →
     index < k ∧ page_array (epc st) !! k = Some v ∧
     ∀ k' v', page_array (epc st) !! k' = Some v' → index < k' → k ≤ k') ∧
  (next = None → ∀ k v, page_array (epc st) !! k = Some v → k ≤ index) ∧
  (∀ st0 : kstate HW, ∃ st1 tr,
     xa_for_each (release_pass1_body P) tt st0 = Some (tt, st1) ∧
     trace st1 = trace st0 ++ tr ∧
     page_array (epc st1) ⊆ page_array (epc st0) ∧
     raw_freed tr ++ xa_pages (page_array (epc st1)) ≡ₚ xa_pages (page_array (epc st0))).
Proof.
  intros Hidx r st' next.
  assert (Hbody : (r ≠ 0 → page_array (epc st') = page_array (epc st) ∧
                           raw_freed (trace st') = raw_freed (trace st)) ∧
                  (r = 0 → page_array (epc st') = delete index (page_array (epc st)) ∧
                           raw_freed (trace st') = raw_freed (trace st) ++ [entry])).
  { subst st'. unfold release_pass1_body, kbind.
    destruct (free_page_effect P entry st) as (Hr & He & _ & tr & Htr & Hfr & _).
    destruct (sgx_virt_epc_free_page P (Some entry) st) as [r' st1].
    cbn [fst snd] in *. subst r'. fold r in Hfr |- *.
    destruct (decide (r ≠ 0)) as [Hr|Hr].
    - split; [|done]. intros _. cbn [kret snd]. rewrite He, Htr, raw_freed_app, Hfr.
      destruct (decide (r = 0)); [done|]. by rewrite app_nil_r.
    - apply dec_stable in Hr. split; [done|]. intros _.
      unfold xa_erase, set_page_array. cbn [snd epc page_array trace].
      rewrite He, Htr, raw_freed_app, Hfr. by destruct (decide (r = 0)). }
  assert (Hagree : ∀ k, index < k →
            page_array (epc st') !! k = page_array (epc st) !! k).
  { intros k Hk. destruct Hbody as [Hf Hs]. destruct (decide (r = 0)) as [H0|H0].
    - rewrite (proj1 (Hs H0)). apply lookup_delete_ne. lia.
    - by rewrite (proj1 (Hf H0)). }
  split; [apply Hbody|]. split; [apply Hbody|]. split; [|split; [|split]].
  - intros fuel. simpl. subst st' next. unfold xa_for_each_next.
    by destruct (release_pass1_body P index entry () st) as [[] ?].
  - intros k v (Hk & Hlt & Hmin)%xa_find_after_Some. fold st' in Hk, Hmin.
    split; [done|]. split; [by rewrite <- Hagree|].
    intros k' v' Hk' Hlt'. apply (Hmin k' v'); [by rewrite Hagree|done].
  - intros Hnone k v Hk. destruct (decide (k ≤ index)) as [|Hgt]; [done|].
    eapply xa_find_after_None; [exact Hnone|]. fold st'. rewrite Hagree by lia. done.
  - intros st0.
    destruct (xa_for_each_rule (release_pass1_body P) (λ _, release_inv st0 []) false
                (λ i e l s, release_pass1_body_ok P st0 i e l s) tt st0
                (release_inv_init st0))
      as ([] & st1 & Hrun & (_ & _ & tr & Htr & _ & Hperm) & Hsub & _).
    by exists st1, tr.
Qed.

(** C10: the helper returns what EREMOVE returned.  When that is 0 the
    page goes back to the allocator.  When it is not 0, whatever the
    code, the page is not freed, and each loop keeps it: the first
    leaves it in the table, the second and the third append it to
    [secs_pages], and everything on [secs_pages] is on the zombie list
    when the third loop is done. *)
Theorem free_page_only_when_eremove_succeeds {HW} (P : platform HW)
    (pg : sgx_epc_page) (st : kstate HW) :
  let r := (__eremove P (sgx_get_epc_virt_addr P pg) (hw st)).1 in
  let res := sgx_virt_epc_free_page P (Some pg) st in
  res.1 = r ∧
  (r = 0 → raw_freed (trace res.2) = raw_freed (trace st) ++ [pg]) ∧
  (r ≠ 0 →
     raw_freed (trace res.2) = raw_freed (trace st) ∧
     (∀ index, page_array (epc st) !! index = Some pg →
        page_array (epc (release_pass1_body P index pg tt st).2) !! index = Some pg ∧
        raw_freed (trace (release_pass1_body P index pg tt st).2) = raw_freed (trace st)) ∧
     (∀ index secs,
        (release_pass2_body P index pg secs st).1 = secs ++ [pg] ∧
        raw_freed (trace (release_pass2_body P index pg secs st).2) = raw_freed (trace st)) ∧
     (∀ tmp secs, virt_epc_zombie_pages st = pg :: tmp →
        (release_pass3_body P pg secs st).1 = secs ++ [pg] ∧
        raw_freed (trace (release_pass3_body P pg secs st).2) = raw_freed (trace st))) ∧
  (∀ secs (st0 : kstate HW) q,
     q ∈ secs → q ∈ virt_epc_zombie_pages (release_pass3 P secs st0).2).
Proof.
  intros r res. subst res.
  destruct (free_page_effect P pg st) as (Hr & He & _ & tr & Htr & Hfr & _).
  fold r in Hr, Hfr.
  split; [done|]. split; [|split].
  - intros H0. rewrite Htr, raw_freed_app, Hfr. by destruct (decide (r = 0)).
  - intros Hne.
    assert (Hkeep : raw_freed (trace (sgx_virt_epc_free_page P (Some pg) st).2)
                    = raw_freed (trace st)).
    { rewrite Htr, raw_freed_app, Hfr. destruct (decide (r = 0)); [done|].
      by rewrite app_nil_r. }
    split; [done|]. split; [|split].
    + intros index Hidx. unfold release_pass1_body, kbind.
      destruct (sgx_virt_epc_free_page P (Some pg) st) as [r' st1].
      cbn [fst snd] in *. subst r'. destruct (decide (r ≠ 0)); [|done].
      cbn [kret snd]. by rewrite He.
    + intros index secs. unfold release_pass2_body, kbind.
      destruct (sgx_virt_epc_free_page P (Some pg) st) as [r' st1].
      cbn [fst snd] in *. subst r'. destruct (decide (r ≠ 0)); [|done].
      unfold xa_erase, set_page_array, kret. by cbn [fst snd trace].
    + intros tmp secs Hz.
      destruct (release_pass3_body_spec P pg tmp secs st Hz)
        as (_ & _ & Hs & tr' & Htr' & _ & Hfr').
      fold r in Hs, Hfr'. destruct (decide (r ≠ 0)); [|done].
      split; [done|]. rewrite Htr', raw_freed_app, Hfr'.
      destruct (decide (r = 0)); [done|]. by rewrite app_nil_r.
  - intros secs st0 q Hq.
    destruct (release_pass3_spec P secs st0) as (_ & tr' & failed & _ & _ & Hz & _).
    rewrite Hz. apply elem_of_app. by left.
Qed.

(** ** Bytes and words *)

Lemma byte_val_range (b : byte) : 0 ≤ byte_val b < 256.
Proof.
  unfold byte_val. pose proof (Byte.to_N_bounded b). lia.
Qed.

Lemma byte_val_of (z : Z) : byte_val (byte_of z) = z mod 256.
Proof.
  unfold byte_val, byte_of.
  assert (Hr : 0 ≤ z mod 256 < 256) by (apply Z.mod_pos_bound; lia).
  destruct (Byte.of_N (Z.to_N (z mod 256))) as [b|] eqn:Hb; simpl.
  - apply Byte.to_of_N in Hb. rewrite Hb. lia.
  - apply Byte.of_N_None_iff in Hb. lia.
Qed.

Lemma word_byte_mod (w j : Z) : word_byte w j = Z.shiftr w (8 * j) mod 256.
Proof. unfold word_byte. by rewrite (Z.land_ones _ 8). Qed.

Lemma length_word_to_bytes (w : Z) : length (word_to_bytes w) = 8%nat.
Proof. unfold word_to_bytes. by rewrite length_map, length_seqZ. Qed.

Lemma lookup_word_to_bytes (w : Z) (j : nat) :
  (j < 8)%nat → word_to_bytes w !! j = Some (byte_of (Z.shiftr w (8 * Z.of_nat j))).
Proof.
  intros Hj. unfold word_to_bytes.
  rewrite list_lookup_fmap, lookup_seqZ_lt by (unfold ULONG_SIZE; lia). done.
Qed.

Lemma word_byte_bytes_to_word (l : list byte) (j : nat) (b : byte) :
  l !! j = Some b → word_byte (bytes_to_word l) (Z.of_nat j) = byte_val b.
Proof.
  revert j. induction l as [|b0 l IH]; intros j Hj; [done|].
  rewrite word_byte_mod. simpl bytes_to_word.
  pose proof (byte_val_range b0) as Hb0.
  assert (Hdiv : (byte_val b0 + 256 * bytes_to_word l) / 256 = bytes_to_word l)
    by (symmetry; apply Z.div_unique with (byte_val b0); lia).
  destruct j as [|j]; simpl in Hj.
  - injection Hj as <-. change (8 * Z.of_nat 0) with 0. rewrite Z.shiftr_0_r.
    symmetry. apply Z.mod_unique with (bytes_to_word l); lia.
  - rewrite <- (IH j Hj), word_byte_mod.
    rewrite !Z.shiftr_div_pow2 by lia.
    replace (8 * Z.of_nat (S j)) with (8 + 8 * Z.of_nat j) by lia.
    rewrite Z.pow_add_r by lia. rewrite <- Z.div_div by lia.
    change (2 ^ 8) with 256. by rewrite Hdiv.
Qed.

(** The bytes of a memcpy result, for a copy inside both arrays. *)
Lemma lookup_memcpy (dst src : list byte) (doff soff cnt : Z) (j : nat) :
  0 ≤ doff → 0 ≤ soff → 0 ≤ cnt →
  doff + cnt ≤ Z.of_nat (length dst) →
  soff + cnt ≤ Z.of_nat (length src) →
  memcpy dst doff src soff cnt !! j
  = if decide (doff ≤ Z.of_nat j < doff + cnt)
    then src !! Z.to_nat (soff + (Z.of_nat j - doff))
    else dst !! j.
Proof.
  intros Hd Hs Hc Hdl Hsl. unfold memcpy.
  assert (Hlt : length (take (Z.to_nat doff) dst) = Z.to_nat doff)
    by (rewrite length_take; lia).
  assert (Hlc : length (take (Z.to_nat cnt) (drop (Z.to_nat soff) src)) = Z.to_nat cnt)
    by (rewrite length_take, length_drop; lia).
  destruct (decide (Z.of_nat j < doff)) as [Hj|Hj].
  - rewrite lookup_app_l by lia. rewrite lookup_take_lt by lia.
    destruct (decide (doff ≤ Z.of_nat j < doff + cnt)); [lia|done].
  - rewrite lookup_app_r by lia. rewrite Hlt.
    destruct (decide (doff ≤ Z.of_nat j < doff + cnt)) as [Hin|Hout].
    + rewrite lookup_app_l by lia. rewrite lookup_take_lt by lia.
      rewrite lookup_drop. f_equal. lia.
    + rewrite lookup_app_r by lia. rewrite Hlc, lookup_drop. f_equal. lia.
Qed.

Lemma length_memcpy (dst src : list byte) (doff soff cnt : Z) :
  0 ≤ doff → 0 ≤ soff → 0 ≤ cnt →
  doff + cnt ≤ Z.of_nat (length dst) →
  soff + cnt ≤ Z.of_nat (length src) →
  length (memcpy dst doff src soff cnt) = length dst.
Proof.
  intros Hd Hs Hc Hdl Hsl. unfold memcpy.
  rewrite !length_app, !length_take, !length_drop. lia.
Qed.

(** ** The debug access path *)

Section AccessFacts.
Context {HW : Type} (P : platform HW).

Lemma access_body_absent vma start len write (v : access_vars) (st : kstate HW) :
  page_array (epc st) !! access_index vma start v = None →
  access_body P vma start len write v st
  = (inl (- EIO), KState (epc st) (virt_epc_zombie_pages st)
                         (trace st ++ [EvDownWrite; EvUpWrite]) (hw st)).
Proof.
  intros Hidx. unfold access_body. unfold_m. cbn [epc]. rewrite Hidx.
  cbn. by rewrite <- app_assoc.
Qed.

(** One iteration: the table and the zombie list are left alone, no
    allocation is made; the body returns early only with -EIO on an
    absent entry, and otherwise hands [cnt] bytes to the increment,
    with a nonzero [ret] only after a failed ENCLS leaf. *)
Lemma access_body_frame vma start len write (v : access_vars) (st : kstate HW) :
  let res := access_body P vma start len write v st in
  epc res.2 = epc st ∧
  virt_epc_zombie_pages res.2 = virt_epc_zombie_pages st ∧
  ∃ tr, trace res.2 = trace st ++ tr ∧ alloc_calls tr = [] ∧
  match res.1 with
  | inl r => r = - EIO ∧ page_array (epc st) !! access_index vma start v = None ∧
             tr = [EvDownWrite; EvUpWrite]
  | inr v' =>
    is_Some (page_array (epc st) !! access_index vma start v) ∧
    av_i v' = av_i v ∧
    av_cnt v' = Z.min (ULONG_SIZE - Z.land (wrap64 (start + av_i v)) (ULONG_SIZE - 1))
                      (len - av_i v) ∧
    (av_ret v = 0 → av_ret v' ≠ 0 → ∃ e, e ∈ tr ∧ is_dbg_failure e = true)
  end.
Proof.
  intros res. subst res.
  destruct (page_array (epc st) !! access_index vma start v) as [pg|] eqn:Hidx.
  2:{ rewrite access_body_absent by done. cbn [fst snd epc virt_epc_zombie_pages trace].
      split; [done|]. split; [done|]. by eexists. }
  unfold access_body. unfold_m. cbn [epc]. rewrite Hidx.
  kcbn.
  set (p := wrap64 (sgx_get_epc_virt_addr P pg + _)).
  set (cnt := Z.min _ _).
  destruct (decide (write = false ∨ cnt ≠ ULONG_SIZE)) as [Hrd|Hrd]; kcbn.
  - destruct (__edbgrd P p (hw st)) as [[r w] h1] eqn:Hrdres. kcbn.
    destruct (decide (r = 0)) as [->|Hr]; kcbn.
    + destruct write; kcbn.
      * match goal with |- context [__edbgwr P p ?w0 ?h0] =>
          destruct (__edbgwr P p w0 h0) as [r2 h2] eqn:Hwr end. kcbn.
        split; [done|]. split; [done|]. eexists.
        split; [rewrite <- !app_assoc; reflexivity|]. split; [done|].
        split; [eauto|]. split; [done|]. split; [done|].
        intros _ Hr2.
        match goal with |- context [EvEdbgwr p ?w0 r2] => exists (EvEdbgwr p w0 r2) end.
        split; [by repeat constructor|]. by apply bool_decide_eq_true.
      * split; [done|]. split; [done|]. eexists.
        split; [rewrite <- !app_assoc; reflexivity|]. split; [done|].
        split; [eauto|]. split; [done|]. split; [done|]. done.
    + split; [done|]. split; [done|]. eexists.
      split; [rewrite <- !app_assoc; reflexivity|]. split; [done|].
      split; [eauto|]. split; [done|]. split; [done|].
      intros _ _. eexists (EvEdbgrd p r w). split; [by repeat constructor|].
      by apply bool_decide_eq_true.
  - destruct (decide (av_ret v = 0)) as [Hr0|Hr0]; kcbn.
    + destruct write; kcbn.
      * match goal with |- context [__edbgwr P p ?w0 ?h0] =>
          destruct (__edbgwr P p w0 h0) as [r2 h2] eqn:Hwr end. kcbn.
        split; [done|]. split; [done|]. eexists.
        split; [rewrite <- !app_assoc; reflexivity|]. split; [done|].
        split; [eauto|]. split; [done|]. split; [done|].
        intros _ Hr2.
        match goal with |- context [EvEdbgwr p ?w0 r2] => exists (EvEdbgwr p w0 r2) end.
        split; [by repeat constructor|]. by apply bool_decide_eq_true.
      * exfalso. apply Hrd. by left.
    + split; [done|]. split; [done|]. eexists.
      split; [rewrite <- !app_assoc; reflexivity|]. split; [done|].
      split; [eauto|]. split; [done|]. split; [done|]. done.
Qed.

Lemma land_7_range (x : Z) : 0 ≤ Z.land x (ULONG_SIZE - 1) < 8.
Proof.
  change (ULONG_SIZE - 1) with (Z.ones 3). rewrite Z.land_ones by lia.
  apply Z.mod_pos_bound. lia.
Qed.

Lemma access_failed_app_r tr1 tr2 : access_failed tr2 → access_failed (tr1 ++ tr2).
Proof.
  intros [(e & He & Hf)|[tr0 ->]].
  - left. exists e. split; [apply elem_of_app; by right|done].
  - right. exists (tr1 ++ tr0). by rewrite app_assoc.
Qed.

(** The loop returns, and only with -EIO, after a failed chunk, or with
    every byte done. *)
Lemma access_loop_total vma start len write fuel (v : access_vars) (st : kstate HW) :
  (Z.to_nat (len - av_i v) ≤ fuel)%nat →
  ∃ r buf' st' tr,
    access_loop P fuel vma start len write v st = Some (r, buf', st') ∧
    epc st' = epc st ∧
    virt_epc_zombie_pages st' = virt_epc_zombie_pages st ∧
    trace st' = trace st ++ tr ∧ alloc_calls tr = [] ∧
    (r = - EIO ∧ (av_ret v = 0 → access_failed tr)
     ∨ av_ret v = 0 ∧ r = Z.max (av_i v) len).
Proof.
  revert v st. induction fuel as [|fuel IH]; intros v st Hfuel.
  - simpl. destruct (decide (av_i v < len ∧ av_ret v = 0)) as [[Hlt _]|Hstop]; [lia|].
    destruct (decide (av_ret v ≠ 0)) as [Hr|Hr].
    + eexists _, _, _, []. rewrite app_nil_r. repeat split; try done. by left.
    + apply dec_stable in Hr. eexists _, _, _, []. rewrite app_nil_r.
      repeat split; try done. right. split; [done|lia].
  - simpl. destruct (decide (av_i v < len ∧ av_ret v = 0)) as [[Hlt Hret]|Hstop].
    + pose proof (access_body_frame vma start len write v st)
        as (He & Hz & tr & Htr & Hal & Hres).
      destruct (access_body P vma start len write v st) as [[r|v'] st1];
        cbn [fst snd] in *.
      * destruct Hres as (-> & _ & ->). eexists _, _, _, _.
        repeat split; try done. left. split; [done|]. intros _. right. by exists [].
      * destruct Hres as (_ & Hi & Hcnt & Hbad).
        pose proof (land_7_range (wrap64 (start + av_i v))) as Hoff.
        unfold ULONG_SIZE in Hcnt, Hoff.
        destruct (IH (AccessVars (av_i v' + av_cnt v') (av_cnt v') (av_index v')
                                 (av_ret v') (av_data v') (av_buf v')) st1)
          as (r & buf' & st' & tr' & Hrun & He' & Hz' & Htr' & Hal' & Hr).
        { cbn [av_i]. lia. }
        exists r, buf', st', (tr ++ tr'). split; [done|].
        split; [congruence|]. split; [congruence|].
        split; [by rewrite Htr', Htr, app_assoc|].
        split; [by rewrite alloc_calls_app, Hal, Hal'|].
        cbn [av_i av_ret] in Hr. destruct Hr as [[-> Hfail]|[Hok ->]].
        -- left. split; [done|]. intros _.
           destruct (decide (av_ret v' = 0)) as [H0|H0].
           ++ by apply access_failed_app_r, Hfail.
           ++ destruct (Hbad Hret H0) as (e & He1 & He2).
              left. exists e. split; [apply elem_of_app; by left|done].
        -- right. split; [done|lia].
    + destruct (decide (av_ret v ≠ 0)) as [Hr|Hr].
      * eexists _, _, _, []. rewrite app_nil_r. repeat split; try done. by left.
      * apply dec_stable in Hr. eexists _, _, _, []. rewrite app_nil_r.
        repeat split; try done. right. split; [done|lia].
Qed.

End AccessFacts.

(** C7: an iteration of a debug access that finds no entry at its page
    index ends the call with -EIO, having only taken and dropped the
    region lock; in particular a call whose first index is absent does
    so.  No debug access, whatever its outcome, changes the table or
    calls the page allocator. *)
Theorem access_absent_index_eio {HW} (P : platform HW)
    (vma : vm_area_struct) (start len : Z) (write : bool) :
  (∀ fuel (v : access_vars) (st : kstate HW),
     av_i v < len → av_ret v = 0 →
     page_array (epc st) !! access_index vma start v = None →
     access_loop P (S fuel) vma start len write v st
     = Some (- EIO, av_buf v,
             KState (epc st) (virt_epc_zombie_pages st)
                    (trace st ++ [EvDownWrite; EvUpWrite]) (hw st))) ∧
  (∀ buf (st : kstate HW),
     0 < len →
     page_array (epc st) !! sgx_virt_epc_calc_index vma (wrap64 start) = None →
     sgx_virt_epc_access P vma start buf len write st
     = Some (- EIO, buf,
             KState (epc st) (virt_epc_zombie_pages st)
                    (trace st ++ [EvDownWrite; EvUpWrite]) (hw st))) ∧
  (∀ buf (st : kstate HW),
     ∃ r buf' st',
       sgx_virt_epc_access P vma start buf len write st = Some (r, buf', st') ∧
       page_array (epc st') = page_array (epc st) ∧
       alloc_calls (trace st') = alloc_calls (trace st)).
Proof.
  assert (Hloop : ∀ fuel (v : access_vars) (st : kstate HW),
     av_i v < len → av_ret v = 0 →
     page_array (epc st) !! access_index vma start v = None →
     access_loop P (S fuel) vma start len write v st
     = Some (- EIO, av_buf v,
             KState (epc st) (virt_epc_zombie_pages st)
                    (trace st ++ [EvDownWrite; EvUpWrite]) (hw st))).
  { intros fuel v st Hlt Hret Hidx. simpl.
    destruct (decide (av_i v < len ∧ av_ret v = 0)) as [_|Hstop]; [|tauto].
    by rewrite access_body_absent. }
  split; [exact Hloop|]. split.
  - intros buf st Hlen Hidx. unfold sgx_virt_epc_access.
    destruct (Z.to_nat len) as [|fuel] eqn:Hf; [lia|].
    apply Hloop; [done|done|].
    unfold access_index. cbn [access_init av_i]. rewrite Z.add_0_r.
    by destruct (decide (0 = 0 ∨ _)) as [_|[]]; [|left].
  - intros buf st. unfold sgx_virt_epc_access.
    destruct (access_loop_total P vma start len write (Z.to_nat len) (access_init buf) st)
      as (r & buf' & st' & tr & Hrun & He & _ & Htr & Hal & _).
    { cbn [access_init av_i]. lia. }
    exists r, buf', st'. split; [done|]. split; [by rewrite He|].
    by rewrite Htr, alloc_calls_app, Hal, app_nil_r.
Qed.

(** C6 (as the code has it): a write chunk shorter than a word reads
    the word with EDBGRD, copies the [cnt] bytes of the buffer over
    bytes [offset .. offset+cnt) of it and hands the result to EDBGWR,
    inside one critical section; every byte of the word written outside
    that range is the byte that was read, every byte inside is the
    buffer's.  When the read fails nothing is written.  Bytes are
    numbered from the least significant one, as the machine is
    little-endian. *)
Theorem access_partial_write_rmw {HW} (P : platform HW)
    (vma : vm_area_struct) (start len : Z) (v : access_vars) (st : kstate HW)
    (pg : sgx_epc_page) (r w : Z) (h1 : HW) :
  let addr := wrap64 (start + av_i v) in
  let offset := Z.land addr (ULONG_SIZE - 1) in
  let cnt := Z.min (ULONG_SIZE - offset) (len - av_i v) in
  let p := wrap64 (sgx_get_epc_virt_addr P pg
                   + Z.land (ALIGN_DOWN addr ULONG_SIZE) (Z.lnot PAGE_MASK)) in
  let w' := bytes_to_word (memcpy (word_to_bytes w) offset (av_buf v) (av_i v) cnt) in
  page_array (epc st) !! access_index vma start v = Some pg →
  0 ≤ av_i v → 0 < cnt < ULONG_SIZE →
  av_i v + cnt ≤ Z.of_nat (length (av_buf v)) →
  __edbgrd P p (hw st) = (r, w, h1) →
  (r ≠ 0 →
     access_body P vma start len true v st
     = (inr (AccessVars (av_i v) cnt (access_index vma start v) r (av_data v) (av_buf v)),
        KState (epc st) (virt_epc_zombie_pages st)
               (trace st ++ [EvDownWrite; EvEdbgrd p r w; EvUpWrite]) h1)) ∧
  (r = 0 →
     (access_body P vma start len true v st).2
     = KState (epc st) (virt_epc_zombie_pages st)
              (trace st ++ [EvDownWrite; EvEdbgrd p 0 w;
                            EvEdbgwr p w' (__edbgwr P p w' h1).1; EvUpWrite])
              (__edbgwr P p w' h1).2 ∧
     (∃ v', (access_body P vma start len true v st).1 = inr v' ∧
            av_ret v' = (__edbgwr P p w' h1).1 ∧ av_cnt v' = cnt ∧
            av_buf v' = av_buf v) ∧
     ∀ j, 0 ≤ j < ULONG_SIZE →
       if decide (offset ≤ j < offset + cnt)
       then ∃ b, av_buf v !! Z.to_nat (av_i v + (j - offset)) = Some b ∧
                 word_byte w' j = byte_val b
       else word_byte w' j = word_byte w j).
Proof.
  intros addr offset cnt p w' Hidx Hi Hcnt Hbuf Hrd.
  pose proof (land_7_range addr) as Hoff. fold offset in Hoff.
  unfold ULONG_SIZE in Hcnt, Hoff.
  assert (Hfit : offset + cnt ≤ 8) by (subst cnt; unfold ULONG_SIZE; lia).
  assert (Hpartial : true = false ∨ cnt ≠ ULONG_SIZE) by (right; unfold ULONG_SIZE; lia).
  split.
  { intros Hr. unfold access_body. unfold_m. cbn [epc]. rewrite Hidx. kcbn.
    fold addr. fold offset. fold cnt. fold p.
    destruct (decide (true = false ∨ cnt ≠ ULONG_SIZE)) as [_|Hno]; [|done].
    kcbn. rewrite Hrd. kcbn. destruct (decide (r = 0)); [done|]. kcbn.
    by rewrite <- !app_assoc. }
  intros ->.
  assert (Hbody : access_body P vma start len true v st
    = (inr (AccessVars (av_i v) cnt (access_index vma start v) (__edbgwr P p w' h1).1
                       (memcpy (word_to_bytes w) offset (av_buf v) (av_i v) cnt) (av_buf v)),
       KState (epc st) (virt_epc_zombie_pages st)
              (trace st ++ [EvDownWrite; EvEdbgrd p 0 w;
                            EvEdbgwr p w' (__edbgwr P p w' h1).1; EvUpWrite])
              (__edbgwr P p w' h1).2)).
  { unfold access_body. unfold_m. cbn [epc]. rewrite Hidx. kcbn.
    fold addr. fold offset. fold cnt. fold p.
    destruct (decide (true = false ∨ cnt ≠ ULONG_SIZE)) as [_|Hno]; [|done].
    kcbn. rewrite Hrd. kcbn. destruct (decide (0 = 0)); [|done]. kcbn.
    fold w'. destruct (__edbgwr P p w' h1) as [r2 h2]. kcbn.
    by rewrite <- !app_assoc. }
  rewrite Hbody. cbn [fst snd]. split; [done|]. split; [by eexists|].
  intros j Hj. unfold ULONG_SIZE in Hj.
  assert (Hlk := lookup_memcpy (word_to_bytes w) (av_buf v) offset (av_i v) cnt (Z.to_nat j)).
  rewrite length_word_to_bytes, Z2Nat.id in Hlk by lia.
  specialize (Hlk ltac:(lia) ltac:(lia) ltac:(lia) ltac:(lia) ltac:(lia)).
  destruct (decide (offset ≤ j < offset + cnt)) as [Hin|Hout].
  - destruct (av_buf v !! Z.to_nat (av_i v + (j - offset))) as [b|] eqn:Hb.
    + exists b. split; [done|]. rewrite <- (Z2Nat.id j) by lia.
      by apply word_byte_bytes_to_word.
    + apply lookup_ge_None in Hb. lia.
  - rewrite lookup_word_to_bytes, Z2Nat.id in Hlk by lia.
    rewrite <- (Z2Nat.id j) at 1 by lia. unfold w'.
    rewrite (word_byte_bytes_to_word _ _ _ Hlk), byte_val_of.
    by rewrite word_byte_mod.
Qed.

(** ** The theorems on the reference platform *)

(** The end-to-end scenario: releasing A frees pages 0 and 1 and leaves
    the SECS page 2 on the zombie list; releasing B afterwards frees
    its page 5 and then, in its third loop, page 2.  The zombie list
    ends empty. *)
Example release_cross_region :
  ∃ a b,
    sgx_virt_epc_release sim_platform sim_region_a = Some (0, a) ∧
    virt_epc_zombie_pages a = [sim_page 2] ∧
    raw_freed (trace a) = [sim_page 0; sim_page 1] ∧
    sgx_virt_epc_release sim_platform (sim_region_b a) = Some (0, b) ∧
    virt_epc_zombie_pages b = [] ∧
    raw_freed (trace b) = [sim_page 5; sim_page 2].
Proof.
  eexists _, _.
  split; [vm_compute; reflexivity|].
  split; [vm_compute; reflexivity|].
  split; [vm_compute; reflexivity|].
  split; [vm_compute; reflexivity|].
  split; vm_compute; reflexivity.
Qed.

(** In the first loop EREMOVE fails on the SECS page at index 0; the
    entry stays and the cursor moves on to an index above 0. *)
Lemma release_pass1_entry_witness :
  page_array (epc sim_secs_first) !! 0 = Some (sim_page 0) ∧
  (__eremove sim_platform (sgx_get_epc_virt_addr sim_platform (sim_page 0))
             (hw sim_secs_first)).1 = SGX_CHILD_PRESENT ∧
  page_array (epc (release_pass1_body sim_platform 0 (sim_page 0) tt sim_secs_first).2)
  = page_array (epc sim_secs_first) ∧
  ∀ k v, xa_for_each_next (release_pass1_body sim_platform) 0 (sim_page 0) tt sim_secs_first
         = Some (k, v) → 0 < k.
Proof.
  split; [reflexivity|]. split; [vm_compute; reflexivity|].
  destruct (release_pass1_entry sim_platform 0 (sim_page 0) sim_secs_first eq_refl)
    as (Hfail & _ & _ & Hnext & _).
  split.
  - apply Hfail. vm_compute. discriminate.
  - intros k v Hk. apply (Hnext k v Hk).
Defined.

(** C2 as the spec words it does not hold: it is not the case that the
    iteration stays on an entry whose removal failed.  With the SECS
    page at index 0 and its child at index 1, EREMOVE fails at index 0
    and the cursor is then at index 1. *)
Lemma release_pass1_advances_past_failure :
  ¬ (∀ (index : Z) (entry : sgx_epc_page) (st : kstate sim_hw),
       page_array (epc st) !! index = Some entry →
       (sgx_virt_epc_free_page sim_platform (Some entry) st).1 ≠ 0 →
       page_array (epc (release_pass1_body sim_platform index entry tt st).2) !! index
         = Some entry ∧
       xa_for_each_next (release_pass1_body sim_platform) index entry tt st
         = Some (index, entry)).
Proof.
  intros H. destruct (H 0 (sim_page 0) sim_secs_first) as [_ Hstay].
  - reflexivity.
  - vm_compute. discriminate.
  - vm_compute in Hstay. discriminate.
Qed.

(** C3 as the spec words it does not hold: in a 16-byte read the first
    chunk succeeds (8 bytes, which do reach the buffer), the second
    faults, and the call returns -EIO rather than 8. *)
Lemma access_error_after_progress :
  (∃ v' st1,
     access_body sim_platform sim_vma 65536 16 false (access_init (replicate 16 Byte.x00))
                 (sim_debug 578437695752307201 [sim_va 0 + 8]) = (inr v', st1) ∧
     av_ret v' = 0 ∧ av_cnt v' = 8) ∧
  ∃ buf' st',
    sgx_virt_epc_access sim_platform sim_vma 65536 (replicate 16 Byte.x00) 16 false
                        (sim_debug 578437695752307201 [sim_va 0 + 8])
    = Some (- EIO, buf', st') ∧
    map byte_val (take 8 buf') = [1; 2; 3; 4; 5; 6; 7; 8] ∧
    - EIO ≠ 8.
Proof.
  split.
  - eexists _, _. split; [vm_compute; reflexivity|]. split; reflexivity.
  - eexists _, _. split; [vm_compute; reflexivity|]. split; [reflexivity|discriminate].
Qed.

(** A second fault on a resolved index. *)
Lemma fault_resolved_index_noop_witness :
  page_array (epc (sim_debug 0 []))
    !! sgx_virt_epc_calc_index sim_vma (65536 + 100) = Some (sim_page 0) ∧
  __sgx_virt_epc_fault sim_platform sim_vma (65536 + 100) (sim_debug 0 [])
  = (0, sim_debug 0 []).
Proof.
  split; [vm_compute; reflexivity|].
  apply (fault_resolved_index_noop sim_platform (VmFault sim_vma (65536 + 100) 0)
           (sim_debug 0 []) (sim_page 0)).
  vm_compute. reflexivity.
Defined.

(** A fault whose table store fails with -ENOMEM, and one whose
    page-frame installation is refused. *)
Lemma fault_error_paths_witness :
  (__sgx_virt_epc_fault sim_platform sim_vma 65536
     (sim_fresh [sim_page 3] (- ENOMEM) VM_FAULT_NOPAGE false)).1 = - ENOMEM ∧
  (__sgx_virt_epc_fault sim_platform sim_vma 65536
     (sim_fresh [sim_page 3] 0 VM_FAULT_SIGBUS false)).1 = - EFAULT.
Proof.
  split.
  - pose proof (fault_error_paths sim_platform sim_vma 65536
                  (sim_fresh [sim_page 3] (- ENOMEM) VM_FAULT_NOPAGE false)
                  (sim_page 3) _ _ _ eq_refl eq_refl eq_refl) as [Hstore _].
    rewrite Hstore; [reflexivity|]. vm_compute. discriminate.
  - pose proof (fault_error_paths sim_platform sim_vma 65536
                  (sim_fresh [sim_page 3] 0 VM_FAULT_SIGBUS false)
                  (sim_page 3) _ _ _ eq_refl eq_refl eq_refl) as [_ Hinsert].
    rewrite (Hinsert eq_refl _ _ eq_refl); [reflexivity|]. vm_compute. discriminate.
Defined.

(** A one-byte write of 0xFF at offset 3 of a zero word: byte 3 of the
    word written is 0xFF, byte 2 is the byte that was read. *)
Lemma access_partial_write_rmw_witness :
  page_array (epc (sim_debug 0 []))
    !! access_index sim_vma (65536 + 3) (access_init [Byte.xff]) = Some (sim_page 0) ∧
  word_byte (bytes_to_word (memcpy (word_to_bytes 0) 3 [Byte.xff] 0 1)) 3 = 255 ∧
  word_byte (bytes_to_word (memcpy (word_to_bytes 0) 3 [Byte.xff] 0 1)) 2 = word_byte 0 2.
Proof.
  split; [vm_compute; reflexivity|].
  destruct (access_partial_write_rmw sim_platform sim_vma (65536 + 3) 1
              (access_init [Byte.xff]) (sim_debug 0 []) (sim_page 0) 0 0
              (hw (sim_debug 0 []))) as (_ & Hok).
  - vm_compute. reflexivity.
  - vm_compute. discriminate.
  - vm_compute. split; reflexivity.
  - vm_compute. discriminate.
  - vm_compute. reflexivity.
  - destruct (Hok eq_refl) as (_ & _ & Hbytes). split.
    + specialize (Hbytes 3).
      destruct (decide _) as [Hin|Hout] in Hbytes.
      * destruct Hbytes as (b & Hb & Hw); [vm_compute; split; [discriminate|reflexivity]|].
        vm_compute in Hb. injection Hb as <-. exact Hw.
      * exfalso. apply Hout. vm_compute. split; [discriminate|reflexivity].
    + specialize (Hbytes 2).
      destruct (decide _) as [Hin|Hout] in Hbytes.
      * exfalso. vm_compute in Hin. destruct Hin as [Hin _]. apply Hin. reflexivity.
      * apply Hbytes. vm_compute. split; [discriminate|reflexivity].
Defined.

(** C6 as the spec words it does not hold in its example: a one-byte
    write of 0xFF at offset 3 into a zero word stores 0x00000000FF000000
    (byte 3 is bits 24 to 31), not 0x0000000000FF0000. *)
Lemma access_byte3_write_value :
  ∃ buf' st',
    sgx_virt_epc_access sim_platform sim_vma (65536 + 3) [Byte.xff] 1 true (sim_debug 0 [])
    = Some (1, buf', st') ∧
    sim_mem (hw st') !! sim_va 0 = Some 0xFF000000 ∧
    sim_mem (hw st') !! sim_va 0 ≠ Some 0x0000000000FF0000.
Proof.
  eexists _, _. split; [vm_compute; reflexivity|]. split; [reflexivity|discriminate].
Qed.

(** A debug read of a region in which nothing was ever resolved. *)
Lemma access_absent_index_eio_witness :
  (0 < 4 ∧ page_array (epc (sim_fresh [sim_page 3] 0 VM_FAULT_NOPAGE false))
             !! sgx_virt_epc_calc_index sim_vma (wrap64 65536) = None) ∧
  ∃ st', sgx_virt_epc_access sim_platform sim_vma 65536 (replicate 4 Byte.x00) 4 false
           (sim_fresh [sim_page 3] 0 VM_FAULT_NOPAGE false)
         = Some (- EIO, replicate 4 Byte.x00, st') ∧
         page_array (epc st') = ∅ ∧ alloc_calls (trace st') = [].
Proof.
  split; [split; [lia|vm_compute; reflexivity]|].
  destruct (access_absent_index_eio sim_platform sim_vma 65536 4 false) as (_ & Hcall & _).
  eexists. split; [apply Hcall; [lia|vm_compute; reflexivity]|].
  split; reflexivity.
Defined.

(** A fault that cannot get a page (-ENOMEM) while a signal is pending. *)
Lemma fault_signal_pending_resolved_witness :
  (__sgx_virt_epc_fault sim_platform sim_vma 65536
     (emit EvDownWrite (sim_fresh [] 0 VM_FAULT_NOPAGE true)).2).1 = - ENOMEM ∧
  (sgx_virt_epc_fault sim_platform (VmFault sim_vma 65536 0)
     (sim_fresh [] 0 VM_FAULT_NOPAGE true)).1 = VM_FAULT_NOPAGE.
Proof.
  split; [vm_compute; reflexivity|].
  destruct (fault_signal_pending_resolved sim_platform (VmFault sim_vma 65536 0)
              (sim_fresh [] 0 VM_FAULT_NOPAGE true)) as [Hsig _].
  rewrite Hsig; [reflexivity|]. vm_compute. reflexivity.
Defined.

(** EREMOVE of a SECS page that still has a child. *)
Lemma free_page_only_when_eremove_succeeds_witness :
  (sgx_virt_epc_free_page sim_platform (Some (sim_page 0)) sim_secs_first).1
  = SGX_CHILD_PRESENT ∧
  raw_freed (trace (sgx_virt_epc_free_page sim_platform (Some (sim_page 0))
                                           sim_secs_first).2) = [].
Proof.
  destruct (free_page_only_when_eremove_succeeds sim_platform (sim_page 0) sim_secs_first)
    as (Hret & _ & Hfail & _).
  split.
  - rewrite Hret. vm_compute. reflexivity.
  - destruct Hfail as [Hkeep _]; [vm_compute; discriminate|]. rewrite Hkeep. reflexivity.
Defined.

(** * Further properties of the driver *)

(** ** More on the fault path *)

Lemma mm_events_app tr1 tr2 : mm_events (tr1 ++ tr2) = mm_events tr1 ++ mm_events tr2.
Proof. apply omap_app. Qed.

Lemma freed_app tr1 tr2 : freed (tr1 ++ tr2) = freed tr1 ++ freed tr2.
Proof. apply omap_app. Qed.

Lemma allocated_app tr1 tr2 : allocated (tr1 ++ tr2) = allocated tr1 ++ allocated tr2.
Proof. apply omap_app. Qed.

Lemma mmap_unlocks_app tr1 tr2 :
  mmap_unlocks (tr1 ++ tr2) = (mmap_unlocks tr1 + mmap_unlocks tr2)%nat.
Proof. unfold mmap_unlocks. by rewrite filter_app, length_app. Qed.

Lemma rwsem_ok_app held tr1 tr2 :
  rwsem_ok held tr1 = true → rwsem_ok held (tr1 ++ tr2) = rwsem_ok false tr2.
Proof.
  revert held. induction tr1 as [|e tr1 IH]; intros held H1.
  - by destruct held.
  - destruct e, held; simpl in *; try done; by apply IH.
Qed.

Lemma calc_index_range vma addr : 0 ≤ sgx_virt_epc_calc_index vma addr < 2 ^ 64.
Proof. unfold sgx_virt_epc_calc_index, wrap64. apply Z.mod_pos_bound. lia. Qed.

Section FaultRuns.
Context {HW : Type} (P : platform HW).

(** Everything one inner fault resolution does, by outcome: the entry
    was there; the allocator failed; the store failed; the installation
    failed; or the page was installed. *)
Lemma fault_inner_run vma addr (st : kstate HW) :
  let idx := sgx_virt_epc_calc_index vma addr in
  let r := __sgx_virt_epc_fault P vma addr st in
  virt_epc_zombie_pages r.2 = virt_epc_zombie_pages st ∧
  epc_id (epc r.2) = epc_id (epc st) ∧ mm (epc r.2) = mm (epc st) ∧
  ∃ tr, trace r.2 = trace st ++ tr ∧ rwsem_ok true (tr ++ [EvUpWrite]) = true ∧
        mmap_unlocks tr = 0%nat ∧
        ((page_array (epc r.2) = page_array (epc st) ∧ allocated tr = freed tr ∧
          (is_Some (page_array (epc st) !! idx) ∧ r.1 = 0 ∧ tr = []
           ∨ page_array (epc st) !! idx = None ∧
             ((∃ e, (sgx_alloc_epc_page P (hw st)).1 = inl e ∧ r.1 = e) ∨
              (∃ pg, (sgx_alloc_epc_page P (hw st)).1 = inr pg ∧ r.1 ≠ 0))))
         ∨ (r.1 = 0 ∧ page_array (epc st) !! idx = None ∧
            ∃ pg, (sgx_alloc_epc_page P (hw st)).1 = inr pg ∧
                  page_array (epc r.2) = <[idx := pg]> (page_array (epc st)) ∧
                  allocated tr = [pg] ∧ freed tr = [])).
Proof.
  intros idx r. subst r. unfold __sgx_virt_epc_fault. fold idx. unfold_m. unfold_m.
  destruct (page_array (epc st) !! idx) as [pg|] eqn:Hidx; kcbn.
  { repeat split; try done. exists []. rewrite app_nil_r. repeat split; try done.
    left. repeat split; try done. left. eauto. }
  destruct (sgx_alloc_epc_page P (hw st)) as [[err|pg] h1] eqn:Ha; kcbn.
  { repeat split; try done. eexists. split; [done|]. repeat split; try done.
    left. repeat split; try done. right. split; [done|]. left. eauto. }
  destruct (xa_store_err P idx pg h1) as [e h2] eqn:Hs; kcbn.
  destruct (decide (e = 0)) as [->|He]; kcbn.
  - destruct (decide (0 ≠ 0)); [done|]. kcbn.
    destruct (vmf_insert_pfn P vma addr _ h2) as [ri h3] eqn:Hi; kcbn.
    destruct (decide (ri ≠ VM_FAULT_NOPAGE)) as [Hri|Hri]; kcbn.
    + repeat split; try done. eexists. split; [by rewrite <- !app_assoc|].
      repeat split; try done. left. split.
      { rewrite delete_insert_eq. by apply delete_id. }
      split; [done|]. right. split; [done|]. right. eauto.
    + repeat split; try done. eexists. split; [by rewrite <- !app_assoc|].
      repeat split; try done. right. repeat split; try done. eauto.
  - destruct (decide (e ≠ 0)); [|done]. kcbn.
    repeat split; try done. eexists. split; [by rewrite <- !app_assoc|].
    repeat split; try done. left. repeat split; try done.
    right. split; [done|]. right. eauto.
Qed.

Lemma xa_pages_insert (m : gmap Z sgx_epc_page) i x :
  m !! i = None → xa_pages (<[i := x]> m) ≡ₚ x :: xa_pages m.
Proof.
  intros Hi. unfold xa_pages. by rewrite (map_to_list_insert m i x Hi).
Qed.

(** The callback around it. *)
Lemma fault_callback_run (vmf : vm_fault) (st : kstate HW) :
  let idx := sgx_virt_epc_calc_index (vmf_vma vmf) (vmf_address vmf) in
  let res := sgx_virt_epc_fault P vmf st in
  virt_epc_zombie_pages res.2 = virt_epc_zombie_pages st ∧
  epc_id (epc res.2) = epc_id (epc st) ∧ mm (epc res.2) = mm (epc st) ∧
  ∃ tr, trace res.2 = trace st ++ tr ∧ rwsem_ok false tr = true ∧
        mmap_unlocks tr = (if decide (res.1 = VM_FAULT_RETRY) then 1 else 0)%nat ∧
        ((page_array (epc res.2) = page_array (epc st) ∧ allocated tr = freed tr)
         ∨ (res.1 = VM_FAULT_NOPAGE ∧ page_array (epc st) !! idx = None ∧
            ∃ pg, page_array (epc res.2) = <[idx := pg]> (page_array (epc st)) ∧
                  allocated tr = [pg] ∧ freed tr = [])).
Proof.
  intros idx res. subst res. rewrite fault_outer_unfold.
  pose proof (fault_inner_run (vmf_vma vmf) (vmf_address vmf) (emit EvDownWrite st).2)
    as (Hz & Hid & Hmm & tr & Htr & Hlock & Hun & Hcases).
  fold idx in Hcases.
  destruct (__sgx_virt_epc_fault P _ _ _) as [ret st1]. cbn [fst snd] in *.
  cbn [emit snd trace epc virt_epc_zombie_pages hw] in *.
  assert (Hal : ∀ e, allocated (EvDownWrite :: tr ++ [EvUpWrite] ++ e) = allocated tr ++ allocated e).
  { intros e. change (EvDownWrite :: tr ++ [EvUpWrite] ++ e)
      with ([EvDownWrite] ++ tr ++ [EvUpWrite] ++ e). by rewrite !allocated_app. }
  assert (Hfr : ∀ e, freed (EvDownWrite :: tr ++ [EvUpWrite] ++ e) = freed tr ++ freed e).
  { intros e. change (EvDownWrite :: tr ++ [EvUpWrite] ++ e)
      with ([EvDownWrite] ++ tr ++ [EvUpWrite] ++ e). by rewrite !freed_app. }
  assert (Hmu : ∀ e, mmap_unlocks (EvDownWrite :: tr ++ [EvUpWrite] ++ e) = mmap_unlocks e).
  { intros e. change (EvDownWrite :: tr ++ [EvUpWrite] ++ e)
      with ([EvDownWrite] ++ tr ++ [EvUpWrite] ++ e).
    rewrite !mmap_unlocks_app, Hun. done. }
  assert (Hrw : ∀ e, rwsem_ok false (EvDownWrite :: tr ++ [EvUpWrite] ++ e) = rwsem_ok false e).
  { intros e. cbn [rwsem_ok negb andb]. rewrite app_assoc. by apply rwsem_ok_app. }
  assert (Hstep : ∀ code e,
    (code = VM_FAULT_NOPAGE ∨ ret ≠ 0) →
    rwsem_ok false e = true → allocated e = [] → freed e = [] →
    mmap_unlocks e = (if decide (code = VM_FAULT_RETRY) then 1 else 0)%nat →
    ∃ tr0, (trace st ++ [EvDownWrite]) ++ tr ++ [EvUpWrite] ++ e = trace st ++ tr0 ∧
      rwsem_ok false tr0 = true ∧
      mmap_unlocks tr0 = (if decide (code = VM_FAULT_RETRY) then 1 else 0)%nat ∧
      ((page_array (epc st1) = page_array (epc st) ∧ allocated tr0 = freed tr0)
       ∨ (code = VM_FAULT_NOPAGE ∧ page_array (epc st) !! idx = None ∧
          ∃ pg, page_array (epc st1) = <[idx := pg]> (page_array (epc st)) ∧
                allocated tr0 = [pg] ∧ freed tr0 = []))).
  { intros code e Hcode He1 He2 He3 He4.
    exists (EvDownWrite :: tr ++ [EvUpWrite] ++ e).
    split; [by rewrite <- !app_assoc|]. rewrite Hrw, Hmu, Hal, Hfr, He2, He3, !app_nil_r.
    split; [done|]. split; [done|].
    destruct Hcases as [(Ht & Haf & _)|(H0 & Hn & pg & _ & Ht & Ha & Hf)].
    - left. done.
    - right. destruct Hcode as [->|?]; [|done]. split; [done|]. split; [done|]. by exists pg. }
  destruct (decide (ret = 0)) as [H0|H0];
    [|destruct (signal_pending P (hw st1));
      [|destruct (decide (ret = - EBUSY ∧ _)) as [Hb|Hb]]];
    cbn [fst snd trace epc virt_epc_zombie_pages emit]; rewrite Htr;
    (split; [done|]); (split; [done|]); (split; [done|]).
  - destruct (Hstep VM_FAULT_NOPAGE [] ltac:(by left) eq_refl eq_refl eq_refl eq_refl)
      as (tr0 & E & ?).
    exists tr0. rewrite <- E. by rewrite !app_nil_r, <- !app_assoc.
  - destruct (Hstep VM_FAULT_NOPAGE [] ltac:(by left) eq_refl eq_refl eq_refl eq_refl)
      as (tr0 & E & ?).
    exists tr0. rewrite <- E. by rewrite !app_nil_r, <- !app_assoc.
  - destruct (Hstep VM_FAULT_RETRY [EvMmapReadUnlock] ltac:(by right)
                eq_refl eq_refl eq_refl eq_refl) as (tr0 & E & ?).
    exists tr0. rewrite <- E. by rewrite <- !app_assoc.
  - destruct (Hstep VM_FAULT_SIGBUS [] ltac:(by right) eq_refl eq_refl eq_refl eq_refl)
      as (tr0 & E & ?).
    exists tr0. rewrite <- E. by rewrite !app_nil_r, <- !app_assoc.
Qed.

(** A run of fault callbacks. *)
Lemma fault_seq_run (faults : list vm_fault) (st : kstate HW) :
  let st' := fault_seq P faults st in
  virt_epc_zombie_pages st' = virt_epc_zombie_pages st ∧
  epc_id (epc st') = epc_id (epc st) ∧ mm (epc st') = mm (epc st) ∧
  (xa_index_ok (page_array (epc st)) → xa_index_ok (page_array (epc st'))) ∧
  ∃ tr, trace st' = trace st ++ tr ∧ rwsem_ok false tr = true ∧
        xa_pages (page_array (epc st')) ++ freed tr
        ≡ₚ xa_pages (page_array (epc st)) ++ allocated tr.
Proof.
  revert st. induction faults as [|vmf faults IH]; intros st; simpl.
  { do 4 (split; [done|]). exists []. by rewrite !app_nil_r. }
  destruct (IH (sgx_virt_epc_fault P vmf st).2) as (Hz & Hid & Hmm & Hok & tr2 & Htr2 & Hl2 & Hp2).
  destruct (fault_callback_run vmf st) as (Hz1 & Hid1 & Hmm1 & tr1 & Htr1 & Hl1 & _ & Hcases).
  split; [congruence|]. split; [congruence|]. split; [congruence|]. split.
  - intros Hwf. apply Hok.
    destruct Hcases as [[-> _]|(_ & _ & pg & -> & _)]; [done|].
    unfold xa_index_ok in *. apply map_Forall_insert_2; [|done].
    cbv beta. apply calc_index_range.
  - exists (tr1 ++ tr2). rewrite Htr2, Htr1, app_assoc. split; [done|].
    split; [by rewrite rwsem_ok_app|].
    rewrite freed_app, allocated_app.
    destruct Hcases as [[Ht Haf]|(_ & Hn & pg & Ht & Ha & Hf)].
    + rewrite Ht in Hp2. rewrite Haf.
      rewrite (Permutation_app_comm (freed tr1)), !app_assoc, Hp2.
      rewrite <- !app_assoc. apply Permutation_app_head, Permutation_app_comm.
    + rewrite Ht, xa_pages_insert in Hp2 by done. rewrite Ha, Hf. cbn [app].
      rewrite Hp2. cbn [app]. apply Permutation_middle.
Qed.

End FaultRuns.

(** X1: the page index of an address is the file offset of the mapping,
    in pages, plus the number of whole pages between the start of the
    mapping and the address (modulo 2^64): it is the same for every byte
    of a page and one more for the next page. *)
Theorem calc_index_counts_pages (vma : vm_area_struct) (n off : Z) :
  0 ≤ vm_start vma → 0 ≤ n → 0 ≤ off < PAGE_SIZE →
  vm_start vma + PAGE_SIZE * n + off < 2 ^ 64 →
  sgx_virt_epc_calc_index vma (vm_start vma + PAGE_SIZE * n + off)
  = wrap64 (vm_pgoff vma + n).
Proof.
  intros Hs Hn Hoff Hmax. unfold sgx_virt_epc_calc_index, PFN_DOWN.
  change PAGE_SIZE with 4096 in *. change PAGE_SHIFT with 12.
  replace (vm_start vma + 4096 * n + off - vm_start vma) with (off + n * 4096) by lia.
  unfold wrap64 at 2. rewrite Z.mod_small by lia.
  rewrite Z.shiftr_div_pow2 by lia. change (2 ^ 12) with 4096.
  rewrite Z.div_add by lia. rewrite Z.div_small by lia. done.
Qed.

Lemma calc_index_counts_pages_witness :
  sgx_virt_epc_calc_index sim_vma (vm_start sim_vma + PAGE_SIZE * 3 + 100)
  = wrap64 (vm_pgoff sim_vma + 3).
Proof.
  apply calc_index_counts_pages; change PAGE_SIZE with 4096; cbn [sim_vma vm_start]; lia.
Defined.

(** X3: provided the allocator reports failure with a nonzero code (as
    ERR_PTR values are), the inner fault resolution returns 0 exactly
    when the table has an entry at the page index afterwards, and when
    it returns an error the table is what it was. *)
Theorem fault_zero_iff_resolved {HW} (P : platform HW)
    (vma : vm_area_struct) (addr : Z) (st : kstate HW) :
  (∀ h e h', sgx_alloc_epc_page P h = (inl e, h') → e ≠ 0) →
  let r := __sgx_virt_epc_fault P vma addr st in
  (r.1 = 0 ↔ is_Some (page_array (epc r.2) !! sgx_virt_epc_calc_index vma addr)) ∧
  (r.1 ≠ 0 → page_array (epc r.2) = page_array (epc st)).
Proof.
  intros Herr r.
  destruct (fault_inner_run P vma addr st) as (_ & _ & _ & tr & _ & _ & _ & Hcases).
  fold r in Hcases.
  destruct Hcases as [(Ht & _ & Hc)|(H0 & Hn & pg & _ & Ht & _)].
  - rewrite Ht. split; [|done].
    destruct Hc as [(Hs & H0 & _)|(Hn & Hc)]; [done|].
    rewrite Hn. split; [|by intros [? ?]]. intros H0. exfalso.
    destruct Hc as [(e & Ha & He)|(pg & _ & Hne)]; [|done].
    destruct (sgx_alloc_epc_page P (hw st)) as [a h'] eqn:Hal. cbn [fst] in Ha. subst a.
    apply (Herr _ _ _ Hal). congruence.
  - rewrite Ht, lookup_insert_eq. split; [|done]. split; eauto.
Qed.

Lemma fault_zero_iff_resolved_witness :
  (∀ h e h', sgx_alloc_epc_page sim_platform h = (inl e, h') → e ≠ 0) ∧
  (__sgx_virt_epc_fault sim_platform sim_vma 65536
     (sim_fresh [] 0 VM_FAULT_NOPAGE false)).1 ≠ 0 ∧
  page_array (epc (__sgx_virt_epc_fault sim_platform sim_vma 65536
                     (sim_fresh [] 0 VM_FAULT_NOPAGE false)).2) = ∅.
Proof.
  assert (Herr : ∀ h e h', sgx_alloc_epc_page sim_platform h = (inl e, h') → e ≠ 0).
  { intros h e h'. cbn. unfold sim_alloc. destruct (sim_pool h); intros [= <- _]. discriminate. }
  split; [exact Herr|].
  destruct (fault_zero_iff_resolved sim_platform sim_vma 65536
              (sim_fresh [] 0 VM_FAULT_NOPAGE false) Herr) as [_ Hkeep].
  assert (Hne : (__sgx_virt_epc_fault sim_platform sim_vma 65536
                   (sim_fresh [] 0 VM_FAULT_NOPAGE false)).1 ≠ 0)
    by (vm_compute; discriminate).
  split; [exact Hne|]. rewrite (Hkeep Hne). reflexivity.
Defined.

(** What the inner resolution logs. *)
Lemma fault_inner_table_events {HW} (P : platform HW) (vma : vm_area_struct) (addr : Z)
    (st : kstate HW) :
  ∃ tr, trace (__sgx_virt_epc_fault P vma addr st).2 = trace st ++ tr ∧
        Forall (λ e, is_table_event e = true) tr.
Proof.
  unfold __sgx_virt_epc_fault. unfold_m. unfold_m.
  destruct (page_array (epc st) !! _) as [pg|] eqn:Hidx; kcbn.
  { exists []. by rewrite app_nil_r. }
  destruct (sgx_alloc_epc_page P (hw st)) as [[err|pg] h1] eqn:Ha; kcbn.
  { eexists. split; [done|]. by repeat constructor. }
  destruct (xa_store_err P _ pg h1) as [e h2] eqn:Hs; kcbn.
  destruct (decide (e = 0)) as [->|He]; kcbn.
  - destruct (decide (0 ≠ 0)); [done|]. kcbn.
    destruct (vmf_insert_pfn P vma addr _ h2) as [ri h3] eqn:Hi; kcbn.
    destruct (decide (ri ≠ VM_FAULT_NOPAGE)) as [Hri|Hri]; kcbn.
    + eexists. split; [by rewrite <- !app_assoc|]. by repeat constructor.
    + eexists. split; [by rewrite <- !app_assoc|]. by repeat constructor.
  - destruct (decide (e ≠ 0)); [|done]. kcbn.
    eexists. split; [by rewrite <- !app_assoc|]. by repeat constructor.
Qed.

(** X4: the fault callback answers VM_FAULT_NOPAGE, VM_FAULT_RETRY or
    VM_FAULT_SIGBUS.  It answers VM_FAULT_RETRY exactly when the inner
    resolution returned -EBUSY, no signal is pending and the fault
    allows a retry, and it calls mmap_read_unlock exactly then, once,
    after the region lock has been dropped.  The region lock is taken
    once and dropped once, around the resolution: the callback logs
    down_write, then what the resolution logs (calls of the page
    allocator and of vmf_insert_pfn only), then up_write, then the
    mmap_read_unlock of a retry, and nothing else. *)
Theorem fault_callback_retry_contract {HW} (P : platform HW)
    (vmf : vm_fault) (st : kstate HW) :
  let inner := __sgx_virt_epc_fault P (vmf_vma vmf) (vmf_address vmf)
                                    (emit EvDownWrite st).2 in
  let res := sgx_virt_epc_fault P vmf st in
  (res.1 = VM_FAULT_NOPAGE ∨ res.1 = VM_FAULT_RETRY ∨ res.1 = VM_FAULT_SIGBUS) ∧
  (res.1 = VM_FAULT_RETRY ↔
     inner.1 = - EBUSY ∧ signal_pending P (hw inner.2) = false ∧
     Z.land (vmf_flags vmf) FAULT_FLAG_ALLOW_RETRY ≠ 0) ∧
  (∃ tr, trace res.2 = trace st ++ tr ∧ rwsem_ok false tr = true ∧
         mmap_unlocks tr = (if decide (res.1 = VM_FAULT_RETRY) then 1 else 0)%nat) ∧
  (res.1 = VM_FAULT_RETRY →
     ∃ tr0, trace res.2 = trace st ++ tr0 ++ [EvUpWrite; EvMmapReadUnlock]) ∧
  (∃ tri, trace inner.2 = trace st ++ EvDownWrite :: tri ∧
          Forall (λ e, is_table_event e = true) tri ∧
          trace res.2 = trace st ++ EvDownWrite :: tri ++ EvUpWrite
                          :: (if decide (res.1 = VM_FAULT_RETRY)
                              then [EvMmapReadUnlock] else [])).
Proof.
  intros inner res.
  destruct (fault_callback_run P vmf st) as (_ & _ & _ & tr & Htr & Hl & Hun & _).
  fold res in Htr, Hun.
  assert (Hres : res = sgx_virt_epc_fault P vmf st) by done.
  rewrite fault_outer_unfold in Hres. fold inner in Hres.
  pose proof (fault_inner_table_events P (vmf_vma vmf) (vmf_address vmf)
                (emit EvDownWrite st).2) as (tri & Htri & Hev).
  fold inner in Htri. cbn [emit snd trace] in Htri.
  split; [|split; [|split; [|split]]].
  - rewrite Hres. repeat case_decide; repeat case_match; cbn [fst]; tauto.
  - rewrite Hres. destruct (decide (inner.1 = 0)) as [H0|H0]; cbn [fst].
    { split; [discriminate|]. intros [He _]. rewrite H0 in He. discriminate. }
    destruct (signal_pending P (hw inner.2)); cbn [fst].
    { split; [discriminate|]. intros (_ & ? & _). done. }
    destruct (decide (inner.1 = - EBUSY ∧ _)) as [[Hb Hf]|Hb]; cbn [fst].
    + split; done.
    + split; [discriminate|]. intros (? & _ & ?). tauto.
  - by exists tr.
  - intros Hretry. rewrite Hres in Hretry |- *.
    destruct (decide (inner.1 = 0)); [discriminate|].
    destruct (signal_pending P (hw inner.2)); [discriminate|].
    destruct (decide (inner.1 = - EBUSY ∧ _)); [|discriminate].
    cbn [snd emit trace]. rewrite Htri. exists (EvDownWrite :: tri).
    by rewrite <- !app_assoc.
  - exists tri. split; [by rewrite Htri, <- app_assoc|]. split; [done|].
    rewrite Hres.
    destruct (decide (inner.1 = 0)); cbn [fst snd emit trace];
      [|destruct (signal_pending P (hw inner.2)); cbn [fst snd emit trace];
        [|destruct (decide (inner.1 = - EBUSY ∧ _)); cbn [fst snd emit trace]]];
      rewrite Htri; rewrite <- ?app_assoc; cbn [app]; try done.
Qed.

(** X5: over any run of fault callbacks no EPC page is lost: the pages
    the table holds afterwards together with the pages handed back to
    the allocator are the pages the table held before together with
    the pages the allocator handed out.  The zombie list, the mm and
    the identity of the region are untouched, and the allocator and
    vmf_insert_pfn are only called with the region lock held. *)
Theorem fault_seq_no_leak {HW} (P : platform HW) (faults : list vm_fault)
    (st : kstate HW) :
  let st' := fault_seq P faults st in
  virt_epc_zombie_pages st' = virt_epc_zombie_pages st ∧
  epc_id (epc st') = epc_id (epc st) ∧ mm (epc st') = mm (epc st) ∧
  ∃ tr, trace st' = trace st ++ tr ∧ rwsem_ok false tr = true ∧
        xa_pages (page_array (epc st')) ++ freed tr
        ≡ₚ xa_pages (page_array (epc st)) ++ allocated tr.
Proof.
  intros st'. destruct (fault_seq_run P faults st) as (Hz & Hid & Hmm & _ & Hrun).
  done.
Qed.

(** ** More on the debug access path *)

Section AccessRuns.
Context {HW : Type} (P : platform HW).

(** The loop body with the monad unfolded, by outcome. *)
Lemma access_body_unfold vma start len write (v : access_vars) (st : kstate HW)
    (pg : sgx_epc_page) :
  let a := wrap64 (start + av_i v) in
  let idx := access_index vma start v in
  let offset := Z.land a (ULONG_SIZE - 1) in
  let cnt := Z.min (ULONG_SIZE - offset) (len - av_i v) in
  let p := access_word_addr P pg a in
  page_array (epc st) !! idx = Some pg →
  av_ret v = 0 →
  access_body P vma start len write v st =
    if decide (write = false ∨ cnt ≠ ULONG_SIZE) then
      let rd := __edbgrd P p (hw st) in
      if decide (rd.1.1 = 0) then
        if write then
          let data := memcpy (word_to_bytes rd.1.2) offset (av_buf v) (av_i v) cnt in
          let wr := __edbgwr P p (bytes_to_word data) rd.2 in
          (inr (AccessVars (av_i v) cnt idx wr.1 data (av_buf v)),
           KState (epc st) (virt_epc_zombie_pages st)
                  (trace st ++ [EvDownWrite; EvEdbgrd p 0 rd.1.2;
                                EvEdbgwr p (bytes_to_word data) wr.1; EvUpWrite]) wr.2)
        else
          (inr (AccessVars (av_i v) cnt idx 0 (word_to_bytes rd.1.2)
                           (memcpy (av_buf v) (av_i v) (word_to_bytes rd.1.2) offset cnt)),
           KState (epc st) (virt_epc_zombie_pages st)
                  (trace st ++ [EvDownWrite; EvEdbgrd p 0 rd.1.2; EvUpWrite]) rd.2)
      else
        (inr (AccessVars (av_i v) cnt idx rd.1.1 (av_data v) (av_buf v)),
         KState (epc st) (virt_epc_zombie_pages st)
                (trace st ++ [EvDownWrite; EvEdbgrd p rd.1.1 rd.1.2; EvUpWrite]) rd.2)
    else
      let data := memcpy (av_data v) offset (av_buf v) (av_i v) cnt in
      let wr := __edbgwr P p (bytes_to_word data) (hw st) in
      (inr (AccessVars (av_i v) cnt idx wr.1 data (av_buf v)),
       KState (epc st) (virt_epc_zombie_pages st)
              (trace st ++ [EvDownWrite; EvEdbgwr p (bytes_to_word data) wr.1; EvUpWrite])
              wr.2).
Proof.
  intros a idx offset cnt p Hidx Hret.
  unfold access_body. unfold_m. cbn [epc]. fold idx. rewrite Hidx. kcbn.
  fold a. fold offset. fold cnt.
  change (wrap64 (sgx_get_epc_virt_addr P pg
                  + Z.land (ALIGN_DOWN a ULONG_SIZE) (Z.lnot PAGE_MASK))) with p.
  destruct (decide (write = false ∨ cnt ≠ ULONG_SIZE)) as [Hrd|Hrd]; kcbn.
  - destruct (__edbgrd P p (hw st)) as [[r w] h1]. kcbn.
    destruct (decide (r = 0)) as [->|Hr]; kcbn.
    + destruct write; kcbn.
      * destruct (__edbgwr P p _ h1) as [r2 h2]. kcbn. by rewrite <- !app_assoc.
      * by rewrite <- !app_assoc.
    + by rewrite <- !app_assoc.
  - rewrite Hret. kcbn. destruct (decide (0 = 0)); [|done].
    destruct write; [|exfalso; apply Hrd; by left]. kcbn.
    destruct (__edbgwr P p _ (hw st)) as [r2 h2]. kcbn. by rewrite <- !app_assoc.
Qed.

(** An invariant of the loop of [sgx_virt_epc_access], over the locals
    and the events since the call began, holds when the call returns. *)
Section AccessRule.
Context (vma : vm_area_struct) (start len : Z) (write : bool).
Context (m : gmap Z sgx_epc_page) (Inv : access_vars → list event → Prop).
Hypothesis body_inv : ∀ (v : access_vars) (st : kstate HW) tr pg v' st',
  Inv v tr → av_i v < len → av_ret v = 0 →
  page_array (epc st) = m →
  m !! access_index vma start v = Some pg →
  access_body P vma start len write v st = (inr v', st') →
  ∃ trb, trace st' = trace st ++ trb ∧ Inv (access_next v') (tr ++ trb).

Lemma access_loop_rule fuel (v : access_vars) (st : kstate HW) tr :
  Inv v tr → page_array (epc st) = m →
  (Z.to_nat (len - av_i v) ≤ fuel)%nat →
  ∃ r buf' st' v_end tr0 tr1,
    access_loop P fuel vma start len write v st = Some (r, buf', st') ∧
    trace st' = trace st ++ tr0 ++ tr1 ∧ Inv v_end (tr ++ tr0) ∧
    buf' = av_buf v_end ∧ epc st' = epc st ∧
    (r = - EIO ∧
     (tr1 = [EvDownWrite; EvUpWrite] ∧ av_ret v_end = 0 ∧ av_i v_end < len ∧
      m !! access_index vma start v_end = None
      ∨ tr1 = [] ∧ av_ret v_end ≠ 0)
     ∨ r = av_i v_end ∧ tr1 = [] ∧ av_ret v_end = 0 ∧ len ≤ av_i v_end).
Proof.
  revert v st tr. induction fuel as [|fuel IH]; intros v st tr HI Hm Hfuel.
  - simpl. destruct (decide (av_i v < len ∧ av_ret v = 0)) as [[Hlt _]|Hstop]; [lia|].
    destruct (decide (av_ret v ≠ 0)) as [Hr|Hr].
    + exists (- EIO), (av_buf v), st, v, [], []. rewrite !app_nil_r.
      repeat split; try done. left. split; [done|]. by right.
    + apply dec_stable in Hr. exists (av_i v), (av_buf v), st, v, [], [].
      rewrite !app_nil_r. repeat split; try done. right. repeat split; try done. lia.
  - simpl. destruct (decide (av_i v < len ∧ av_ret v = 0)) as [[Hlt Hret]|Hstop].
    + pose proof (access_body_frame P vma start len write v st)
        as (He & _ & trb & Htrb & _ & Hres).
      destruct (access_body P vma start len write v st) as [[r|v'] st1] eqn:Hbody;
        cbn [fst snd] in *.
      * destruct Hres as (-> & Hnone & ->).
        exists (- EIO), (av_buf v), st1, v, [], [EvDownWrite; EvUpWrite].
        rewrite !app_nil_r. cbn [app]. repeat split; try done.
        left. split; [done|]. left. by rewrite <- Hm.
      * destruct Hres as ([pg Hpg] & Hi & Hcnt & _). rewrite Hm in Hpg.
        destruct (body_inv v st tr pg v' st1 HI Hlt Hret Hm Hpg Hbody) as (trb' & Htrb' & HI').
        assert (trb' = trb) as -> by (rewrite Htrb in Htrb'; by apply app_inv_head in Htrb').
        pose proof (land_7_range (wrap64 (start + av_i v))) as Hoff.
        unfold ULONG_SIZE in Hcnt, Hoff.
        destruct (IH (access_next v') st1 (tr ++ trb) HI')
          as (r & buf' & st' & v_end & tr0 & tr1 & Hrun & Htr & HIe & Hbuf & He' & Hr).
        { by rewrite He. }
        { cbn [access_next av_i]. lia. }
        exists r, buf', st', v_end, (trb ++ tr0), tr1.
        split; [exact Hrun|]. split; [by rewrite Htr, Htrb, <- !app_assoc|].
        split; [by rewrite app_assoc|]. split; [done|]. split; [congruence|]. done.
    + destruct (decide (av_ret v ≠ 0)) as [Hr|Hr].
      * exists (- EIO), (av_buf v), st, v, [], []. rewrite !app_nil_r.
        repeat split; try done. left. split; [done|]. by right.
      * apply dec_stable in Hr. exists (av_i v), (av_buf v), st, v, [], [].
        rewrite !app_nil_r. repeat split; try done. right. repeat split; try done. lia.
Qed.

End AccessRule.

End AccessRuns.

Lemma wrap64_mod8 (x : Z) : Z.land (wrap64 x) (ULONG_SIZE - 1) = x mod 8.
Proof.
  change (ULONG_SIZE - 1) with (Z.ones 3). rewrite Z.land_ones by lia.
  unfold wrap64. change (2 ^ 3) with 8.
  apply Z.mod_mod_divide. exists (2 ^ 61). reflexivity.
Qed.

(** X6: a debug access over an empty range (len <= 0) returns 0 at once:
    the buffer and the state are untouched, the region lock is not
    taken and no ENCLS leaf is executed, whether or not the address is
    backed by a page. *)
Theorem access_empty_range {HW} (P : platform HW) (vma : vm_area_struct)
    (start : Z) (buf : list byte) (len : Z) (write : bool) (st : kstate HW) :
  len ≤ 0 →
  sgx_virt_epc_access P vma start buf len write st = Some (0, buf, st).
Proof.
  intros Hlen. unfold sgx_virt_epc_access.
  replace (Z.to_nat len) with 0%nat by lia. simpl.
  destruct (decide (0 < len ∧ 0 = 0)) as [[? _]|_]; [lia|].
  by destruct (decide (0 ≠ 0)).
Qed.

Lemma access_empty_range_witness :
  sgx_virt_epc_access sim_platform sim_vma 65536 [] 0 true
                      (sim_fresh [] 0 VM_FAULT_NOPAGE false)
  = Some (0, [], sim_fresh [] 0 VM_FAULT_NOPAGE false).
Proof. apply access_empty_range. lia. Defined.

(** X7: the direction of a debug access is respected.  A read never
    executes EDBGWR.  A write never changes the caller's buffer, and a
    write of whole words (start and length multiples of 8) never
    executes EDBGRD: the read-modify-write is only done for a word that
    is partially covered. *)
Theorem access_direction {HW} (P : platform HW) (vma : vm_area_struct)
    (start : Z) (buf : list byte) (len : Z) (write : bool) (st : kstate HW) :
  ∃ r buf' st' tr,
    sgx_virt_epc_access P vma start buf len write st = Some (r, buf', st') ∧
    trace st' = trace st ++ tr ∧
    (write = false → Forall (λ e, is_edbgwr e = false) tr) ∧
    (write = true → buf' = buf) ∧
    (write = true → start mod 8 = 0 → len mod 8 = 0 →
     Forall (λ e, is_edbgrd e = false) tr).
Proof.
  set (Inv := λ (v : access_vars) (tr : list event),
    (write = false → Forall (λ e, is_edbgwr e = false) tr) ∧
    (write = true → av_buf v = buf) ∧
    (write = true → start mod 8 = 0 → len mod 8 = 0 →
     av_i v mod 8 = 0 ∧ Forall (λ e, is_edbgrd e = false) tr)).
  destruct (access_loop_rule P vma start len write (page_array (epc st)) Inv) with
    (fuel := Z.to_nat len) (v := access_init buf) (st := st) (tr := @nil event)
    as (r & buf' & st' & v_end & tr0 & tr1 & Hrun & Htr & (Hrd & Hbuf & Hwr) & -> & _ & Hout).
  - intros v st0 tr pg v' st1 (Hrd & Hbuf & Hwr) Hlt Hret Hm Hpg Hbody.
    rewrite <- Hm in Hpg. rewrite (access_body_unfold P _ _ _ _ _ _ pg Hpg Hret) in Hbody.
    set (cnt := Z.min _ _) in Hbody.
    destruct (decide (write = false ∨ cnt ≠ ULONG_SIZE)) as [Hpart|Hfull].
    + cbv zeta in Hbody. destruct (decide (_ = 0)) in Hbody.
      * destruct write.
        -- injection Hbody as <- <-. eexists. split; [reflexivity|].
           split; [done|]. split; [intros _; by apply Hbuf|].
           intros _ Hs Hl. destruct (Hwr eq_refl Hs Hl) as [Hi _]. exfalso.
           destruct Hpart as [|Hc]; [done|]. apply Hc. subst cnt.
           rewrite wrap64_mod8. unfold ULONG_SIZE.
           assert (Hsi : (start + av_i v) mod 8 = 0)
             by (rewrite Z.add_mod, Hs, Hi by lia; reflexivity).
           rewrite Hsi.
           assert (∃ q, len - av_i v = 8 * q) as [q Hq].
           { exists (len / 8 - av_i v / 8).
             rewrite (Z.div_mod len 8), (Z.div_mod (av_i v) 8) at 1 by lia. lia. }
           lia.
        -- injection Hbody as <- <-. eexists. split; [reflexivity|].
           split; [|split; [done|done]].
           intros _. apply Forall_app. split; [by apply Hrd|]. by repeat constructor.
      * injection Hbody as <- <-. eexists. split; [reflexivity|].
        split; [|split].
        -- intros Hw. apply Forall_app. split; [by apply Hrd|]. by repeat constructor.
        -- cbn [access_next av_buf]. done.
        -- intros Hw Hs Hl. destruct (Hwr Hw Hs Hl) as [Hi _]. exfalso.
           destruct Hpart as [|Hc]; [congruence|]. apply Hc. subst cnt.
           rewrite wrap64_mod8. unfold ULONG_SIZE.
           assert (Hsi : (start + av_i v) mod 8 = 0)
             by (rewrite Z.add_mod, Hs, Hi by lia; reflexivity).
           rewrite Hsi.
           assert (∃ q, len - av_i v = 8 * q) as [q Hq].
           { exists (len / 8 - av_i v / 8).
             rewrite (Z.div_mod len 8), (Z.div_mod (av_i v) 8) at 1 by lia. lia. }
           lia.
    + cbv zeta in Hbody. injection Hbody as <- <-. eexists. split; [reflexivity|].
      assert (Hw : write = true).
      { destruct write; [done|]. exfalso. apply Hfull. by left. }
      split; [by rewrite Hw|]. split; [cbn [access_next av_buf]; done|].
      intros _ Hs Hl. destruct (Hwr Hw Hs Hl) as [Hi Hno].
      assert (Hc : cnt = 8).
      { destruct (decide (cnt = ULONG_SIZE)) as [->|Hne]; [done|].
        exfalso. apply Hfull. by right. }
      cbn [access_next av_i av_cnt]. rewrite Hc. split.
      * rewrite Z.add_mod, Hi by lia. reflexivity.
      * apply Forall_app. split; [done|]. by repeat constructor.
  - subst Inv. cbn [access_init av_buf av_i]. repeat split; try done.
  - done.
  - cbn [access_init av_i]. lia.
  - exists r, (av_buf v_end), st', (tr0 ++ tr1). split; [exact Hrun|].
    split; [done|]. cbn [app] in *.
    assert (Htail : ∀ f : event → bool, f EvDownWrite = false → f EvUpWrite = false →
              Forall (λ e, f e = false) tr1).
    { intros f H1 H2. destruct Hout as [[_ [(-> & _)|(-> & _)]]|(_ & -> & _)];
        by repeat constructor. }
    split; [|split].
    + intros Hw. apply Forall_app. split; [by apply Hrd|]. by apply Htail.
    + done.
    + intros Hw Hs Hl. apply Forall_app. split; [by apply Hwr|]. by apply Htail.
Qed.

(** X8: every debug access, whatever its outcome, leaves the region
    lock free: down_write and up_write alternate, every EDBGRD and
    EDBGWR is executed with the lock held, and the lock has been
    dropped when the call returns, on the -EIO paths too. *)
Theorem access_lock_discipline {HW} (P : platform HW) (vma : vm_area_struct)
    (start : Z) (buf : list byte) (len : Z) (write : bool) (st : kstate HW) :
  ∃ r buf' st' tr,
    sgx_virt_epc_access P vma start buf len write st = Some (r, buf', st') ∧
    trace st' = trace st ++ tr ∧
    rwsem_ok false tr = true.
Proof.
  destruct (access_loop_rule P vma start len write (page_array (epc st))
              (λ _ tr, rwsem_ok false tr = true)) with
    (fuel := Z.to_nat len) (v := access_init buf) (st := st) (tr := @nil event)
    as (r & buf' & st' & v_end & tr0 & tr1 & Hrun & Htr & Hok & -> & _ & Hout).
  - intros v st0 tr pg v' st1 Hok Hlt Hret Hm Hpg Hbody.
    rewrite <- Hm in Hpg. rewrite (access_body_unfold P _ _ _ _ _ _ pg Hpg Hret) in Hbody.
    cbv zeta in Hbody.
    repeat (case_decide || case_match); injection Hbody as <- <-;
      (eexists; split; [reflexivity|]); by rewrite rwsem_ok_app.
  - done.
  - done.
  - cbn [access_init av_i]. lia.
  - exists r, (av_buf v_end), st', (tr0 ++ tr1). split; [exact Hrun|]. split; [done|].
    cbn [app] in Hok. rewrite rwsem_ok_app by done.
    by destruct Hout as [[_ [(-> & _)|(-> & _)]]|(_ & -> & _)].
Qed.

Lemma align_down_8 (x : Z) : ALIGN_DOWN x ULONG_SIZE = 8 * (x / 8).
Proof.
  unfold ALIGN_DOWN. change (ULONG_SIZE - 1) with (Z.ones 3).
  rewrite <- Z.ldiff_land, Z.ldiff_ones_r by lia.
  rewrite Z.shiftl_mul_pow2, Z.shiftr_div_pow2 by lia. change (2 ^ 3) with 8. lia.
Qed.

Lemma same_word (a b off : Z) :
  a mod 8 = off → a ≤ b < a + (8 - off) →
  b / 8 = a / 8 ∧ b mod 8 = off + (b - a).
Proof.
  intros Ha Hb. pose proof (Z.div_mod a 8 ltac:(lia)) as Hd.
  pose proof (Z.mod_pos_bound a 8 ltac:(lia)) as Hr.
  assert (Hbq : b = 8 * (a / 8) + (off + (b - a))) by lia.
  split.
  - symmetry. apply Z.div_unique with (off + (b - a)); lia.
  - symmetry. apply Z.mod_unique with (a / 8); lia.
Qed.

Lemma calc_index_by_page (vma : vm_area_struct) (x : Z) :
  0 ≤ vm_start vma → vm_start vma mod PAGE_SIZE = 0 →
  vm_start vma ≤ x < 2 ^ 64 →
  sgx_virt_epc_calc_index vma x
  = wrap64 (vm_pgoff vma + (x / 8 / 512 - vm_start vma / 4096)).
Proof.
  intros H0 Hal Hx. unfold sgx_virt_epc_calc_index, PFN_DOWN.
  change PAGE_SIZE with 4096 in Hal. change PAGE_SHIFT with 12.
  unfold wrap64 at 2. rewrite Z.mod_small by lia.
  rewrite Z.shiftr_div_pow2 by lia. change (2 ^ 12) with 4096.
  rewrite Z.div_div by lia. change (8 * 512) with 4096.
  pose proof (Z.div_mod (vm_start vma) 4096 ltac:(lia)) as Hd. rewrite Hal in Hd.
  replace (x - vm_start vma) with (x + (- (vm_start vma / 4096)) * 4096) by lia.
  rewrite Z.div_add by lia. reflexivity.
Qed.

(** The cached page index is the index of the current address. *)
Lemma access_index_ok (vma : vm_area_struct) (start : Z) (v : access_vars) :
  0 ≤ vm_start vma → vm_start vma mod PAGE_SIZE = 0 →
  vm_start vma ≤ start → 0 ≤ av_i v → start + av_i v < 2 ^ 64 →
  access_vars_ok vma start v →
  access_index vma start v = sgx_virt_epc_calc_index vma (start + av_i v).
Proof.
  intros H0 Hal Hs Hi Hmax Hok. unfold access_index.
  assert (Hw : wrap64 (start + av_i v) = start + av_i v)
    by (unfold wrap64; apply Z.mod_small; lia).
  rewrite Hw.
  destruct (decide (av_i v = 0 ∨ _)) as [_|Hsame]; [done|].
  apply Decidable.not_or in Hsame as [Hne Hpfn].
  apply dec_stable in Hpfn.
  destruct Hok as [?|((Hc1 & Hc2) & ->)]; [done|].
  assert (Hw' : wrap64 (start + av_i v - av_cnt v) = start + av_i v - av_cnt v)
    by (unfold wrap64; apply Z.mod_small; lia).
  rewrite Hw' in Hpfn.
  replace (start + (av_i v - av_cnt v)) with (start + av_i v - av_cnt v) by lia.
  rewrite Hw'. rewrite !calc_index_by_page by (try done; lia).
  unfold PFN_DOWN in Hpfn. change PAGE_SHIFT with 12 in Hpfn.
  rewrite !Z.shiftr_div_pow2 in Hpfn by lia. change (2 ^ 12) with (8 * 512) in Hpfn.
  rewrite <- !Z.div_div in Hpfn by lia. by rewrite Hpfn.
Qed.

(** X9: with a page-aligned mapping and a range inside it that does not
    wrap, every EDBGRD and EDBGWR of a debug access is executed on the
    word of a byte of the requested range, in the page that the table
    holds at the page index of that byte: the page index kept across
    iterations is never stale, and no page outside the range is
    touched. *)
Theorem access_touches_only_the_range {HW} (P : platform HW) (vma : vm_area_struct)
    (start : Z) (buf : list byte) (len : Z) (write : bool) (st : kstate HW) :
  0 ≤ vm_start vma → vm_start vma mod PAGE_SIZE = 0 →
  vm_start vma ≤ start → start + len ≤ 2 ^ 64 →
  ∃ r buf' st' tr,
    sgx_virt_epc_access P vma start buf len write st = Some (r, buf', st') ∧
    trace st' = trace st ++ tr ∧
    ∀ e p, e ∈ tr → dbg_addr e = Some p →
      ∃ k pg, 0 ≤ k < len ∧
        page_array (epc st) !! sgx_virt_epc_calc_index vma (start + k) = Some pg ∧
        p = access_word_addr P pg (start + k).
Proof.
  intros H0 Hal Hs Hmax.
  set (good := λ e : event, ∀ p, dbg_addr e = Some p →
    ∃ k pg, 0 ≤ k < len ∧
      page_array (epc st) !! sgx_virt_epc_calc_index vma (start + k) = Some pg ∧
      p = access_word_addr P pg (start + k)).
  destruct (access_loop_rule P vma start len write (page_array (epc st))
              (λ v tr, access_vars_ok vma start v ∧ 0 ≤ av_i v ∧ Forall good tr)) with
    (fuel := Z.to_nat len) (v := access_init buf) (st := st) (tr := @nil event)
    as (r & buf' & st' & v_end & tr0 & tr1 & Hrun & Htr & (_ & _ & Hgood) & -> & _ & Hout).
  - intros v st0 tr pg v' st1 (Hok & Hi & Hg) Hlt Hret Hm Hpg Hbody.
    assert (Hidx := access_index_ok vma start v H0 Hal Hs Hi ltac:(lia) Hok).
    assert (Hw : wrap64 (start + av_i v) = start + av_i v)
      by (unfold wrap64; apply Z.mod_small; lia).
    pose proof (land_7_range (wrap64 (start + av_i v))) as Hoff. unfold ULONG_SIZE in Hoff.
    assert (Hnew : ∀ e, dbg_addr e = None ∨
                        dbg_addr e = Some (access_word_addr P pg (wrap64 (start + av_i v))) →
                        good e).
    { intros e [He|He] p Hp; [congruence|]. rewrite He in Hp. injection Hp as <-.
      exists (av_i v), pg. rewrite Hw. rewrite <- Hidx. split; [lia|done]. }
    assert (Hnext : ∀ r d b,
      access_vars_ok vma start
        (access_next (AccessVars (av_i v)
           (Z.min (ULONG_SIZE - Z.land (wrap64 (start + av_i v)) (ULONG_SIZE - 1))
                  (len - av_i v))
           (access_index vma start v) r d b)) ∧
      0 ≤ av_i (access_next (AccessVars (av_i v)
           (Z.min (ULONG_SIZE - Z.land (wrap64 (start + av_i v)) (ULONG_SIZE - 1))
                  (len - av_i v))
           (access_index vma start v) r d b))).
    { intros r d b. unfold access_next, access_vars_ok. cbn [av_i av_cnt av_index].
      unfold ULONG_SIZE. split; [|lia]. right. split; [lia|].
      rewrite Hidx, <- Hw. f_equal. f_equal. lia. }
    rewrite <- Hm in Hpg. rewrite (access_body_unfold P _ _ _ _ _ _ pg Hpg Hret) in Hbody.
    cbv zeta in Hbody.
    repeat (case_decide || case_match); injection Hbody as <- <-;
      (eexists; split; [reflexivity|]);
      (split; [apply Hnext|]); (split; [apply Hnext|]);
      (apply Forall_app; split; [done|]);
      repeat (apply Forall_cons; split; [apply Hnew; cbn [dbg_addr]; tauto|]);
      apply Forall_nil_2.
  - split; [by left|]. split; [done|]. apply Forall_nil_2.
  - done.
  - cbn [access_init av_i]. lia.
  - exists r, (av_buf v_end), st', (tr0 ++ tr1). split; [exact Hrun|]. split; [done|].
    intros e p [He|He]%elem_of_app Hp.
    + cbn [app] in Hgood. rewrite Forall_forall in Hgood. by apply (Hgood e He p).
    + exfalso. destruct Hout as [[_ [(-> & _)|(-> & _)]]|(_ & -> & _)].
      * apply elem_of_cons in He as [->|He]; [done|].
        apply elem_of_cons in He as [->|He]; [done|]. by apply elem_of_nil in He.
      * by apply elem_of_nil in He.
      * by apply elem_of_nil in He.
Qed.

(** A 12-byte write at offset 4 of the first page of the mapping. *)
Lemma access_touches_only_the_range_witness :
  ∃ r buf' st' tr,
    sgx_virt_epc_access sim_platform sim_vma 65540 (replicate 12 Byte.x01) 12 true
                        (sim_debug 578437695752307201 []) = Some (r, buf', st') ∧
    trace st' = trace (sim_debug 578437695752307201 []) ++ tr ∧
    ∀ e p, e ∈ tr → dbg_addr e = Some p →
      ∃ k pg, 0 ≤ k < 12 ∧
        page_array (epc (sim_debug 578437695752307201 []))
          !! sgx_virt_epc_calc_index sim_vma (65540 + k) = Some pg ∧
        p = access_word_addr sim_platform pg (65540 + k).
Proof.
  apply (access_touches_only_the_range sim_platform sim_vma 65540 (replicate 12 Byte.x01)
           12 true (sim_debug 578437695752307201 [])).
  - cbn [sim_vma vm_start]. lia.
  - reflexivity.
  - cbn [sim_vma vm_start]. lia.
  - lia.
Defined.

Lemma access_vars_ok_next (vma : vm_area_struct) (start len : Z) (v : access_vars)
    (r : Z) (d b : list byte) :
  0 ≤ vm_start vma → vm_start vma mod PAGE_SIZE = 0 →
  vm_start vma ≤ start → start + len ≤ 2 ^ 64 →
  0 ≤ av_i v < len → access_vars_ok vma start v →
  access_vars_ok vma start
    (access_next (AccessVars (av_i v)
       (Z.min (ULONG_SIZE - Z.land (wrap64 (start + av_i v)) (ULONG_SIZE - 1))
              (len - av_i v))
       (access_index vma start v) r d b)).
Proof.
  intros H0 Hal Hs Hmax Hi Hok.
  assert (Hidx := access_index_ok vma start v H0 Hal Hs ltac:(lia) ltac:(lia) Hok).
  assert (Hw : wrap64 (start + av_i v) = start + av_i v)
    by (unfold wrap64; apply Z.mod_small; lia).
  pose proof (land_7_range (wrap64 (start + av_i v))) as Hoff. unfold ULONG_SIZE in Hoff.
  unfold access_next, access_vars_ok. cbn [av_i av_cnt av_index].
  unfold ULONG_SIZE. right. split; [lia|].
  rewrite Hidx, <- Hw. f_equal. f_equal. lia.
Qed.

(** X10: what a successful debug read puts in the buffer.  With a
    page-aligned mapping, a range inside it that does not wrap and a
    buffer of at least len bytes, the call keeps the buffer's length and
    every byte from position len on, also when it fails; and unless it
    returns -EIO, byte k of the buffer (k < len) is byte (start + k) mod 8,
    little-endian, of a word that a successful EDBGRD of this call
    returned for the word of address start + k in the page that the
    table holds for that address. *)
Theorem access_read_delivers {HW} (P : platform HW) (vma : vm_area_struct)
    (start : Z) (buf : list byte) (len : Z) (st : kstate HW) :
  0 ≤ vm_start vma → vm_start vma mod PAGE_SIZE = 0 →
  vm_start vma ≤ start → start + len ≤ 2 ^ 64 →
  len ≤ Z.of_nat (length buf) →
  ∃ r buf' st' tr,
    sgx_virt_epc_access P vma start buf len false st = Some (r, buf', st') ∧
    trace st' = trace st ++ tr ∧
    length buf' = length buf ∧
    (∀ k : nat, len ≤ Z.of_nat k → buf' !! k = buf !! k) ∧
    (r ≠ - EIO → ∀ k, 0 ≤ k < len →
       ∃ pg w b,
         page_array (epc st) !! sgx_virt_epc_calc_index vma (start + k) = Some pg ∧
         EvEdbgrd (access_word_addr P pg (start + k)) 0 w ∈ tr ∧
         buf' !! Z.to_nat k = Some b ∧
         byte_val b = word_byte w ((start + k) mod 8)).
Proof.
  intros H0 Hal Hs Hmax Hbuf.
  set (got := λ (b' : list byte) (tr : list event) (k : Z),
    ∃ pg w b,
      page_array (epc st) !! sgx_virt_epc_calc_index vma (start + k) = Some pg ∧
      EvEdbgrd (access_word_addr P pg (start + k)) 0 w ∈ tr ∧
      b' !! Z.to_nat k = Some b ∧
      byte_val b = word_byte w ((start + k) mod 8)).
  destruct (access_loop_rule P vma start len false (page_array (epc st))
              (λ v tr, access_vars_ok vma start v ∧ 0 ≤ av_i v ≤ Z.max len 0 ∧
                       length (av_buf v) = length buf ∧
                       (∀ k : nat, av_i v ≤ Z.of_nat k → av_buf v !! k = buf !! k) ∧
                       (av_ret v = 0 → ∀ k, 0 ≤ k < av_i v → got (av_buf v) tr k))) with
    (fuel := Z.to_nat len) (v := access_init buf) (st := st) (tr := @nil event)
    as (r & buf' & st' & v_end & tr0 & tr1 & Hrun & Htr
        & (_ & Hiend & Hlen & Hrest & Hgot) & -> & _ & Hout).
  - intros v st0 tr pg v' st1 (Hok & Hi & Hl & Hr & Hg) Hlt Hret Hm Hpg Hbody.
    assert (Hidx := access_index_ok vma start v H0 Hal Hs ltac:(lia) ltac:(lia) Hok).
    assert (Hw : wrap64 (start + av_i v) = start + av_i v)
      by (unfold wrap64; apply Z.mod_small; lia).
    pose proof (wrap64_mod8 (start + av_i v)) as Hoffeq.
    pose proof (Z.mod_pos_bound (start + av_i v) 8 ltac:(lia)) as Hoff.
    rewrite <- Hm in Hpg. rewrite (access_body_unfold P _ _ _ _ _ _ pg Hpg Hret) in Hbody.
    cbv zeta in Hbody.
    destruct (decide (false = false ∨ _)) as [_|Hn]; [|exfalso; apply Hn; by left].
    pose proof (λ r d b, access_vars_ok_next vma start len v r d b H0 Hal Hs Hmax
                           ltac:(lia) Hok) as Hnext.
    rewrite Hoffeq in Hbody, Hnext. unfold ULONG_SIZE in Hbody, Hnext.
    set (off := (start + av_i v) mod 8) in *.
    set (cnt := Z.min (8 - off) (len - av_i v)) in *.
    assert (Hcnt : 0 < cnt ∧ cnt ≤ 8 - off ∧ cnt ≤ len - av_i v) by (unfold cnt; lia).
    destruct (decide (_ = 0)) as [Hrd|Hrd]; injection Hbody as <- <-.
    + eexists. split; [reflexivity|].
      split; [apply Hnext|]. unfold access_next. cbn [av_i av_cnt av_buf av_ret].
      split; [lia|].
      split; [rewrite length_memcpy; rewrite ?length_word_to_bytes; lia|].
      split.
      * intros k Hk. rewrite lookup_memcpy by (rewrite ?length_word_to_bytes; lia).
        destruct (decide (av_i v ≤ Z.of_nat k < av_i v + cnt)); [lia|]. apply Hr. lia.
      * intros _ k Hk. unfold got.
        destruct (decide (k < av_i v)) as [Hold|Hnew].
        -- destruct (Hg Hret k ltac:(lia)) as (pg0 & w0 & b0 & Hp0 & He0 & Hb0 & Hv0).
           exists pg0, w0, b0. split; [done|]. split; [apply elem_of_app; by left|].
           split; [|done].
           rewrite lookup_memcpy by (rewrite ?length_word_to_bytes; lia).
           destruct (decide (av_i v ≤ Z.of_nat (Z.to_nat k) < av_i v + cnt)); [lia|done].
        -- destruct (same_word (start + av_i v) (start + k) off eq_refl ltac:(lia))
             as [Hq Hmod].
           set (w := (__edbgrd P _ (hw st0)).1.2).
           exists pg, w, (byte_of (Z.shiftr w (8 * (off + (k - av_i v))))).
           split.
           { rewrite <- Hpg, Hidx, Hm.
             rewrite !calc_index_by_page by (try done; lia). by rewrite Hq. }
           split.
           { apply elem_of_app. right. apply elem_of_cons. right. apply elem_of_cons. left.
             f_equal. unfold access_word_addr. rewrite Hw, !align_down_8. by rewrite Hq. }
           split.
           { rewrite lookup_memcpy by (rewrite ?length_word_to_bytes; lia).
             destruct (decide (av_i v ≤ Z.of_nat (Z.to_nat k) < av_i v + cnt)); [|lia].
             rewrite lookup_word_to_bytes by lia. do 3 f_equal. lia. }
           rewrite byte_val_of, word_byte_mod, Hmod. do 2 f_equal. lia.
    + eexists. split; [reflexivity|].
      split; [apply Hnext|]. unfold access_next. cbn [av_i av_cnt av_buf av_ret].
      split; [lia|]. split; [done|].
      split; [intros k Hk; apply Hr; lia|]. intros Hz. by destruct Hrd.
  - split; [by left|]. cbn [access_init av_i av_buf av_ret]. split; [lia|].
    split; [done|]. split; [done|]. intros _ k Hk. lia.
  - done.
  - cbn [access_init av_i]. lia.
  - exists r, (av_buf v_end), st', (tr0 ++ tr1). split; [exact Hrun|]. split; [done|].
    split; [done|]. split; [intros k Hk; apply Hrest; lia|].
    intros Hr k Hk. destruct Hout as [[? _]|(_ & -> & Hret & Hge)]; [done|].
    destruct (Hgot Hret k ltac:(lia)) as (pg & w & b & Hp & He & Hb & Hv).
    exists pg, w, b. split; [done|]. split; [|done].
    rewrite app_nil_r. exact He.
Qed.

(** A 4-byte read at offset 2 of the first page of the mapping. *)
Lemma access_read_delivers_witness :
  ∃ r buf' st' tr,
    sgx_virt_epc_access sim_platform sim_vma 65538 (replicate 6 Byte.x00) 4 false
                        (sim_debug 578437695752307201 []) = Some (r, buf', st') ∧
    trace st' = trace (sim_debug 578437695752307201 []) ++ tr ∧
    length buf' = length (replicate 6 Byte.x00) ∧
    (∀ k : nat, 4 ≤ Z.of_nat k → buf' !! k = replicate 6 Byte.x00 !! k) ∧
    (r ≠ - EIO → ∀ k, 0 ≤ k < 4 →
       ∃ pg w b,
         page_array (epc (sim_debug 578437695752307201 []))
           !! sgx_virt_epc_calc_index sim_vma (65538 + k) = Some pg ∧
         EvEdbgrd (access_word_addr sim_platform pg (65538 + k)) 0 w ∈ tr ∧
         buf' !! Z.to_nat k = Some b ∧
         byte_val b = word_byte w ((65538 + k) mod 8)).
Proof.
  apply (access_read_delivers sim_platform sim_vma 65538 (replicate 6 Byte.x00) 4
           (sim_debug 578437695752307201 [])).
  - cbn [sim_vma vm_start]. lia.
  - reflexivity.
  - cbn [sim_vma vm_start]. lia.
  - lia.
  - cbn [replicate length]. lia.
Defined.

(** X11: what a successful debug write puts in the enclave.  With a
    page-aligned mapping, a range inside it that does not wrap and a
    buffer of at least len bytes, unless the call returns -EIO every byte
    k < len of the buffer has been written: a successful EDBGWR of this
    call, on the word of address start + k in the page that the table
    holds for that address, wrote a word whose byte (start + k) mod 8,
    little-endian, is byte k of the buffer. *)
Theorem access_write_delivers {HW} (P : platform HW) (vma : vm_area_struct)
    (start : Z) (buf : list byte) (len : Z) (st : kstate HW) :
  0 ≤ vm_start vma → vm_start vma mod PAGE_SIZE = 0 →
  vm_start vma ≤ start → start + len ≤ 2 ^ 64 →
  len ≤ Z.of_nat (length buf) →
  ∃ r buf' st' tr,
    sgx_virt_epc_access P vma start buf len true st = Some (r, buf', st') ∧
    trace st' = trace st ++ tr ∧
    (r ≠ - EIO → ∀ k, 0 ≤ k < len →
       ∃ pg w b,
         page_array (epc st) !! sgx_virt_epc_calc_index vma (start + k) = Some pg ∧
         EvEdbgwr (access_word_addr P pg (start + k)) w 0 ∈ tr ∧
         buf !! Z.to_nat k = Some b ∧
         word_byte w ((start + k) mod 8) = byte_val b).
Proof.
  intros H0 Hal Hs Hmax Hbuf.
  set (wrote := λ (tr : list event) (k : Z),
    ∃ pg w b,
      page_array (epc st) !! sgx_virt_epc_calc_index vma (start + k) = Some pg ∧
      EvEdbgwr (access_word_addr P pg (start + k)) w 0 ∈ tr ∧
      buf !! Z.to_nat k = Some b ∧
      word_byte w ((start + k) mod 8) = byte_val b).
  destruct (access_loop_rule P vma start len true (page_array (epc st))
              (λ v tr, access_vars_ok vma start v ∧ 0 ≤ av_i v ≤ Z.max len 0 ∧
                       length (av_data v) = 8%nat ∧ av_buf v = buf ∧
                       (av_ret v = 0 → ∀ k, 0 ≤ k < av_i v → wrote tr k))) with
    (fuel := Z.to_nat len) (v := access_init buf) (st := st) (tr := @nil event)
    as (r & buf' & st' & v_end & tr0 & tr1 & Hrun & Htr
        & (_ & Hiend & _ & _ & Hgot) & -> & _ & Hout).
  - intros v st0 tr pg v' st1 (Hok & Hi & Hd & Hb & Hg) Hlt Hret Hm Hpg Hbody.
    assert (Hidx := access_index_ok vma start v H0 Hal Hs ltac:(lia) ltac:(lia) Hok).
    assert (Hw : wrap64 (start + av_i v) = start + av_i v)
      by (unfold wrap64; apply Z.mod_small; lia).
    pose proof (wrap64_mod8 (start + av_i v)) as Hoffeq.
    pose proof (Z.mod_pos_bound (start + av_i v) 8 ltac:(lia)) as Hoff.
    rewrite <- Hm in Hpg. rewrite (access_body_unfold P _ _ _ _ _ _ pg Hpg Hret) in Hbody.
    cbv zeta in Hbody.
    pose proof (λ r d b, access_vars_ok_next vma start len v r d b H0 Hal Hs Hmax
                           ltac:(lia) Hok) as Hnext.
    rewrite Hoffeq in Hbody, Hnext. unfold ULONG_SIZE in Hbody, Hnext.
    set (off := (start + av_i v) mod 8) in *.
    set (cnt := Z.min (8 - off) (len - av_i v)) in *.
    assert (Hcnt : 0 < cnt ∧ cnt ≤ 8 - off ∧ cnt ≤ len - av_i v) by (unfold cnt; lia).
    rewrite Hb in Hbody.
    (* the step shared by the two ways a word gets written *)
    assert (Hstep : ∀ (d : list byte) (h : HW) (pre : list event),
      length d = 8%nat →
      let data := memcpy d off buf (av_i v) cnt in
      let p := access_word_addr P pg (wrap64 (start + av_i v)) in
      let wr := __edbgwr P p (bytes_to_word data) h in
      v' = AccessVars (av_i v) cnt (access_index vma start v) wr.1 data buf →
      trace st1 = trace st0 ++ EvDownWrite :: pre
                    ++ [EvEdbgwr p (bytes_to_word data) wr.1; EvUpWrite] →
      ∃ trb, trace st1 = trace st0 ++ trb ∧
        access_vars_ok vma start (access_next v') ∧
        0 ≤ av_i (access_next v') ≤ Z.max len 0 ∧
        length (av_data (access_next v')) = 8%nat ∧ av_buf (access_next v') = buf ∧
        (av_ret (access_next v') = 0 →
         ∀ k, 0 ≤ k < av_i (access_next v') → wrote (tr ++ trb) k)).
    { intros d h pre Hdl data p wr -> Ht. eexists. split; [exact Ht|].
      split; [apply Hnext|]. unfold access_next. cbn [av_i av_cnt av_buf av_ret av_data].
      split; [lia|].
      split; [unfold data; rewrite length_memcpy; lia|]. split; [done|].
      intros Hz k Hk. unfold wrote.
      destruct (decide (k < av_i v)) as [Hold|Hnew].
      - destruct (Hg Hret k ltac:(lia)) as (pg0 & w0 & b0 & Hp0 & He0 & Hb0 & Hv0).
        exists pg0, w0, b0. split; [done|]. split; [apply elem_of_app; by left|done].
      - destruct (same_word (start + av_i v) (start + k) off eq_refl ltac:(lia))
          as [Hq Hmod].
        destruct (lookup_lt_is_Some_2 buf (Z.to_nat k) ltac:(lia)) as [b Hbk].
        exists pg, (bytes_to_word data), b.
        split.
        { rewrite <- Hpg, Hidx, Hm.
          rewrite !calc_index_by_page by (try done; lia). by rewrite Hq. }
        split.
        { apply elem_of_app. right. apply elem_of_cons. right.
          apply elem_of_app. right. apply elem_of_cons. left.
          fold wr. rewrite Hz. f_equal. unfold p, access_word_addr.
          rewrite Hw, !align_down_8. by rewrite Hq. }
        split; [done|].
        rewrite Hmod. replace (off + (start + k - (start + av_i v)))
          with (Z.of_nat (Z.to_nat (off + (k - av_i v)))) by lia.
        apply word_byte_bytes_to_word. unfold data.
        rewrite lookup_memcpy by lia.
        destruct (decide (off ≤ Z.of_nat (Z.to_nat (off + (k - av_i v))) < off + cnt));
          [|lia].
        rewrite <- Hbk. f_equal. lia. }
    set (p := access_word_addr P pg (wrap64 (start + av_i v))) in *.
    set (rd := __edbgrd P p (hw st0)) in *.
    destruct (decide (true = false ∨ _)) as [Hpart|Hfull].
    + destruct (decide (_ = 0)) as [Hrd|Hrd]; injection Hbody as Hv' Hst'.
      * apply (Hstep (word_to_bytes rd.1.2) rd.2 [EvEdbgrd p 0 rd.1.2]).
        -- apply length_word_to_bytes.
        -- by rewrite <- Hv'.
        -- by rewrite <- Hst'.
      * subst v' st1. eexists. split; [reflexivity|].
        split; [apply Hnext|]. unfold access_next. cbn [av_i av_cnt av_buf av_ret av_data].
        split; [lia|]. split; [done|]. split; [done|]. intros Hz. by destruct Hrd.
    + injection Hbody as Hv' Hst'.
      apply (Hstep (av_data v) (hw st0) []).
      * done.
      * by rewrite <- Hv'.
      * by rewrite <- Hst'.
  - split; [by left|]. cbn [access_init av_i av_buf av_ret av_data]. split; [lia|].
    split; [apply length_word_to_bytes|]. split; [done|]. intros _ k Hk. lia.
  - done.
  - cbn [access_init av_i]. lia.
  - exists r, (av_buf v_end), st', (tr0 ++ tr1). split; [exact Hrun|]. split; [done|].
    intros Hr k Hk. destruct Hout as [[? _]|(_ & -> & Hret & Hge)]; [done|].
    destruct (Hgot Hret k ltac:(lia)) as (pg & w & b & Hp & He & Hb & Hv).
    exists pg, w, b. split; [done|]. split; [|done].
    rewrite app_nil_r. exact He.
Qed.

(** A 12-byte write at offset 4 of the first page of the mapping. *)
Lemma access_write_delivers_witness :
  ∃ r buf' st' tr,
    sgx_virt_epc_access sim_platform sim_vma 65540 (replicate 12 Byte.x01) 12 true
                        (sim_debug 578437695752307201 []) = Some (r, buf', st') ∧
    trace st' = trace (sim_debug 578437695752307201 []) ++ tr ∧
    (r ≠ - EIO → ∀ k, 0 ≤ k < 12 →
       ∃ pg w b,
         page_array (epc (sim_debug 578437695752307201 []))
           !! sgx_virt_epc_calc_index sim_vma (65540 + k) = Some pg ∧
         EvEdbgwr (access_word_addr sim_platform pg (65540 + k)) w 0 ∈ tr ∧
         replicate 12 Byte.x01 !! Z.to_nat k = Some b ∧
         word_byte w ((65540 + k) mod 8) = byte_val b).
Proof.
  apply (access_write_delivers sim_platform sim_vma 65540 (replicate 12 Byte.x01) 12
           (sim_debug 578437695752307201 [])).
  - cbn [sim_vma vm_start]. lia.
  - reflexivity.
  - cbn [sim_vma vm_start]. lia.
  - lia.
  - cbn [replicate length]. lia.
Defined.

(** ** A debug access that fails after progress *)

Section AccessPrefix.
Context {HW : Type} (P : platform HW).
Context (vma : vm_area_struct) (start : Z) (write : bool).

(** The loop does not depend on fuel it does not use. *)
Lemma access_loop_fuel len (f1 f2 : nat) (v : access_vars) (st : kstate HW) x :
  access_loop P f1 vma start len write v st = Some x → (f1 ≤ f2)%nat →
  access_loop P f2 vma start len write v st = Some x.
Proof.
  revert f2 v st. induction f1 as [|f1 IH]; intros f2 v st Hrun Hle.
  - destruct f2 as [|f2]; [done|]. simpl in *.
    by destruct (decide (av_i v < len ∧ av_ret v = 0)).
  - destruct f2 as [|f2]; [lia|]. simpl in *.
    destruct (decide (av_i v < len ∧ av_ret v = 0)); [|done].
    destruct (access_body P vma start len write v st) as [[r|v'] st1]; [done|].
    apply IH; [done|lia].
Qed.

(** The length enters an iteration only through the byte count. *)
Lemma access_body_len len n (v : access_vars) (st : kstate HW) :
  Z.min (ULONG_SIZE - Z.land (wrap64 (start + av_i v)) (ULONG_SIZE - 1)) (n - av_i v)
  = Z.min (ULONG_SIZE - Z.land (wrap64 (start + av_i v)) (ULONG_SIZE - 1)) (len - av_i v) →
  access_body P vma start n write v st = access_body P vma start len write v st.
Proof. intros Hcnt. unfold access_body. cbv zeta. by rewrite Hcnt. Qed.

(** One iteration entered with [ret] clear is one critical section; when
    it leaves [ret] set, an ENCLS leaf failed in it and the buffer is
    what it was. *)
Lemma access_body_chunk len (v : access_vars) (st : kstate HW) :
  av_ret v = 0 →
  let res := access_body P vma start len write v st in
  ∃ tr_in,
    trace res.2 = trace st ++ EvDownWrite :: tr_in ++ [EvUpWrite] ∧
    Forall (λ e, is_encls_event e = true) tr_in ∧
    match res.1 with
    | inl _ => tr_in = []
    | inr v' => av_ret v' ≠ 0 →
                av_buf v' = av_buf v ∧ ∃ e, e ∈ tr_in ∧ is_dbg_failure e = true
    end.
Proof.
  intros Hret res. subst res.
  destruct (page_array (epc st) !! access_index vma start v) as [pg|] eqn:Hidx.
  2:{ rewrite access_body_absent by done. exists []. by repeat split. }
  rewrite (access_body_unfold P _ _ _ _ _ _ pg Hidx Hret). cbv zeta.
  destruct (decide (write = false ∨ _)) as [Hrd|Hrd].
  - destruct (decide (_ = 0)) as [H0|H0]; [destruct write|];
      cbn [fst snd trace av_ret av_buf].
    + eexists [EvEdbgrd _ _ _; EvEdbgwr _ _ _]. split; [done|].
      split; [by repeat constructor|]. intros Hne. split; [done|].
      eexists. split; [apply elem_of_cons; right; by apply elem_of_cons; left|].
      by apply bool_decide_eq_true_2.
    + eexists [EvEdbgrd _ _ _]. split; [done|]. split; [by repeat constructor|]. done.
    + eexists [EvEdbgrd _ _ _]. split; [done|]. split; [by repeat constructor|].
      intros Hne. split; [done|].
      eexists. split; [by apply elem_of_cons; left|]. by apply bool_decide_eq_true_2.
  - cbn [fst snd trace av_ret av_buf].
    eexists [EvEdbgwr _ _ _]. split; [done|]. split; [by repeat constructor|].
    intros Hne. split; [done|].
    eexists. split; [by apply elem_of_cons; left|]. by apply bool_decide_eq_true_2.
Qed.

(** A loop that ends in -EIO did, up to its last iteration, what the
    loop over the bytes before that iteration does. *)
Lemma access_loop_prefix len fuel (v : access_vars) (st : kstate HW) buf' st' :
  0 ≤ av_i v → av_ret v = 0 →
  access_loop P fuel vma start len write v st = Some (- EIO, buf', st') →
  ∃ n st_mid tr_in,
    av_i v ≤ n < len ∧
    access_loop P fuel vma start n write v st = Some (n, buf', st_mid) ∧
    trace st' = trace st_mid ++ EvDownWrite :: tr_in ++ [EvUpWrite] ∧
    Forall (λ e, is_encls_event e = true) tr_in ∧
    (tr_in = [] ∨ ∃ e, e ∈ tr_in ∧ is_dbg_failure e = true).
Proof.
  revert v st. induction fuel as [|fuel IH]; intros v st Hi Hret Hrun.
  - simpl in Hrun. destruct (decide (av_i v < len ∧ av_ret v = 0)); [done|].
    destruct (decide (av_ret v ≠ 0)); [done|].
    injection Hrun as Hr _ _. unfold EIO in Hr. lia.
  - simpl in Hrun.
    destruct (decide (av_i v < len ∧ av_ret v = 0)) as [[Hlt _]|Hstop].
    2:{ destruct (decide (av_ret v ≠ 0)); [done|].
        injection Hrun as Hr _ _. unfold EIO in Hr. lia. }
    assert (Hhere : access_loop P (S fuel) vma start (av_i v) write v st
                    = Some (av_i v, av_buf v, st)).
    { simpl. rewrite decide_False by lia. by rewrite decide_False by tauto. }
    pose proof (access_body_frame P vma start len write v st)
      as (_ & _ & tr0 & _ & _ & Hres).
    pose proof (access_body_chunk len v st Hret) as (tr_in & Htr & Hev & Hout).
    destruct (access_body P vma start len write v st) as [[r|v'] st1] eqn:Hbody;
      cbn [fst snd] in *.
    + injection Hrun as Hr Hb Hs. subst buf' st' tr_in.
      exists (av_i v), st, []. split; [lia|]. split; [done|].
      split; [done|]. split; [done|]. by left.
    + destruct Hres as (_ & Hi' & Hcnt & _).
      pose proof (land_7_range (wrap64 (start + av_i v))) as Hoff.
      unfold ULONG_SIZE in Hcnt, Hoff.
      destruct (decide (av_ret v' = 0)) as [H0|H0].
      * destruct (IH (access_next v') st1)
          as (n & st_mid & tr_in' & Hn & Hpre & Htr' & Hev' & Hf');
          [cbn [access_next av_i]; lia|done|done|].
        cbn [access_next av_i] in Hn.
        exists n, st_mid, tr_in'. split; [lia|]. split; [|done].
        simpl. rewrite decide_True by (split; [lia|done]).
        rewrite (access_body_len len n), Hbody; [done|]. unfold ULONG_SIZE. lia.
      * destruct (Hout H0) as (Hbuf & Hfail).
        assert (Hend : Some (- EIO, av_buf v', st1) = Some (- EIO, buf', st')).
        { rewrite <- Hrun. destruct fuel; simpl;
            rewrite decide_False by tauto; by rewrite decide_True. }
        injection Hend as Hb Hs. subst buf' st'.
        exists (av_i v), st, tr_in. split; [lia|]. split; [by rewrite Hbuf|].
        split; [done|]. split; [done|]. by right.
Qed.

End AccessPrefix.

(** C3 (as the code has it): a debug access always returns, and it
    returns either -EIO or the whole length asked for (0 when the
    length is not positive), never a partial count.  It returns -EIO
    only after a failed chunk (an absent entry or a failed ENCLS leaf),
    and a failing chunk, whether it is the first one or a later one,
    makes the call return -EIO: the body either returns -EIO at once
    (absent entry) or leaves a nonzero [ret] that ends the loop.  The
    chunks before the failing one are done all the same: a call that
    returns -EIO has, for the number n of bytes before the failing
    chunk, handed back the buffer and logged the events of the call for
    these n bytes alone, which succeeds; after them it logs one more
    critical section, that of the failing chunk, empty when the entry
    was absent and with the failed ENCLS leaf in it otherwise. *)
Theorem access_returns_len_or_eio {HW} (P : platform HW)
    (vma : vm_area_struct) (start : Z) (buf : list byte) (len : Z) (write : bool)
    (st : kstate HW) :
  (∃ r buf' st' tr,
     sgx_virt_epc_access P vma start buf len write st = Some (r, buf', st') ∧
     trace st' = trace st ++ tr ∧
     (r = - EIO ∧ access_failed tr ∨ r = Z.max 0 len)) ∧
  (∀ fuel (v : access_vars) (st1 : kstate HW),
     av_i v < len → av_ret v = 0 →
     match (access_body P vma start len write v st1).1 with
     | inl _ => True
     | inr v' => av_ret v' ≠ 0
     end →
     ∃ buf' st',
       access_loop P (S fuel) vma start len write v st1 = Some (- EIO, buf', st')) ∧
  (∀ buf' st',
     sgx_virt_epc_access P vma start buf len write st = Some (- EIO, buf', st') →
     ∃ n st_mid tr_in,
       0 ≤ n < len ∧
       sgx_virt_epc_access P vma start buf n write st = Some (n, buf', st_mid) ∧
       trace st' = trace st_mid ++ EvDownWrite :: tr_in ++ [EvUpWrite] ∧
       Forall (λ e, is_encls_event e = true) tr_in ∧
       (tr_in = [] ∨ ∃ e, e ∈ tr_in ∧ is_dbg_failure e = true)).
Proof.
  split; [|split].
  - unfold sgx_virt_epc_access.
    destruct (access_loop_total P vma start len write (Z.to_nat len) (access_init buf) st)
      as (r & buf' & st' & tr & Hrun & _ & _ & Htr & _ & Hr).
    { cbn [access_init av_i]. lia. }
    exists r, buf', st', tr. split; [done|]. split; [done|].
    destruct Hr as [[-> Hfail]|[_ ->]]; [left|by right].
    split; [done|]. by apply Hfail.
  - intros fuel v st1 Hlt Hret Hfail. simpl.
    destruct (decide (av_i v < len ∧ av_ret v = 0)) as [_|Hstop]; [|tauto].
    pose proof (access_body_frame P vma start len write v st1) as (_ & _ & tr & _ & _ & Hres).
    destruct (access_body P vma start len write v st1) as [[r|v'] st2]; cbn [fst snd] in *.
    + destruct Hres as [-> _]. by eexists _, _.
    + destruct fuel as [|fuel]; simpl;
        (destruct (decide (_ ∧ av_ret v' = 0)) as [[_ ?]|_]; [done|]);
        (destruct (decide (av_ret v' ≠ 0)); [|done]); by eexists _, _.
  - intros buf' st' Hrun. unfold sgx_virt_epc_access in Hrun |- *.
    destruct (access_loop_prefix P vma start write len (Z.to_nat len) (access_init buf)
                st buf' st')
      as (n & st_mid & tr_in & Hn & Hpre & Htr & Hev & Hf); [done|done|done|].
    cbn [access_init av_i] in Hn.
    exists n, st_mid, tr_in. split; [done|]. split; [|done].
    destruct (access_loop_total P vma start n write (Z.to_nat n) (access_init buf) st)
      as (r & b & s & tr & Hrun2 & _).
    { cbn [access_init av_i]. lia. }
    rewrite Hrun2, <- Hpre. symmetry.
    apply (access_loop_fuel P vma start write n (Z.to_nat n) (Z.to_nat len)); [done|lia].
Qed.

(** A 16-byte read whose second word faults: the call returns -EIO, and
    the buffer it hands back and the events before the failing chunk
    are those of the read of the first 8 bytes. *)
Lemma access_returns_len_or_eio_witness :
  (∃ r buf' st' tr,
     sgx_virt_epc_access sim_platform sim_vma 65536 (replicate 16 Byte.x00) 16 false
                         (sim_debug 578437695752307201 [sim_va 0 + 8])
     = Some (r, buf', st') ∧
     trace st' = trace (sim_debug 578437695752307201 [sim_va 0 + 8]) ++ tr ∧
     (r = - EIO ∧ access_failed tr ∨ r = Z.max 0 16)) ∧
  ∃ buf' st',
    sgx_virt_epc_access sim_platform sim_vma 65536 (replicate 16 Byte.x00) 16 false
                        (sim_debug 578437695752307201 [sim_va 0 + 8])
    = Some (- EIO, buf', st') ∧
    ∃ n st_mid tr_in,
      0 ≤ n < 16 ∧
      sgx_virt_epc_access sim_platform sim_vma 65536 (replicate 16 Byte.x00) n false
                          (sim_debug 578437695752307201 [sim_va 0 + 8])
      = Some (n, buf', st_mid) ∧
      trace st' = trace st_mid ++ EvDownWrite :: tr_in ++ [EvUpWrite] ∧
      Forall (λ e, is_encls_event e = true) tr_in ∧
      (tr_in = [] ∨ ∃ e, e ∈ tr_in ∧ is_dbg_failure e = true).
Proof.
  split.
  - apply (access_returns_len_or_eio sim_platform sim_vma 65536 (replicate 16 Byte.x00) 16
             false (sim_debug 578437695752307201 [sim_va 0 + 8])).
  - eexists _, _. split; [vm_compute; reflexivity|].
    apply (proj2 (proj2 (access_returns_len_or_eio sim_platform sim_vma 65536
             (replicate 16 Byte.x00) 16 false
             (sim_debug 578437695752307201 [sim_va 0 + 8])))).
    vm_compute. reflexivity.
Defined.

(** ** The release path, call by call *)

(** xa_for_each visits every entry at or above its cursor once, in
    ascending index order, when the body at most erases the entry it
    is at. *)
Section ForEachVisits.
Context {HW : Type} {L : Type} (body : Z → sgx_epc_page → L → M HW L).
Context (I : list (Z * sgx_epc_page) → L → kstate HW → Prop).
Hypothesis body_ok : ∀ vis index entry l st,
  page_array (epc st) !! index = Some entry → I vis l st →
  I (vis ++ [(index, entry)]) (body index entry l st).1 (body index entry l st).2 ∧
  (page_array (epc (body index entry l st).2) = delete index (page_array (epc st))
   ∨ page_array (epc (body index entry l st).2) = page_array (epc st)).

Lemma xa_for_each_from_visits fuel cur vis0 l st :
  I vis0 l st →
  match cur with
  | Some (index, entry) =>
    page_array (epc st) !! index = Some entry ∧
    (size (filter (λ kv, (index ≤ kv.1)%Z) (page_array (epc st))) ≤ fuel)%nat
  | None => True
  end →
  ∃ l' st' vis,
    xa_for_each_from fuel body cur l st = Some (l', st') ∧ I (vis0 ++ vis) l' st' ∧
    StronglySorted key_lt vis ∧
    match cur with
    | Some (index, _) =>
      vis ≡ₚ map_to_list (filter (λ kv, (index ≤ kv.1)%Z) (page_array (epc st)))
    | None => vis = []
    end.
Proof.
  revert cur vis0 l st.
  induction fuel as [|fuel IH]; intros [[index entry]|] vis0 l st HI Hcur.
  - destruct Hcur as [Hidx Hsz]. exfalso.
    assert (Hin : filter (λ kv : Z * sgx_epc_page, index ≤ kv.1) (page_array (epc st))
                    !! index = Some entry)
      by (apply map_lookup_filter_Some; split; [done|simpl; lia]).
    pose proof (map_size_ne_0_lookup_2 _ index (ex_intro _ entry Hin)). lia.
  - exists l, st, []. simpl. rewrite app_nil_r. split; [done|]. split; [done|].
    split; [constructor|done].
  - destruct Hcur as [Hidx Hsz]. simpl.
    destruct (body_ok vis0 index entry l st Hidx HI) as [HI1 Htbl].
    destruct (body index entry l st) as [l1 st1] eqn:Hb. simpl in HI1, Htbl |- *.
    assert (Hsub1 : page_array (epc st1) ⊆ page_array (epc st)).
    { destruct Htbl as [->| ->]; [apply delete_subseteq|done]. }
    assert (Hother : ∀ k, k ≠ index →
              page_array (epc st1) !! k = page_array (epc st) !! k).
    { intros k Hk. destruct Htbl as [->| ->]; [by rewrite lookup_delete_ne|done]. }
    destruct (xa_find_after (page_array (epc st1)) index) as [[k' v']|] eqn:Hnext.
    + apply xa_find_after_Some in Hnext as (Hk' & Hlt & Hmin).
      destruct (IH (Some (k', v')) (vis0 ++ [(index, entry)]) l1 st1 HI1)
        as (l2 & st2 & vis & Hrun & HI2 & Hsorted & Hperm).
      { split; [done|].
        pose proof (xa_remaining_decreases _ _ index entry k' Hidx Hsub1 Hlt). lia. }
      exists l2, st2, ((index, entry) :: vis). split; [exact Hrun|].
      split; [by rewrite <- app_assoc in HI2|]. split.
      * constructor; [done|]. apply Forall_forall. intros [k x] Hin.
        rewrite Hperm in Hin. apply elem_of_map_to_list in Hin.
        apply map_lookup_filter_Some in Hin as [_ Hge]. unfold key_lt. simpl in *. lia.
      * assert (Hmap : filter (λ kv : Z * sgx_epc_page, index ≤ kv.1) (page_array (epc st))
                       = <[index := entry]>
                           (filter (λ kv : Z * sgx_epc_page, k' ≤ kv.1)
                                   (page_array (epc st1)))).
        { apply map_eq. intros k.
          destruct (decide (k = index)) as [->|Hne].
          { rewrite lookup_insert_eq. apply map_lookup_filter_Some.
            split; [done|simpl; lia]. }
          rewrite lookup_insert_ne by done.
          apply option_eq. intros x. rewrite !map_lookup_filter_Some, (Hother k Hne).
          simpl. split; intros [Hx Hk]; (split; [done|]); [|lia].
          apply (Hmin k x); [by rewrite Hother|lia]. }
        rewrite Hmap, map_to_list_insert; [by rewrite Hperm|].
        apply map_lookup_filter_None. right. intros x _. simpl. lia.
    + exists l1, st1, [(index, entry)]. split; [by destruct fuel|]. split; [done|].
      split; [repeat constructor|].
      assert (Hmap : filter (λ kv : Z * sgx_epc_page, index ≤ kv.1) (page_array (epc st))
                     = {[index := entry]}).
      { apply map_eq. intros k.
        destruct (decide (k = index)) as [->|Hne].
        { rewrite lookup_singleton_eq. apply map_lookup_filter_Some.
          split; [done|simpl; lia]. }
        rewrite lookup_singleton_ne by done.
        apply map_lookup_filter_None. right. intros x Hx. simpl.
        rewrite <- (Hother k Hne) in Hx.
        pose proof (xa_find_after_None _ _ _ _ Hnext Hx). lia. }
      by rewrite Hmap, map_to_list_singleton.
  - exists l, st, []. simpl. rewrite app_nil_r. split; [done|]. split; [done|].
    split; [constructor|done].
Qed.

Lemma xa_for_each_visits l st :
  I [] l st → xa_index_ok (page_array (epc st)) →
  ∃ l' st' vis,
    xa_for_each body l st = Some (l', st') ∧ I vis l' st' ∧
    StronglySorted key_lt vis ∧ vis ≡ₚ map_to_list (page_array (epc st)).
Proof.
  intros HI Hwf. unfold xa_for_each.
  destruct (xa_find (page_array (epc st)) 0) as [[index entry]|] eqn:Hfirst.
  - apply xa_find_Some in Hfirst as (Hidx & Hge & Hmin).
    destruct (xa_for_each_from_visits (size (page_array (epc st))) (Some (index, entry))
                [] l st HI)
      as (l' & st' & vis & Hrun & HI' & Hsorted & Hperm).
    { split; [done|]. apply map_subseteq_size, map_filter_subseteq. }
    exists l', st', vis. split; [done|]. split; [done|]. split; [done|].
    rewrite Hperm, map_filter_id; [done|].
    intros k x Hx. simpl. apply (Hmin k x Hx). by apply (Hwf k x Hx).
  - exists l, st, []. split; [by destruct (size _)|]. split; [done|].
    split; [constructor|].
    assert (Hempty : page_array (epc st) = ∅).
    { apply map_empty. intros k.
      destruct (page_array (epc st) !! k) as [x|] eqn:Hx; [|done].
      exfalso. assert (0 ≤ k) by (apply (Hwf k x Hx)).
      pose proof (xa_find_None _ _ _ _ Hfirst Hx). lia. }
    by rewrite Hempty, map_to_list_empty.
Qed.

End ForEachVisits.

Lemma NoDup_fmap_inj_on {A B : Type} (f : A → B) (l : list A) (x y : A) :
  NoDup (f <$> l) → x ∈ l → y ∈ l → f x = f y → x = y.
Proof.
  induction l as [|a l IH]; intros Hnd Hx Hy Hf; [by apply elem_of_nil in Hx|].
  rewrite fmap_cons in Hnd. apply NoDup_cons in Hnd as [Hna Hnd].
  apply elem_of_cons in Hx as [->|Hx]; apply elem_of_cons in Hy as [->|Hy].
  - done.
  - destruct Hna. rewrite Hf. by apply list_elem_of_fmap_2.
  - destruct Hna. rewrite <- Hf. by apply list_elem_of_fmap_2.
  - by apply IH.
Qed.

Lemma StronglySorted_fmap_filter {A B : Type} (R : B → B → Prop) (f : A → B)
    (Q : A → Prop) `{!∀ x, Decision (Q x)} (l : list A) :
  StronglySorted R (f <$> l) → StronglySorted R (f <$> filter Q l).
Proof.
  induction l as [|a l IH]; intros Hs; [done|].
  rewrite fmap_cons in Hs. apply StronglySorted_inv in Hs as [Hs Hall].
  rewrite filter_cons. destruct (decide (Q a)); [|by apply IH].
  rewrite fmap_cons. constructor; [by apply IH|].
  apply Forall_forall. intros b [x [-> Hx]]%list_elem_of_fmap.
  apply list_elem_of_filter in Hx as [_ Hx].
  rewrite Forall_forall in Hall. apply Hall. by apply list_elem_of_fmap_2.
Qed.

#[local] Instance key_lt_antisymm : AntiSymm (=) key_lt.
Proof. intros a b Hab Hba. unfold key_lt in *. lia. Qed.

Lemma perm_pair_up {A : Type} (a b c d e : list A) :
  (a ++ b ++ c) ++ d ++ e ≡ₚ a ++ (b ++ d) ++ (c ++ e).
Proof.
  rewrite <- !app_assoc. do 2 apply Permutation_app_head.
  apply Permutation_app_swap_app.
Qed.

Lemma warned_app (l l' : list event) :
  bool_decide (EvWarn ∈ l ++ l') = bool_decide (EvWarn ∈ l) || bool_decide (EvWarn ∈ l').
Proof.
  destruct (bool_decide_reflect (EvWarn ∈ l)), (bool_decide_reflect (EvWarn ∈ l')); cbn;
    [apply bool_decide_eq_true_2..|apply bool_decide_eq_false_2];
    rewrite elem_of_app; tauto.
Qed.

Lemma any_unexpected_app (c1 c2 : list (sgx_epc_page * Z)) :
  any_unexpected (c1 ++ c2) = any_unexpected c1 || any_unexpected c2.
Proof. apply existsb_app. Qed.

Section ReleaseCalls.
Context {HW : Type} (P : platform HW).

Lemma free_page_call (pg : sgx_epc_page) (st : kstate HW) :
  let res := sgx_virt_epc_free_page P (Some pg) st in
  epc res.2 = epc st ∧ virt_epc_zombie_pages res.2 = virt_epc_zombie_pages st ∧
  trace res.2 = trace st ++ free_page_events P (warned st) (pg, res.1).
Proof.
  intros res. subst res. rewrite free_page_unfold. unfold free_page_events.
  destruct (decide (_ ≠ 0)) as [Hr|Hr];
    cbn [fst snd epc virt_epc_zombie_pages trace].
  - split; [done|]. split; [done|]. by destruct (decide (_ = 0)).
  - split; [done|]. split; [done|]. by destruct (decide (0 = 0)).
Qed.

(** The warning is in the trace of a call exactly when the call gives it. *)
Lemma warned_free_page_events (w : bool) (c : sgx_epc_page * Z) :
  bool_decide (EvWarn ∈ free_page_events P w c) = negb w && unexpected c.2.
Proof.
  unfold free_page_events, unexpected.
  destruct (decide (c.2 = 0)) as [H0|H0].
  - rewrite (bool_decide_eq_false_2 (_ ∧ _)) by tauto. rewrite andb_false_r.
    apply bool_decide_eq_false_2.
    intros [?|[?|?%elem_of_nil]%elem_of_cons]%elem_of_cons; done.
  - destruct (decide (c.2 ≠ SGX_CHILD_PRESENT)) as [Hc|Hc].
    + rewrite (bool_decide_eq_true_2 (_ ∧ _)) by tauto. rewrite andb_true_r.
      destruct w; cbn [negb].
      * apply bool_decide_eq_false_2. intros [?|?%elem_of_nil]%elem_of_cons; done.
      * apply bool_decide_eq_true_2. apply elem_of_cons. right. by apply elem_of_cons; left.
    + rewrite (bool_decide_eq_false_2 (_ ∧ _)) by tauto. rewrite andb_false_r.
      apply bool_decide_eq_false_2. intros [?|?%elem_of_nil]%elem_of_cons; done.
Qed.

Lemma warned_calls_events (u w : bool) (cs : list (sgx_epc_page * Z)) :
  bool_decide (EvWarn ∈ calls_events P u w cs) = negb w && any_unexpected cs.
Proof.
  revert w. induction cs as [|c cs IH]; intros w; cbn [calls_events any_unexpected existsb].
  - rewrite andb_false_r. apply bool_decide_eq_false_2. apply not_elem_of_nil.
  - rewrite !warned_app, warned_free_page_events, IH.
    assert (Hpre : bool_decide (EvWarn ∈ (if u then [EvListDel c.1] else [])) = false).
    { apply bool_decide_eq_false_2. destruct u.
      - intros [?|?%elem_of_nil]%elem_of_cons; done.
      - apply not_elem_of_nil. }
    rewrite Hpre. fold (any_unexpected cs).
    by destruct w, (unexpected c.2), (any_unexpected cs).
Qed.

Lemma warned_after (u : bool) (cs : list (sgx_epc_page * Z)) (st0 st : kstate HW) :
  trace st = trace st0 ++ calls_events P u (warned st0) cs →
  warned st = warned st0 || any_unexpected cs.
Proof.
  intros Htr. unfold warned at 1. rewrite Htr, warned_app, warned_calls_events.
  fold (warned st0). by destruct (warned st0), (any_unexpected cs).
Qed.

Lemma calls_events_app (u w : bool) (c1 c2 : list (sgx_epc_page * Z)) :
  calls_events P u w (c1 ++ c2)
  = calls_events P u w c1 ++ calls_events P u (w || any_unexpected c1) c2.
Proof.
  revert w. induction c1 as [|c c1 IH]; intros w;
    cbn [calls_events any_unexpected existsb app].
  - by rewrite orb_false_r.
  - fold (any_unexpected c1). by rewrite IH, <- !app_assoc, orb_assoc.
Qed.

Lemma calls_events_snoc (w : bool) (cs : list (sgx_epc_page * Z)) (c : sgx_epc_page * Z) :
  calls_events P false w (cs ++ [c])
  = calls_events P false w cs ++ free_page_events P (w || any_unexpected cs) c.
Proof. rewrite calls_events_app. cbn [calls_events app]. by rewrite app_nil_r. Qed.

(** One more visit of a loop of the release path. *)
Lemma visit_step (st0 st st' : kstate HW) (v : list (Z * sgx_epc_page * Z))
    (index : Z) (entry : sgx_epc_page) (r : Z) :
  trace st = trace st0 ++ calls_events P false (warned st0) (visit_call <$> v) →
  trace st' = trace st ++ free_page_events P (warned st) (entry, r) →
  trace st' = trace st0
              ++ calls_events P false (warned st0) (visit_call <$> v ++ [(index, entry, r)]).
Proof.
  intros Htr Htr'. rewrite fmap_app. cbn [fmap list_fmap visit_call fst snd].
  rewrite calls_events_snoc, Htr', (warned_after false _ st0 st Htr), Htr.
  by rewrite <- app_assoc.
Qed.

(** The first loop. *)
Lemma release_pass1_calls (st0 : kstate HW) :
  xa_index_ok (page_array (epc st0)) →
  ∃ st1 (v1 : list (Z * sgx_epc_page * Z)),
    xa_for_each (release_pass1_body P) tt st0 = Some (tt, st1) ∧
    v1.*1 ≡ₚ map_to_list (page_array (epc st0)) ∧ StronglySorted key_lt v1.*1 ∧
    trace st1 = trace st0 ++ calls_events P false (warned st0) (visit_call <$> v1) ∧
    page_array (epc st1)
      = filter (λ kv, kv.1 ∉ done_keys v1) (page_array (epc st0)) ∧
    virt_epc_zombie_pages st1 = virt_epc_zombie_pages st0 ∧
    epc_id (epc st1) = epc_id (epc st0).
Proof.
  intros Hwf.
  destruct (xa_for_each_visits (release_pass1_body P)
    (λ vis (_ : unit) st, ∃ v : list (Z * sgx_epc_page * Z), v.*1 = vis ∧
       trace st = trace st0 ++ calls_events P false (warned st0) (visit_call <$> v) ∧
       page_array (epc st)
         = filter (λ kv, kv.1 ∉ done_keys v) (page_array (epc st0)) ∧
       virt_epc_zombie_pages st = virt_epc_zombie_pages st0 ∧
       epc_id (epc st) = epc_id (epc st0))) with (l := tt) (st := st0)
    as ([] & st1 & vis & Hrun & (v1 & <- & Htr & Htbl & Hz & Hid) & Hsorted & Hperm).
  - intros vis index entry [] st Hidx (v & <- & Htr & Htbl & Hz & Hid).
    unfold release_pass1_body, kbind.
    destruct (free_page_call entry st) as (He & Hz' & Htr').
    destruct (sgx_virt_epc_free_page P (Some entry) st) as [r st1].
    cbn [fst snd] in *.
    destruct (decide (r ≠ 0)) as [Hr|Hr]; cbn [kret fst snd].
    + split; [|right; by rewrite He].
      exists (v ++ [(index, entry, r)]). split; [by rewrite fmap_app|].
      split; [by apply (visit_step st0 st)|].
      split; [|by rewrite Hz', He].
      rewrite He, Htbl. unfold done_keys. rewrite filter_app, filter_cons.
      cbn [snd]. destruct (decide (r = 0)); [done|].
      by rewrite filter_nil, app_nil_r.
    + apply dec_stable in Hr. subst r.
      unfold xa_erase, set_page_array. cbn [fst snd epc page_array epc_id
        virt_epc_zombie_pages trace].
      split; [|left; by rewrite He].
      exists (v ++ [(index, entry, 0)]). split; [by rewrite fmap_app|].
      split; [by apply (visit_step st0 st)|].
      split; [|by rewrite Hz', He].
      rewrite He, Htbl. unfold done_keys. rewrite filter_app, filter_cons.
      cbn [snd]. destruct (decide (0 = 0)); [|done].
      rewrite filter_nil, !fmap_app. cbn [fmap list_fmap fst].
      apply map_eq. intros k. apply option_eq. intros x.
      rewrite lookup_delete_Some, !map_lookup_filter_Some. cbn [fst].
      rewrite elem_of_app, list_elem_of_singleton. intuition congruence.
  - exists []. split; [done|]. split; [by rewrite app_nil_r|].
    split; [|done]. symmetry. apply map_filter_id. intros k x _. cbn.
    apply not_elem_of_nil.
  - done.
  - exists st1, v1. do 6 (split; [done|]). done.
Qed.

(** The second loop. *)
Lemma release_pass2_calls (st1 : kstate HW) :
  xa_index_ok (page_array (epc st1)) →
  ∃ secs st2 (v2 : list (Z * sgx_epc_page * Z)),
    xa_for_each (release_pass2_body P) [] st1 = Some (secs, st2) ∧
    v2.*1 ≡ₚ map_to_list (page_array (epc st1)) ∧ StronglySorted key_lt v2.*1 ∧
    trace st2 = trace st1 ++ calls_events P false (warned st1) (visit_call <$> v2) ∧
    secs = failed_pages (visit_call <$> v2) ∧
    virt_epc_zombie_pages st2 = virt_epc_zombie_pages st1 ∧
    epc_id (epc st2) = epc_id (epc st1) ∧ mm (epc st2) = mm (epc st1).
Proof.
  intros Hwf.
  destruct (xa_for_each_visits (release_pass2_body P)
    (λ vis secs st, ∃ v : list (Z * sgx_epc_page * Z), v.*1 = vis ∧
       trace st = trace st1 ++ calls_events P false (warned st1) (visit_call <$> v) ∧
       secs = failed_pages (visit_call <$> v) ∧
       virt_epc_zombie_pages st = virt_epc_zombie_pages st1 ∧
       epc_id (epc st) = epc_id (epc st1) ∧ mm (epc st) = mm (epc st1)))
    with (l := @nil sgx_epc_page) (st := st1)
    as (secs & st2 & vis & Hrun & (v2 & <- & Htr & Hsecs & Hz & Hid) & Hsorted & Hperm).
  - intros vis index entry secs st Hidx (v & <- & Htr & -> & Hz & Hid & Hmm).
    unfold release_pass2_body, kbind.
    destruct (free_page_call entry st) as (He & Hz' & Htr').
    destruct (sgx_virt_epc_free_page P (Some entry) st) as [r st'].
    cbn [fst snd] in *.
    unfold xa_erase, set_page_array, kret.
    cbn [fst snd epc page_array epc_id mm virt_epc_zombie_pages trace].
    split; [|left; by rewrite He].
    exists (v ++ [(index, entry, r)]). split; [by rewrite fmap_app|].
    split; [by apply (visit_step st1 st)|].
    split; [|by rewrite Hz', He].
    unfold failed_pages. rewrite fmap_app, filter_app, fmap_app.
    cbn [fmap list_fmap]. rewrite filter_cons, filter_nil. cbn [visit_call fst snd].
    destruct (decide (r ≠ 0)); cbn [fmap list_fmap fst]; [done|]. by rewrite app_nil_r.
  - exists []. split; [done|]. by rewrite app_nil_r.
  - done.
  - exists secs, st2, v2. destruct Hid. do 7 (split; [done|]). done.
Qed.

(** The third loop. *)
Lemma release_pass3_walk_calls todo secs (st : kstate HW) :
  virt_epc_zombie_pages st = todo →
  let res := release_pass3_walk P todo secs st in
  virt_epc_zombie_pages res.2 = [] ∧ epc res.2 = epc st ∧
  ∃ c : list (sgx_epc_page * Z),
    c.*1 = todo ∧ trace res.2 = trace st ++ calls_events P true (warned st) c ∧
    res.1 = secs ++ failed_pages c.
Proof.
  revert secs st. induction todo as [|pg tmp IH]; intros secs st Hz; simpl.
  { split; [done|]. split; [done|]. exists []. by rewrite !app_nil_r. }
  unfold kbind, release_pass3_body, kbind, call_list_del, kret.
  rewrite Hz, list_del_head.
  set (sta := KState (epc st) tmp (trace st ++ [EvListDel pg]) (hw st)).
  assert (Hwa : warned sta = warned st) by (by apply warned_snoc).
  destruct (free_page_call pg sta) as (He & Hz' & Htr').
  destruct (sgx_virt_epc_free_page P (Some pg) sta) as [r st1].
  cbn [fst snd] in *. rewrite Hwa in Htr'.
  cbn [sta epc virt_epc_zombie_pages trace] in He, Hz', Htr'.
  assert (Hw1 : warned st1 = warned st || unexpected r).
  { unfold warned at 1. rewrite Htr', !warned_app, warned_free_page_events.
    fold (warned st). cbn [snd].
    rewrite (bool_decide_eq_false_2 (EvWarn ∈ [EvListDel pg]))
      by (intros [?|?%elem_of_nil]%elem_of_cons; done).
    by destruct (warned st), (unexpected r). }
  destruct (IH (if decide (r ≠ 0) then secs ++ [pg] else secs) st1 Hz')
    as (Hz2 & He2 & c & Hc & Htr2 & Hs2).
  split; [done|]. split; [congruence|].
  exists ((pg, r) :: c). split; [by rewrite fmap_cons, Hc|].
  split.
  - rewrite Htr2, Htr', Hw1. cbn [calls_events fst snd]. by rewrite <- !app_assoc.
  - rewrite Hs2. unfold failed_pages. rewrite filter_cons. cbn [snd].
    destruct (decide (r ≠ 0)); [by rewrite <- app_assoc|done].
Qed.

Lemma release_pass3_calls secs (st : kstate HW) :
  let res := (release_pass3 P secs st).2 in
  epc res = epc st ∧
  ∃ c : list (sgx_epc_page * Z),
    c.*1 = virt_epc_zombie_pages st ∧
    trace res = trace st ++ EvMutexLock :: calls_events P true (warned st) c
                  ++ (if decide (secs ++ failed_pages c ≠ [])
                      then [EvListSplice (secs ++ failed_pages c)] else [])
                  ++ [EvMutexUnlock] ∧
    virt_epc_zombie_pages res = secs ++ failed_pages c.
Proof.
  intros res. subst res. unfold release_pass3, kbind.
  set (st3 := (emit EvMutexLock st).2).
  change (emit EvMutexLock st) with (tt, st3). cbv beta iota.
  assert (Hw3 : warned st3 = warned st) by (by apply warned_snoc).
  destruct (release_pass3_walk_calls (virt_epc_zombie_pages st3) secs st3 eq_refl)
    as (Hz3 & He3 & c & Hc & Htr3 & Hs3).
  destruct (release_pass3_walk P (virt_epc_zombie_pages st3) secs st3) as [secs' st4].
  cbn [fst snd] in *. subst secs'. rewrite Hw3 in Htr3.
  assert (Hcommon : trace st4
                    = trace st ++ EvMutexLock :: calls_events P true (warned st) c).
  { rewrite Htr3. subst st3. cbn [emit snd trace]. by rewrite <- app_assoc. }
  destruct (decide (secs ++ failed_pages c ≠ [])) as [Hne|Hne];
    unfold call_list_splice_tail, kret, emit;
    cbn [fst snd epc trace virt_epc_zombie_pages].
  - split; [by rewrite He3|]. exists c. split; [done|].
    rewrite Hcommon, Hz3, <- !app_assoc. by case_decide.
  - split; [by rewrite He3|]. exists c. split; [done|].
    case_decide; [done|]. apply dec_stable in Hne.
    rewrite Hcommon, Hz3, Hne, <- !app_assoc. done.
Qed.

(** The second loop meets the entries the first loop could not free. *)
Lemma release_pass2_entries (m : gmap Z sgx_epc_page)
    (v1 : list (Z * sgx_epc_page * Z)) (vis2 : list (Z * sgx_epc_page)) :
  v1.*1 ≡ₚ map_to_list m → StronglySorted key_lt v1.*1 →
  vis2 ≡ₚ map_to_list (filter (λ kv, kv.1 ∉ done_keys v1) m) →
  StronglySorted key_lt vis2 →
  vis2 = (visit_failed v1).*1.
Proof.
  intros Hperm1 Hs1 Hperm2 Hs2.
  assert (Hnd1 : NoDup (v1.*1.*1)).
  { rewrite Hperm1. apply NoDup_fst_map_to_list. }
  apply (StronglySorted_unique key_lt); [done|by apply StronglySorted_fmap_filter|].
  rewrite Hperm2. apply NoDup_Permutation.
  - apply NoDup_map_to_list.
  - unfold visit_failed. apply (sublist_NoDup _ (v1.*1)).
    + rewrite Hperm1. apply NoDup_map_to_list.
    + apply fmap_sublist, sublist_filter.
  - intros [k e]. rewrite elem_of_map_to_list, map_lookup_filter_Some. cbn [fst].
    unfold visit_failed, done_keys. split.
    + intros [Hm Hnd].
      apply elem_of_map_to_list in Hm. rewrite <- Hperm1 in Hm.
      apply list_elem_of_fmap in Hm as ([[k' e'] r] & [= <- <-] & Hin).
      apply list_elem_of_fmap. exists (k, e, r). split; [done|].
      apply list_elem_of_filter. split; [|done]. cbn [snd]. intros ->.
      apply Hnd. apply list_elem_of_fmap. exists (k, e). split; [done|].
      apply list_elem_of_fmap. exists (k, e, 0). split; [done|].
      by apply list_elem_of_filter.
    + intros ([[k' e'] r] & [= <- <-] & [Hr Hin]%list_elem_of_filter)%list_elem_of_fmap.
      cbn [snd] in Hr. split.
      * apply elem_of_map_to_list. rewrite <- Hperm1.
        apply list_elem_of_fmap. by exists (k, e, r).
      * intros ([k2 e2] & Hk & ([[k3 e3] r3] & [= <- <-] & [Hr3 Hin3]%list_elem_of_filter)
                  %list_elem_of_fmap)%list_elem_of_fmap.
        cbn [fst snd] in Hk, Hr3. subst k2 r3.
        assert (Heq : (k, e, r) = (k, e2, 0)).
        { apply (NoDup_fmap_inj_on (fst ∘ fst) v1); try done.
          by rewrite list_fmap_compose. }
        congruence.
Qed.

(** What the calls of a row allocate and free. *)
Lemma calls_no_alloc_no_free (u w : bool) (c : list (sgx_epc_page * Z)) :
  allocated (calls_events P u w c) = [] ∧ freed (calls_events P u w c) = [] ∧
  alloc_calls (calls_events P u w c) = [] ∧ mm_events (calls_events P u w c) = [].
Proof.
  revert w. induction c as [|[pg r] c IH]; intros w; [done|].
  destruct (IH (w || unexpected r)) as (IHa & IHf & IHc & IHm).
  cbn [calls_events fst snd].
  rewrite !allocated_app, !freed_app, !alloc_calls_app, !mm_events_app, IHa, IHf, IHc, IHm.
  unfold free_page_events. cbn [fst snd].
  destruct u, w; repeat case_decide; done.
Qed.

Lemma calls_raw_freed (u w : bool) (c : list (sgx_epc_page * Z)) :
  raw_freed (calls_events P u w c) ++ failed_pages c ≡ₚ c.*1.
Proof.
  revert w. induction c as [|[pg r] c IH]; intros w; [done|].
  cbn [calls_events fst snd]. rewrite !raw_freed_app, fmap_cons.
  unfold failed_pages in *. rewrite filter_cons. cbn [fst snd].
  assert (Hpre : raw_freed (if u then [EvListDel pg] else []) = []) by (by destruct u).
  rewrite Hpre. cbn [app]. unfold free_page_events. cbn [fst snd].
  destruct (decide (r = 0)) as [->|Hr].
  - destruct (decide (0 ≠ 0)); [done|]. cbn. constructor. apply IH.
  - destruct (decide (r ≠ 0)); [|done].
    assert (Hnone : raw_freed (EvEremove (sgx_get_epc_virt_addr P pg) r
                     :: (if decide (r ≠ SGX_CHILD_PRESENT)
                         then (if w then [] else [EvWarn]) else [])) = [])
      by (destruct w; by case_decide).
    rewrite Hnone, fmap_cons. cbn [app fst].
    rewrite <- Permutation_middle. constructor. apply IH.
Qed.

Lemma visit_call_pages (v : list (Z * sgx_epc_page * Z)) :
  (visit_call <$> v).*1 = v.*1.*2.
Proof. induction v as [|[[k e] r] v IH]; [done|]. cbn. by f_equal. Qed.

Lemma visit_failed_pages (v : list (Z * sgx_epc_page * Z)) :
  failed_pages (visit_call <$> v) = (visit_failed v).*1.*2.
Proof.
  unfold failed_pages, visit_failed.
  induction v as [|[[k e] r] v IH]; [done|].
  rewrite fmap_cons, !filter_cons. cbn [visit_call fst snd].
  destruct (decide (r ≠ 0)); [|done]. rewrite !fmap_cons. cbn [fst snd]. by f_equal.
Qed.

(** The writes to the zombie list in the calls of a row. *)
Lemma calls_registry_free (w : bool) (c : list (sgx_epc_page * Z)) :
  Forall (λ e, is_registry_event e = false) (calls_events P false w c).
Proof.
  revert w. induction c as [|[pg r] c IH]; intros w; [constructor|].
  cbn [calls_events fst snd app]. apply Forall_app. split; [|apply IH].
  unfold free_page_events. cbn [fst snd].
  destruct w; repeat case_decide; by repeat constructor.
Qed.

Lemma calls_mutex_free (u w : bool) (c : list (sgx_epc_page * Z)) :
  Forall (λ e, is_mutex_event e = false) (calls_events P u w c).
Proof.
  revert w. induction c as [|[pg r] c IH]; intros w; [constructor|].
  cbn [calls_events fst snd]. rewrite !Forall_app. split; [|split; [|apply IH]].
  - destruct u; by repeat constructor.
  - unfold free_page_events. cbn [fst snd].
    destruct w; repeat case_decide; by repeat constructor.
Qed.

Lemma zombie_replay_app (tr1 tr2 : list event) (l : list sgx_epc_page) :
  zombie_replay (tr1 ++ tr2) l = zombie_replay tr2 (zombie_replay tr1 l).
Proof.
  revert l. induction tr1 as [|e tr1 IH]; intros l; [done|].
  destruct e; cbn [app zombie_replay]; apply IH.
Qed.

Lemma zombie_replay_calls (w : bool) (c : list (sgx_epc_page * Z)) :
  zombie_replay (calls_events P true w c) c.*1 = [].
Proof.
  revert w. induction c as [|[pg r] c IH]; intros w; [done|].
  cbn [calls_events fst snd app fmap list_fmap zombie_replay].
  rewrite list_del_head, zombie_replay_app.
  assert (Hsame : ∀ l, zombie_replay (free_page_events P w (pg, r)) l = l).
  { intros l. unfold free_page_events. cbn [fst snd].
    destruct w; repeat case_decide; done. }
  rewrite Hsame. apply IH.
Qed.

Lemma calls_unlinked (w : bool) (c : list (sgx_epc_page * Z)) (p : sgx_epc_page) :
  EvListDel p ∈ calls_events P true w c → p ∈ c.*1.
Proof.
  revert w. induction c as [|[pg r] c IH]; intros w; [by intros ?%elem_of_nil|].
  cbn [calls_events fst snd app fmap list_fmap].
  intros [Hp|[Hp|Hp]%elem_of_app]%elem_of_cons.
  - injection Hp as ->. by left.
  - exfalso. unfold free_page_events in Hp. cbn [fst snd] in Hp.
    apply elem_of_cons in Hp as [?|Hp]; [done|].
    destruct w; repeat case_decide;
      repeat (apply elem_of_cons in Hp as [?|Hp]; [done|]); by apply elem_of_nil in Hp.
  - right. by eapply IH.
Qed.

End ReleaseCalls.

(** The release path as a whole. *)
Lemma release_run_calls {HW} (P : platform HW) (st : kstate HW) :
  xa_index_ok (page_array (epc st)) →
  ∃ st' (v1 v2 : list (Z * sgx_epc_page * Z)) (c3 : list (sgx_epc_page * Z)),
    sgx_virt_epc_release P st = Some (0, st') ∧
    v1.*1 ≡ₚ map_to_list (page_array (epc st)) ∧ StronglySorted key_lt v1.*1 ∧
    v2.*1 = (visit_failed v1).*1 ∧
    c3.*1 = virt_epc_zombie_pages st ∧
    trace st' = trace st ++ EvMmdrop (mm (epc st))
                  :: calls_events P false (warned st) (visit_call <$> v1 ++ v2)
                  ++ EvMutexLock
                  :: calls_events P true
                       (warned st || any_unexpected (visit_call <$> v1 ++ v2)) c3
                  ++ (if decide (virt_epc_zombie_pages st' ≠ [])
                      then [EvListSplice (virt_epc_zombie_pages st')] else [])
                  ++ [EvMutexUnlock; EvKfree (epc_id (epc st))] ∧
    virt_epc_zombie_pages st' = failed_pages (visit_call <$> v2) ++ failed_pages c3 ∧
    page_array (epc st') = ∅.
Proof.
  intros Hwf. unfold sgx_virt_epc_release.
  set (st0 := (emit (EvMmdrop (mm (epc st))) st).2).
  change (emit (EvMmdrop (mm (epc st))) st) with (tt, st0).
  cbv beta iota.
  assert (Hw0 : warned st0 = warned st) by (by apply warned_snoc).
  destruct (release_pass1_calls P st0 Hwf)
    as (st1 & v1 & Hrun1 & Hperm1 & Hs1 & Htr1 & Htbl1 & Hz1 & Hid1).
  rewrite Hrun1. cbn [mbind option_bind].
  assert (Hwf1 : xa_index_ok (page_array (epc st1))).
  { rewrite Htbl1. intros k x [Hk _]%map_lookup_filter_Some. by apply (Hwf k x). }
  destruct (release_pass2_calls P st1 Hwf1)
    as (secs & st2 & v2 & Hrun2 & Hperm2 & Hs2 & Htr2 & Hsecs & Hz2 & Hid2 & Hmm2).
  assert (Hempty : page_array (epc st2) = ∅).
  { destruct (xa_for_each_rule (release_pass2_body P) (release_inv st1) true
                (λ index entry l s, release_pass2_body_ok P st1 index entry l s) [] st1
                (release_inv_init st1))
      as (secs' & st2' & Hrun2' & _ & _ & He).
    rewrite Hrun2 in Hrun2'. injection Hrun2' as _ <-. by apply He. }
  rewrite Hrun2. cbn [mbind option_bind].
  pose proof (warned_after P false _ st0 st1 Htr1) as Hw1.
  pose proof (warned_after P false _ st1 st2 Htr2) as Hw2.
  destruct (release_pass3_calls P secs st2) as (He3 & c3 & Hc3 & Htr3 & Hz3).
  destruct (release_pass3 P secs st2) as [[] st5]. cbn [snd] in *.
  cbn [emit fst snd epc trace virt_epc_zombie_pages hw].
  exists (KState (epc st5) (virt_epc_zombie_pages st5)
                 (trace st5 ++ [EvKfree (epc_id (epc st5))]) (hw st5)), v1, v2, c3.
  split; [done|]. split; [done|]. split; [done|].
  split; [rewrite Htbl1 in Hperm2; by apply (release_pass2_entries (page_array (epc st0)) v1)|].
  split; [by rewrite Hc3, Hz2, Hz1|].
  cbn [trace virt_epc_zombie_pages epc].
  split; [|split; [by rewrite Hz3, Hsecs|by rewrite He3]].
  rewrite Htr3, Htr2, Htr1, He3, Hid2, Hid1, Hz3, Hw2, Hw1, Hw0.
  subst st0. cbn [emit snd trace epc].
  rewrite fmap_app, calls_events_app, any_unexpected_app, orb_assoc, <- !app_assoc.
  cbn [app]. by rewrite <- !app_assoc.
Qed.

(** X12: the release path, call by call.  Between the mmdrop and the
    kfree it calls sgx_virt_epc_free_page once on every entry of the
    table in ascending index order; then once more, in the same order,
    on exactly the entries whose first call did not return 0; then,
    between mutex_lock and mutex_unlock of virt_epc_lock, once on every
    page of the zombie list in list order, each after its list_del; and
    before the unlock it splices what is left back, unless nothing is.
    Each call is an EREMOVE, followed by the return of the page to the
    allocator when it gave 0; the first call that gives anything but 0
    or SGX_CHILD_PRESENT is followed by the warning, unless it was
    given before the release.  The zombie list left behind is the pages
    that failed in the second round, in index order, followed by the
    zombies that failed again, in their old order. *)
Theorem release_call_by_call {HW} (P : platform HW) (st : kstate HW) :
  xa_index_ok (page_array (epc st)) →
  ∃ st' (v1 v2 : list (Z * sgx_epc_page * Z)) (c3 : list (sgx_epc_page * Z)),
    sgx_virt_epc_release P st = Some (0, st') ∧
    v1.*1 ≡ₚ map_to_list (page_array (epc st)) ∧ StronglySorted key_lt v1.*1 ∧
    v2.*1 = (visit_failed v1).*1 ∧
    c3.*1 = virt_epc_zombie_pages st ∧
    trace st' = trace st ++ EvMmdrop (mm (epc st))
                  :: calls_events P false (warned st) (visit_call <$> v1 ++ v2)
                  ++ EvMutexLock
                  :: calls_events P true
                       (warned st || any_unexpected (visit_call <$> v1 ++ v2)) c3
                  ++ (if decide (virt_epc_zombie_pages st' ≠ [])
                      then [EvListSplice (virt_epc_zombie_pages st')] else [])
                  ++ [EvMutexUnlock; EvKfree (epc_id (epc st))] ∧
    virt_epc_zombie_pages st' = failed_pages (visit_call <$> v2) ++ failed_pages c3.
Proof.
  intros Hwf.
  destruct (release_run_calls P st Hwf)
    as (st' & v1 & v2 & c3 & Hrun & Hp & Hs & Hv2 & Hc3 & Htr & Hz & _).
  by exists st', v1, v2, c3.
Qed.

(** The release of a region whose entry 0 is a SECS page with its child
    at entry 1. *)
Lemma release_call_by_call_witness :
  ∃ st' (v1 v2 : list (Z * sgx_epc_page * Z)) (c3 : list (sgx_epc_page * Z)),
    sgx_virt_epc_release sim_platform sim_secs_first = Some (0, st') ∧
    v1.*1 ≡ₚ map_to_list (page_array (epc sim_secs_first)) ∧
    StronglySorted key_lt v1.*1 ∧
    v2.*1 = (visit_failed v1).*1 ∧
    c3.*1 = virt_epc_zombie_pages sim_secs_first ∧
    trace st' = trace sim_secs_first ++ EvMmdrop (mm (epc sim_secs_first))
                  :: calls_events sim_platform false (warned sim_secs_first)
                       (visit_call <$> v1 ++ v2)
                  ++ EvMutexLock
                  :: calls_events sim_platform true
                       (warned sim_secs_first
                        || any_unexpected (visit_call <$> v1 ++ v2)) c3
                  ++ (if decide (virt_epc_zombie_pages st' ≠ [])
                      then [EvListSplice (virt_epc_zombie_pages st')] else [])
                  ++ [EvMutexUnlock; EvKfree (epc_id (epc sim_secs_first))] ∧
    virt_epc_zombie_pages st' = failed_pages (visit_call <$> v2) ++ failed_pages c3.
Proof.
  apply (release_call_by_call sim_platform sim_secs_first).
  unfold xa_index_ok. refine (bool_decide_unpack _ _). vm_compute. exact I.
Defined.

(** ** The zombie list and its lock *)

Lemma app_split_notin {A : Type} (l1 l2 tra trb : list A) (x : A) :
  x ∉ l1 → l1 ++ l2 = tra ++ x :: trb → ∃ tra', tra = l1 ++ tra' ∧ l2 = tra' ++ x :: trb.
Proof.
  revert tra. induction l1 as [|y l1 IH]; intros tra Hx Heq.
  - by exists tra.
  - destruct tra as [|z tra]; cbn [app] in Heq.
    + injection Heq as -> _. exfalso. apply Hx. by left.
    + injection Heq as -> Heq. destruct (IH tra) as (tra' & -> & ->); [|done|].
      * intros ?. apply Hx. by right.
      * by exists tra'.
Qed.

(** A page unlinked in the third loop is given to the allocator or
    spliced back further on in the row. *)
Lemma calls_relinked {HW} (P : platform HW) (w : bool) (c : list (sgx_epc_page * Z))
    (secs : list sgx_epc_page) (tra trb : list event) (p : sgx_epc_page) :
  calls_events P true w c
    ++ (if decide (secs ++ failed_pages c ≠ [])
        then [EvListSplice (secs ++ failed_pages c)] else [])
  = tra ++ EvListDel p :: trb →
  EvRawFree p ∈ trb ∨ ∃ l, EvListSplice l ∈ trb ∧ p ∈ l.
Proof.
  revert w secs tra. induction c as [|[pg r] c IH]; intros w secs tra Heq.
  - cbn [calls_events app] in Heq. case_decide; destruct tra as [|? [|? ?]]; done.
  - assert (Hf : secs ++ failed_pages ((pg, r) :: c)
                 = (if decide (r ≠ 0) then secs ++ [pg] else secs) ++ failed_pages c).
    { unfold failed_pages. rewrite filter_cons. cbn [snd].
      destruct (decide (r ≠ 0)); [|done].
      rewrite fmap_cons. cbn [fst]. by rewrite <- app_assoc. }
    cbn [calls_events fst snd app] in Heq. rewrite Hf in Heq. clear Hf.
    assert (Hfpe : (EvListDel p ∉ free_page_events P w (pg, r))
                   ∧ (r = 0 → EvRawFree pg ∈ free_page_events P w (pg, r))).
    { unfold free_page_events. cbn [fst snd]. split.
      - intros [?|Hin]%elem_of_cons; [done|].
        destruct w; repeat case_decide;
          repeat (apply elem_of_cons in Hin as [?|Hin]; [done|]);
          by apply elem_of_nil in Hin.
      - intros ->. rewrite decide_True by done.
        apply elem_of_cons. right. by apply elem_of_cons; left. }
    destruct Hfpe as [Hnot Hfree].
    set (fpe := free_page_events P w (pg, r)) in *. clearbody fpe.
    rewrite <- !app_assoc in Heq.
    destruct tra as [|e tra]; cbn [app] in Heq.
    + injection Heq as Hp Htrb. subst pg. clear IH. rewrite <- Htrb.
      destruct (decide (r = 0)) as [Hr|Hr].
      * left. apply elem_of_app. left. by apply Hfree.
      * right. rewrite (decide_True (P := r ≠ 0)) by done.
        exists ((secs ++ [p]) ++ failed_pages c). split.
        -- rewrite !elem_of_app. right. right. rewrite decide_True.
           ++ by apply elem_of_cons; left.
           ++ by destruct secs.
        -- rewrite !elem_of_app. left. right. by apply elem_of_cons; left.
    + injection Heq as <- Heq.
      apply app_split_notin in Heq as (tra' & -> & Heq); [by eapply IH|done].
Qed.

(** C1: a release call returns 0 with the table empty, and the pages
    it handed to the page allocator together with the zombie list it
    leaves behind are, as multisets, the pages the table owned plus the
    zombie list it found: nothing is dropped, nothing is duplicated.
    When no handle occurs twice on entry (a handle has one owner), each
    of them ends up freed by this call or on the zombie list, never
    both, and is freed at most once.  The zombie list is written only
    while virt_epc_lock is held: after the mmdrop the call touches
    neither the lock nor the list until its one mutex_lock, it ends
    with the one mutex_unlock and the kfree of the region, and the list
    left behind is the list found with the list_del and list_splice_tail
    calls made in between applied to it.  Every list_del of that stretch
    is followed, still before the unlock, by the return of that page to
    the allocator or by a list_splice_tail that puts it back. *)
Theorem release_accounts_for_every_page {HW} (P : platform HW) (st : kstate HW) :
  xa_index_ok (page_array (epc st)) →
  ∃ st' tr,
    sgx_virt_epc_release P st = Some (0, st') ∧
    trace st' = trace st ++ tr ++ [EvMutexUnlock; EvKfree (epc_id (epc st))] ∧
    page_array (epc st') = ∅ ∧
    raw_freed tr ++ virt_epc_zombie_pages st'
      ≡ₚ xa_pages (page_array (epc st)) ++ virt_epc_zombie_pages st ∧
    (NoDup (xa_pages (page_array (epc st)) ++ virt_epc_zombie_pages st) →
     NoDup (raw_freed tr ++ virt_epc_zombie_pages st') ∧
     ∀ pg, pg ∈ xa_pages (page_array (epc st)) ∨ pg ∈ virt_epc_zombie_pages st →
       (pg ∈ raw_freed tr ∧ pg ∉ virt_epc_zombie_pages st') ∨
       ((pg ∉ raw_freed tr) ∧ pg ∈ virt_epc_zombie_pages st')) ∧
    ∃ tr12 tr3,
      tr = EvMmdrop (mm (epc st)) :: tr12 ++ EvMutexLock :: tr3 ∧
      Forall (λ e, is_registry_event e = false) tr12 ∧
      Forall (λ e, is_mutex_event e = false) tr3 ∧
      virt_epc_zombie_pages st' = zombie_replay tr3 (virt_epc_zombie_pages st) ∧
      ∀ tra trb p, tr3 = tra ++ EvListDel p :: trb →
        EvRawFree p ∈ trb ∨ ∃ l, EvListSplice l ∈ trb ∧ p ∈ l.
Proof.
  intros Hwf.
  destruct (release_run_calls P st Hwf)
    as (st' & v1 & v2 & c3 & Hrun & Hperm1 & _ & Hv2 & Hc3 & Htr & Hz & Hempty).
  rewrite fmap_app, calls_events_app in Htr.
  set (c1 := visit_call <$> v1) in *. set (c2 := visit_call <$> v2) in *.
  set (w1 := warned st) in *. set (w2 := w1 || any_unexpected c1) in *.
  set (w3 := w1 || any_unexpected (c1 ++ c2)) in *.
  set (tr12 := calls_events P false w1 c1 ++ calls_events P false w2 c2) in *.
  set (tr3 := calls_events P true w3 c3
              ++ (if decide (virt_epc_zombie_pages st' ≠ [])
                  then [EvListSplice (virt_epc_zombie_pages st')] else [])).
  set (tr := EvMmdrop (mm (epc st)) :: tr12 ++ EvMutexLock :: tr3).
  assert (Hshape : tr = [EvMmdrop (mm (epc st))]
                     ++ calls_events P false w1 c1 ++ calls_events P false w2 c2
                     ++ [EvMutexLock] ++ calls_events P true w3 c3
                     ++ (if decide (virt_epc_zombie_pages st' ≠ [])
                         then [EvListSplice (virt_epc_zombie_pages st')] else [])).
  { unfold tr, tr12, tr3. cbn [app]. by rewrite <- app_assoc. }
  assert (Hraw : raw_freed tr = raw_freed (calls_events P false w1 c1)
                   ++ raw_freed (calls_events P false w2 c2)
                   ++ raw_freed (calls_events P true w3 c3)).
  { rewrite Hshape, !raw_freed_app. cbn [raw_freed omap app].
    case_decide; cbn [omap]; by rewrite app_nil_r. }
  assert (H1 : raw_freed (calls_events P false w1 c1) ++ failed_pages c1
               ≡ₚ xa_pages (page_array (epc st))).
  { rewrite calls_raw_freed. unfold c1, xa_pages. by rewrite visit_call_pages, Hperm1. }
  assert (H2 : raw_freed (calls_events P false w2 c2) ++ failed_pages c2
               ≡ₚ failed_pages c1).
  { rewrite calls_raw_freed. unfold c1, c2.
    by rewrite visit_call_pages, visit_failed_pages, Hv2. }
  assert (H3 : raw_freed (calls_events P true w3 c3) ++ failed_pages c3
               ≡ₚ virt_epc_zombie_pages st).
  { by rewrite calls_raw_freed, Hc3. }
  assert (Hperm : raw_freed tr ++ virt_epc_zombie_pages st'
                  ≡ₚ xa_pages (page_array (epc st)) ++ virt_epc_zombie_pages st).
  { by rewrite Hz, Hraw, perm_pair_up, H2, H3, app_assoc, H1. }
  exists st', tr. split; [done|]. split; [|split; [done|split; [done|split]]].
  - rewrite Htr. unfold tr, tr12, tr3. cbn [app]. rewrite <- !app_assoc. cbn [app].
    by rewrite <- !app_assoc.
  - intros Hnd. assert (Hnd' := Hnd). rewrite <- Hperm in Hnd'.
    split; [done|]. intros pg Hpg.
    assert (Hin : pg ∈ raw_freed tr ++ virt_epc_zombie_pages st')
      by (rewrite Hperm; by apply elem_of_app).
    apply NoDup_app in Hnd' as (_ & Hdisj & _).
    apply elem_of_app in Hin as [Hin|Hin].
    + left. split; [done|]. by apply Hdisj.
    + right. split; [|done]. intros Hf. by apply (Hdisj pg).
  - exists tr12, tr3. split; [done|].
    split; [apply Forall_app; split; apply calls_registry_free|].
    split.
    { apply Forall_app. split; [apply calls_mutex_free|].
      case_decide; by repeat constructor. }
    split.
    { unfold tr3. rewrite zombie_replay_app, <- Hc3, zombie_replay_calls.
      destruct (decide (virt_epc_zombie_pages st' ≠ [])) as [Hne|Hne]; [done|].
      by apply dec_stable in Hne. }
    intros tra trb p Heq. unfold tr3 in Heq. rewrite Hz in Heq.
    by apply (calls_relinked P w3 c3 (failed_pages c2) tra trb p).
Qed.

(** Release of region A of the end-to-end scenario: the table is
    emptied and every page is accounted for. *)
Lemma release_accounts_for_every_page_witness :
  xa_index_ok (page_array (epc sim_region_a)) ∧
  ∃ st' tr,
    sgx_virt_epc_release sim_platform sim_region_a = Some (0, st') ∧
    page_array (epc st') = ∅ ∧
    raw_freed tr ++ virt_epc_zombie_pages st'
      ≡ₚ xa_pages (page_array (epc sim_region_a)) ++ virt_epc_zombie_pages sim_region_a.
Proof.
  assert (Hok : xa_index_ok (page_array (epc sim_region_a)))
    by (unfold xa_index_ok; refine (bool_decide_unpack _ _); vm_compute; exact I).
  split; [exact Hok|].
  destruct (release_accounts_for_every_page sim_platform sim_region_a Hok)
    as (st' & tr & Hrun & _ & Hempty & Hperm & _).
  exists st', tr. exact (conj Hrun (conj Hempty Hperm)).
Defined.

(** ** The table and the page frames installed *)

Lemma installs_app tr1 tr2 : installs (tr1 ++ tr2) = installs tr1 ++ installs tr2.
Proof. apply omap_app. Qed.

Section FaultInstalls.
Context {HW : Type} (P : platform HW).

Lemma fault_inner_installs vma addr (st : kstate HW) :
  let idx := sgx_virt_epc_calc_index vma addr in
  let r := __sgx_virt_epc_fault P vma addr st in
  ∃ tr, trace r.2 = trace st ++ tr ∧ raw_freed tr = [] ∧
    (page_array (epc r.2) = page_array (epc st) ∧ installs tr = []
     ∨ page_array (epc st) !! idx = None ∧
       ∃ pg, page_array (epc r.2) = <[idx := pg]> (page_array (epc st)) ∧
             installs tr = [(vma, addr, PFN_DOWN (sgx_get_epc_phys_addr P pg))]).
Proof.
  intros idx r. subst r. unfold __sgx_virt_epc_fault. fold idx. unfold_m. unfold_m.
  destruct (page_array (epc st) !! idx) as [pg|] eqn:Hidx; kcbn.
  { exists []. rewrite app_nil_r. split; [done|]. split; [done|]. by left. }
  destruct (sgx_alloc_epc_page P (hw st)) as [[err|pg] h1] eqn:Ha; kcbn.
  { eexists. split; [done|]. split; [done|]. by left. }
  destruct (xa_store_err P idx pg h1) as [e h2] eqn:Hs; kcbn.
  destruct (decide (e = 0)) as [->|He]; kcbn.
  - destruct (decide (0 ≠ 0)); [done|]. kcbn.
    destruct (vmf_insert_pfn P vma addr _ h2) as [ri h3] eqn:Hi; kcbn.
    destruct (decide (ri ≠ VM_FAULT_NOPAGE)) as [Hri|Hri]; kcbn.
    + eexists. split; [by rewrite <- !app_assoc|]. split; [done|]. left. split.
      { rewrite delete_insert_eq. by apply delete_id. }
      cbn. by destruct (decide (ri = VM_FAULT_NOPAGE)).
    + apply dec_stable in Hri. subst ri.
      eexists. split; [by rewrite <- !app_assoc|]. split; [done|]. right.
      split; [done|]. exists pg. split; [done|]. cbn.
      by destruct (decide (VM_FAULT_NOPAGE = VM_FAULT_NOPAGE)).
  - destruct (decide (e ≠ 0)); [|done]. kcbn.
    eexists. split; [by rewrite <- !app_assoc|]. split; [done|]. by left.
Qed.

Lemma fault_callback_installs (vmf : vm_fault) (st : kstate HW) :
  let idx := sgx_virt_epc_calc_index (vmf_vma vmf) (vmf_address vmf) in
  let st' := (sgx_virt_epc_fault P vmf st).2 in
  ∃ tr, trace st' = trace st ++ tr ∧ raw_freed tr = [] ∧
    (page_array (epc st') = page_array (epc st) ∧ installs tr = []
     ∨ page_array (epc st) !! idx = None ∧
       ∃ pg, page_array (epc st') = <[idx := pg]> (page_array (epc st)) ∧
             installs tr = [(vmf_vma vmf, vmf_address vmf,
                             PFN_DOWN (sgx_get_epc_phys_addr P pg))]).
Proof.
  intros idx st'. subst st'. rewrite fault_outer_unfold.
  pose proof (fault_inner_installs (vmf_vma vmf) (vmf_address vmf) (emit EvDownWrite st).2)
    as (tr & Htr & Hraw & Hcases).
  fold idx in Hcases.
  destruct (__sgx_virt_epc_fault P _ _ _) as [ret st1]. cbn [fst snd] in *.
  cbn [emit snd trace epc virt_epc_zombie_pages hw] in *.
  assert (Hstep : ∀ e, installs e = [] → raw_freed e = [] →
    ∃ tr0, (trace st ++ [EvDownWrite]) ++ tr ++ [EvUpWrite] ++ e = trace st ++ tr0 ∧
      raw_freed tr0 = [] ∧
      (page_array (epc st1) = page_array (epc st) ∧ installs tr0 = []
       ∨ page_array (epc st) !! idx = None ∧
         ∃ pg, page_array (epc st1) = <[idx := pg]> (page_array (epc st)) ∧
               installs tr0 = [(vmf_vma vmf, vmf_address vmf,
                                PFN_DOWN (sgx_get_epc_phys_addr P pg))])).
  { intros e He Hre. exists ([EvDownWrite] ++ tr ++ [EvUpWrite] ++ e).
    split; [by rewrite <- !app_assoc|].
    rewrite !raw_freed_app, !installs_app, Hraw, He, Hre. cbn [raw_freed installs omap app].
    rewrite !app_nil_r. split; [done|]. done. }
  destruct (decide (ret = 0)) as [H0|H0];
    [|destruct (signal_pending P (hw st1));
      [|destruct (decide (ret = - EBUSY ∧ _)) as [Hb|Hb]]];
    cbn [fst snd trace epc virt_epc_zombie_pages emit]; rewrite Htr.
  - destruct (Hstep [] eq_refl eq_refl) as (tr0 & E & ?).
    exists tr0. rewrite <- E. by rewrite !app_nil_r, <- !app_assoc.
  - destruct (Hstep [] eq_refl eq_refl) as (tr0 & E & ?).
    exists tr0. rewrite <- E. by rewrite !app_nil_r, <- !app_assoc.
  - destruct (Hstep [EvMmapReadUnlock] eq_refl eq_refl) as (tr0 & E & ?).
    exists tr0. rewrite <- E. by rewrite <- !app_assoc.
  - destruct (Hstep [] eq_refl eq_refl) as (tr0 & E & ?).
    exists tr0. rewrite <- E. by rewrite !app_nil_r, <- !app_assoc.
Qed.

Lemma fault_seq_installs_run (faults : list vm_fault) (st : kstate HW) :
  let st' := fault_seq P faults st in
  ∃ tr, trace st' = trace st ++ tr ∧ raw_freed tr = [] ∧
    page_array (epc st) ⊆ page_array (epc st') ∧
    (∀ k pg, page_array (epc st') !! k = Some pg →
       page_array (epc st) !! k = Some pg ∨
       ∃ vma addr, (vma, addr, PFN_DOWN (sgx_get_epc_phys_addr P pg)) ∈ installs tr ∧
                   sgx_virt_epc_calc_index vma addr = k) ∧
    (∀ vma addr pfn, (vma, addr, pfn) ∈ installs tr →
       page_array (epc st) !! sgx_virt_epc_calc_index vma addr = None ∧
       ∃ pg, page_array (epc st') !! sgx_virt_epc_calc_index vma addr = Some pg ∧
             pfn = PFN_DOWN (sgx_get_epc_phys_addr P pg)).
Proof.
  revert st. induction faults as [|vmf faults IH]; intros st; cbn [fault_seq foldl].
  { exists []. rewrite app_nil_r. split; [done|]. split; [done|]. split; [done|].
    split; [intros k pg Hk; by left|]. intros vma addr pfn Hin. by apply elem_of_nil in Hin. }
  destruct (fault_callback_installs vmf st) as (tr1 & Htr1 & Hraw1 & Hstep).
  destruct (IH (sgx_virt_epc_fault P vmf st).2) as (tr2 & Htr2 & Hraw2 & Hsub & Hfwd & Hback).
  fold (fault_seq P faults (sgx_virt_epc_fault P vmf st).2) in *.
  set (st1 := (sgx_virt_epc_fault P vmf st).2) in *.
  set (st' := fault_seq P faults st1) in *.
  exists (tr1 ++ tr2). split; [by rewrite Htr2, Htr1, <- app_assoc|].
  split; [by rewrite raw_freed_app, Hraw1, Hraw2|].
  destruct Hstep as [[Ht Hi]|(Hnone & pg1 & Ht & Hi)].
  - rewrite <- Ht. split; [done|]. rewrite installs_app, Hi. cbn [app]. done.
  - assert (Hsub1 : page_array (epc st) ⊆ page_array (epc st1)).
    { rewrite Ht. by apply insert_subseteq. }
    split; [by etrans|]. rewrite installs_app, Hi. split.
    + intros k pg Hk. destruct (Hfwd k pg Hk) as [H1|(vma & addr & Hin & Hidx)].
      * rewrite Ht in H1. apply lookup_insert_Some in H1 as [[<- <-]|[_ H1]]; [|by left].
        right. exists (vmf_vma vmf), (vmf_address vmf). split; [|done].
        apply elem_of_app. left. apply list_elem_of_singleton. done.
      * right. exists vma, addr. split; [|done]. apply elem_of_app. by right.
    + intros vma addr pfn [Hin|Hin]%elem_of_app.
      * apply list_elem_of_singleton in Hin. injection Hin as -> -> ->.
        split; [done|]. exists pg1. split; [|done].
        eapply lookup_weaken; [|exact Hsub]. rewrite Ht. apply lookup_insert_eq.
      * destruct (Hback vma addr pfn Hin) as (Hn & pg & Hpg & Hpfn).
        split; [by eapply lookup_weaken_None|]. by exists pg.
Qed.

End FaultInstalls.

(** X13: the table and the page tables stay in step.  Over any run of
    fault callbacks the table only grows; every entry it gains is a
    page whose frame number (of its physical address) vmf_insert_pfn
    installed at an address of that page index; and every frame
    vmf_insert_pfn installed is the frame of the page the table holds,
    at the end of the run, at the page index of the address it was
    installed at, an index that had no entry before. *)
Theorem fault_seq_table_matches_installs {HW} (P : platform HW)
    (faults : list vm_fault) (st : kstate HW) :
  let st' := fault_seq P faults st in
  ∃ tr, trace st' = trace st ++ tr ∧
    page_array (epc st) ⊆ page_array (epc st') ∧
    (∀ k pg, page_array (epc st') !! k = Some pg →
       page_array (epc st) !! k = Some pg ∨
       ∃ vma addr, (vma, addr, PFN_DOWN (sgx_get_epc_phys_addr P pg)) ∈ installs tr ∧
                   sgx_virt_epc_calc_index vma addr = k) ∧
    (∀ vma addr pfn, (vma, addr, pfn) ∈ installs tr →
       page_array (epc st) !! sgx_virt_epc_calc_index vma addr = None ∧
       ∃ pg, page_array (epc st') !! sgx_virt_epc_calc_index vma addr = Some pg ∧
             pfn = PFN_DOWN (sgx_get_epc_phys_addr P pg)).
Proof.
  intros st'. subst st'.
  destruct (fault_seq_installs_run P faults st) as (tr & Htr & _ & Hsub & Hfwd & Hback).
  by exists tr.
Qed.

(** ** From the first fault to the release *)

Section Lifecycle.
Context {HW : Type} (P : platform HW).

Lemma lifecycle_run (faults : list vm_fault) (st : kstate HW) :
  xa_index_ok (page_array (epc st)) →
  ∃ st2 trf trr,
    trace (fault_seq P faults st) = trace st ++ trf ∧
    sgx_virt_epc_release P (fault_seq P faults st) = Some (0, st2) ∧
    trace st2 = trace st ++ trf ++ trr ∧
    raw_freed trf = [] ∧ allocated trr = [] ∧ freed trr = [] ∧
    freed trf ++ raw_freed trr ++ virt_epc_zombie_pages st2
      ≡ₚ allocated trf ++ xa_pages (page_array (epc st)) ++ virt_epc_zombie_pages st.
Proof.
  intros Hwf.
  destruct (fault_seq_run P faults st) as (Hz & _ & _ & Hok & trf & Htrf & _ & Hacc).
  destruct (fault_seq_installs_run P faults st) as (trf' & Htrf' & Hraw & _).
  assert (trf' = trf) as -> by (apply (app_inv_head (trace st)); congruence).
  set (st1 := fault_seq P faults st) in *.
  destruct (release_run_calls P st1 (Hok Hwf))
    as (st2 & v1 & v2 & c3 & Hrun & Hperm1 & _ & Hv2 & Hc3 & Htr & Hz2 & _).
  rewrite fmap_app, calls_events_app in Htr.
  set (c1 := visit_call <$> v1) in *. set (c2 := visit_call <$> v2) in *.
  set (w1 := warned st1) in *. set (w2 := w1 || any_unexpected c1) in *.
  set (w3 := w1 || any_unexpected (c1 ++ c2)) in *.
  set (sp := if decide (virt_epc_zombie_pages st2 ≠ [])
             then [EvListSplice (virt_epc_zombie_pages st2)] else []) in *.
  set (trr := EvMmdrop (mm (epc st1))
                :: (calls_events P false w1 c1 ++ calls_events P false w2 c2)
                ++ EvMutexLock :: calls_events P true w3 c3
                ++ sp ++ [EvMutexUnlock; EvKfree (epc_id (epc st1))]) in *.
  assert (Hshape : trr = [EvMmdrop (mm (epc st1))]
                     ++ calls_events P false w1 c1 ++ calls_events P false w2 c2
                     ++ [EvMutexLock] ++ calls_events P true w3 c3
                     ++ sp ++ [EvMutexUnlock; EvKfree (epc_id (epc st1))]).
  { unfold trr. cbn [app]. by rewrite <- app_assoc. }
  assert (Hsp : allocated sp = [] ∧ freed sp = [] ∧ raw_freed sp = []).
  { unfold sp. by case_decide. }
  destruct Hsp as (Hsa & Hsf & Hsr).
  destruct (calls_no_alloc_no_free P false w1 c1) as (Ha1 & Hf1 & _).
  destruct (calls_no_alloc_no_free P false w2 c2) as (Ha2 & Hf2 & _).
  destruct (calls_no_alloc_no_free P true w3 c3) as (Ha3 & Hf3 & _).
  exists st2, trf, trr. split; [done|]. split; [done|].
  split; [by rewrite Htr, Htrf, <- app_assoc|]. split; [done|].
  split; [by rewrite Hshape, !allocated_app, Ha1, Ha2, Ha3, Hsa|].
  split; [by rewrite Hshape, !freed_app, Hf1, Hf2, Hf3, Hsf|].
  assert (Hr : raw_freed trr = raw_freed (calls_events P false w1 c1)
                 ++ raw_freed (calls_events P false w2 c2)
                 ++ raw_freed (calls_events P true w3 c3)).
  { rewrite Hshape, !raw_freed_app, Hsr. cbn [raw_freed omap app].
    by rewrite app_nil_r. }
  assert (H1 : raw_freed (calls_events P false w1 c1) ++ failed_pages c1
               ≡ₚ xa_pages (page_array (epc st1))).
  { rewrite calls_raw_freed. unfold c1, xa_pages. by rewrite visit_call_pages, Hperm1. }
  assert (H2 : raw_freed (calls_events P false w2 c2) ++ failed_pages c2
               ≡ₚ failed_pages c1).
  { rewrite calls_raw_freed. unfold c1, c2.
    by rewrite visit_call_pages, visit_failed_pages, Hv2. }
  assert (H3 : raw_freed (calls_events P true w3 c3) ++ failed_pages c3
               ≡ₚ virt_epc_zombie_pages st).
  { by rewrite calls_raw_freed, Hc3, Hz. }
  rewrite Hz2, Hr, perm_pair_up, H2, H3, (app_assoc _ (failed_pages c1)), H1.
  rewrite Permutation_app_swap_app, app_assoc, Hacc, <- app_assoc.
  apply Permutation_app_swap_app.
Qed.

End Lifecycle.

(** X14: from the first fault to the release no EPC page is lost or
    handed back twice.  After any run of fault callbacks followed by the
    release of the region, the pages the fault handler gave back on its
    error paths, the pages the release gave back, and the zombie list
    left behind are, as multisets, the pages the allocator handed out
    during the run, the pages the table held at the start and the zombie
    list found at the start.  The fault handler only uses
    sgx_free_epc_page, the release only __sgx_free_epc_page, and the
    release never allocates. *)
Theorem lifecycle_no_leak {HW} (P : platform HW) (faults : list vm_fault)
    (st : kstate HW) :
  xa_index_ok (page_array (epc st)) →
  ∃ st2 trf trr,
    trace (fault_seq P faults st) = trace st ++ trf ∧
    sgx_virt_epc_release P (fault_seq P faults st) = Some (0, st2) ∧
    trace st2 = trace st ++ trf ++ trr ∧
    raw_freed trf = [] ∧ allocated trr = [] ∧ freed trr = [] ∧
    freed trf ++ raw_freed trr ++ virt_epc_zombie_pages st2
      ≡ₚ allocated trf ++ xa_pages (page_array (epc st)) ++ virt_epc_zombie_pages st.
Proof. apply lifecycle_run. Qed.

(** Two faults on a fresh region with two free pages, then the release. *)
Lemma lifecycle_no_leak_witness :
  ∃ st2 trf trr,
    trace (fault_seq sim_platform [VmFault sim_vma 65536 0; VmFault sim_vma 69632 0]
             (sim_fresh [sim_page 0; sim_page 1] 0 VM_FAULT_NOPAGE false))
    = trace (sim_fresh [sim_page 0; sim_page 1] 0 VM_FAULT_NOPAGE false) ++ trf ∧
    sgx_virt_epc_release sim_platform
      (fault_seq sim_platform [VmFault sim_vma 65536 0; VmFault sim_vma 69632 0]
         (sim_fresh [sim_page 0; sim_page 1] 0 VM_FAULT_NOPAGE false)) = Some (0, st2) ∧
    trace st2
    = trace (sim_fresh [sim_page 0; sim_page 1] 0 VM_FAULT_NOPAGE false) ++ trf ++ trr ∧
    raw_freed trf = [] ∧ allocated trr = [] ∧ freed trr = [] ∧
    freed trf ++ raw_freed trr ++ virt_epc_zombie_pages st2
      ≡ₚ allocated trf
         ++ xa_pages (page_array
                        (epc (sim_fresh [sim_page 0; sim_page 1] 0 VM_FAULT_NOPAGE false)))
         ++ virt_epc_zombie_pages (sim_fresh [sim_page 0; sim_page 1] 0 VM_FAULT_NOPAGE false).
Proof.
  apply (lifecycle_no_leak sim_platform
           [VmFault sim_vma 65536 0; VmFault sim_vma 69632 0]
           (sim_fresh [sim_page 0; sim_page 1] 0 VM_FAULT_NOPAGE false)).
  unfold xa_index_ok. refine (bool_decide_unpack _ _). vm_compute. exact I.
Defined.

(** ** The address helpers of sgx.h *)

Lemma section_page_index {HW} (P : platform HW) (s n : Z) :
  0 ≤ n → SIZEOF_EPC_PAGE * n < 2 ^ 64 →
  wrap64 (page_desc (section_page P s n) - pages (sgx_epc_sections P (section (section_page P s n))))
    / SIZEOF_EPC_PAGE = n.
Proof.
  intros Hn Hmax. unfold section_page. cbn [page_desc section].
  replace (pages (sgx_epc_sections P s) + SIZEOF_EPC_PAGE * n - pages (sgx_epc_sections P s))
    with (SIZEOF_EPC_PAGE * n) by lia.
  unfold wrap64. rewrite Z.mod_small by (unfold SIZEOF_EPC_PAGE in *; lia).
  unfold SIZEOF_EPC_PAGE. rewrite Z.mul_comm. apply Z.div_mul. lia.
Qed.

(** X15: the descriptor in slot n of an EPC section stands for page n
    of the section, physically and in the kernel mapping: the helpers
    return the section's base address plus n pages, so an EPC page has
    the same offset from the section base in both address spaces, and
    the pages of two different slots of a section are at least a page
    apart: no two descriptors name overlapping EPC pages. *)
Theorem section_page_addresses {HW} (P : platform HW) (s n m : Z) :
  section_slot_ok P s n → section_slot_ok P s m →
  sgx_get_epc_phys_addr P (section_page P s n)
    = phys_addr (sgx_epc_sections P s) + PAGE_SIZE * n ∧
  sgx_get_epc_virt_addr P (section_page P s n)
    = virt_addr (sgx_epc_sections P s) + PAGE_SIZE * n ∧
  (n ≠ m →
   PAGE_SIZE ≤ Z.abs (sgx_get_epc_phys_addr P (section_page P s n)
                      - sgx_get_epc_phys_addr P (section_page P s m)) ∧
   PAGE_SIZE ≤ Z.abs (sgx_get_epc_virt_addr P (section_page P s n)
                      - sgx_get_epc_virt_addr P (section_page P s m))).
Proof.
  intros (Hn & Hdn & Hp & Hpn & Hv & Hvn) (Hm & Hdm & _ & Hpm & _ & Hvm).
  assert (Hphys : ∀ k, 0 ≤ k → SIZEOF_EPC_PAGE * k < 2 ^ 64 →
            phys_addr (sgx_epc_sections P s) + PAGE_SIZE * k < 2 ^ 64 →
            sgx_get_epc_phys_addr P (section_page P s k)
            = phys_addr (sgx_epc_sections P s) + PAGE_SIZE * k).
  { intros k Hk Hdk Hpk. unfold sgx_get_epc_phys_addr.
    rewrite section_page_index by done. cbn [section_page section].
    change PAGE_SIZE with 4096 in *. unfold wrap64. rewrite Z.mod_small; lia. }
  assert (Hvirt : ∀ k, 0 ≤ k → SIZEOF_EPC_PAGE * k < 2 ^ 64 →
            virt_addr (sgx_epc_sections P s) + PAGE_SIZE * k < 2 ^ 64 →
            sgx_get_epc_virt_addr P (section_page P s k)
            = virt_addr (sgx_epc_sections P s) + PAGE_SIZE * k).
  { intros k Hk Hdk Hvk. unfold sgx_get_epc_virt_addr.
    rewrite section_page_index by done. cbn [section_page section].
    change PAGE_SIZE with 4096 in *. unfold wrap64. rewrite Z.mod_small; lia. }
  rewrite !Hphys, !Hvirt by done. split; [done|]. split; [done|].
  intros Hne. change PAGE_SIZE with 4096. lia.
Qed.

(** Slots 3 and 5 of the section of the reference platform. *)
Lemma section_page_addresses_witness :
  sgx_get_epc_phys_addr sim_platform (section_page sim_platform 0 3)
    = phys_addr (sgx_epc_sections sim_platform 0) + PAGE_SIZE * 3 ∧
  sgx_get_epc_virt_addr sim_platform (section_page sim_platform 0 3)
    = virt_addr (sgx_epc_sections sim_platform 0) + PAGE_SIZE * 3 ∧
  (3 ≠ 5 →
   PAGE_SIZE ≤ Z.abs (sgx_get_epc_phys_addr sim_platform (section_page sim_platform 0 3)
                      - sgx_get_epc_phys_addr sim_platform (section_page sim_platform 0 5)) ∧
   PAGE_SIZE ≤ Z.abs (sgx_get_epc_virt_addr sim_platform (section_page sim_platform 0 3)
                      - sgx_get_epc_virt_addr sim_platform (section_page sim_platform 0 5))).
Proof.
  apply (section_page_addresses sim_platform 0 3 5).
  - vm_compute. repeat split; discriminate || reflexivity.
  - vm_compute. repeat split; discriminate || reflexivity.
Defined.

(** ** mmap twice *)

(** X16: a mapping that the mmap hook accepted is accepted again, and
    the second call changes nothing: the flags it sets are already set,
    VM_SHARED is still there, and vm_ops and vm_private_data already
    point at the region. *)
Theorem mmap_idempotent (e : sgx_virt_epc) (vma : vm_area_struct) :
  (sgx_virt_epc_mmap e vma).1 = 0 →
  sgx_virt_epc_mmap e (sgx_virt_epc_mmap e vma).2 = (0, (sgx_virt_epc_mmap e vma).2).
Proof.
  unfold sgx_virt_epc_mmap.
  destruct (decide (Z.land (vm_flags vma) VM_SHARED = 0)) as [Hs|Hs]; cbn [fst snd];
    [discriminate|].
  destruct (decide (vm_mm vma ≠ mm e)) as [Hm|Hm]; cbn [fst snd]; [discriminate|].
  intros _. cbn [vm_flags vm_mm vm_start vm_pgoff].
  destruct (decide (Z.land (Z.lor (vm_flags vma) _) VM_SHARED = 0)) as [Hs'|_].
  { exfalso. apply Hs. rewrite Z.land_lor_distr_l in Hs'.
    apply Z.lor_eq_0_iff in Hs'. tauto. }
  destruct (decide (vm_mm vma ≠ mm e)); [done|].
  by rewrite <- Z.lor_assoc, Z.lor_diag.
Qed.

Lemma mmap_idempotent_witness :
  sgx_virt_epc_mmap (VirtEpc 1 ∅ 7) (sgx_virt_epc_mmap (VirtEpc 1 ∅ 7) sim_vma).2
  = (0, (sgx_virt_epc_mmap (VirtEpc 1 ∅ 7) sim_vma).2).
Proof. apply (mmap_idempotent (VirtEpc 1 ∅ 7) sim_vma). reflexivity. Defined.

(** ** What a debug access leaves alone *)

Lemma access_loop_zombies {HW} (P : platform HW) fuel vma start len write
    (v : access_vars) (st : kstate HW) r buf' st' :
  access_loop P fuel vma start len write v st = Some (r, buf', st') →
  virt_epc_zombie_pages st' = virt_epc_zombie_pages st.
Proof.
  revert v st. induction fuel as [|fuel IH]; intros v st; simpl.
  - destruct (decide (av_i v < len ∧ av_ret v = 0)); [done|].
    destruct (decide (av_ret v ≠ 0)); by intros [= _ _ <-].
  - destruct (decide (av_i v < len ∧ av_ret v = 0)).
    + pose proof (access_body_frame P vma start len write v st) as (_ & Hz & _).
      destruct (access_body P vma start len write v st) as [[r0|v'] st1];
        cbn [fst snd] in *.
      * by intros [= _ _ <-].
      * intros Hrun. apply IH in Hrun. congruence.
    + destruct (decide (av_ret v ≠ 0)); by intros [= _ _ <-].
Qed.

(** X17: a debug access only looks through the table.  Whatever its
    outcome it leaves the table, the identity and mm of the region and
    the zombie list as they were, and between taking and dropping the
    region lock it executes nothing but EDBGRD and EDBGWR: it never
    allocates, frees, EREMOVEs or installs a page. *)
Theorem access_leaves_region_alone {HW} (P : platform HW) (vma : vm_area_struct)
    (start : Z) (buf : list byte) (len : Z) (write : bool) (st : kstate HW) :
  ∃ r buf' st' tr,
    sgx_virt_epc_access P vma start buf len write st = Some (r, buf', st') ∧
    trace st' = trace st ++ tr ∧
    epc st' = epc st ∧ virt_epc_zombie_pages st' = virt_epc_zombie_pages st ∧
    Forall (λ e, is_access_event e = true) tr.
Proof.
  destruct (access_loop_rule P vma start len write (page_array (epc st))
              (λ _ tr, Forall (λ e, is_access_event e = true) tr)) with
    (fuel := Z.to_nat len) (v := access_init buf) (st := st) (tr := @nil event)
    as (r & buf' & st' & v_end & tr0 & tr1 & Hrun & Htr & Hev & -> & He & Hout).
  - intros v st0 tr pg v' st1 Hev Hlt Hret Hm Hpg Hbody.
    rewrite <- Hm in Hpg. rewrite (access_body_unfold P _ _ _ _ _ _ pg Hpg Hret) in Hbody.
    cbv zeta in Hbody.
    repeat (case_decide || case_match); injection Hbody as <- <-;
      (eexists; split; [reflexivity|]);
      (apply Forall_app; split; [done|]); by repeat constructor.
  - constructor.
  - done.
  - cbn [access_init av_i]. lia.
  - exists r, (av_buf v_end), st', (tr0 ++ tr1). split; [exact Hrun|]. split; [done|].
    split; [done|]. split; [by eapply access_loop_zombies|].
    apply Forall_app. split; [done|].
    destruct Hout as [[_ [(-> & _)|(-> & _)]]|(_ & -> & _)]; by repeat constructor.
Qed.

(** ** From open to release *)

Lemma mm_events_fault (tr : list event) :
  Forall (λ e, is_fault_event e = true) tr → mm_events tr = [].
Proof.
  induction 1 as [|e tr He _ IH]; [done|]. by destruct e.
Qed.

Section OpenRelease.
Context {HW : Type} (P : platform HW).

Lemma fault_inner_events vma addr (st : kstate HW) :
  ∃ tr, trace (__sgx_virt_epc_fault P vma addr st).2 = trace st ++ tr ∧
        Forall (λ e, is_fault_event e = true) tr.
Proof.
  unfold __sgx_virt_epc_fault. unfold_m. unfold_m.
  destruct (page_array (epc st) !! _) as [pg|] eqn:Hidx; kcbn.
  { exists []. by rewrite app_nil_r. }
  destruct (sgx_alloc_epc_page P (hw st)) as [[err|pg] h1] eqn:Ha; kcbn.
  { eexists. split; [done|]. by repeat constructor. }
  destruct (xa_store_err P _ pg h1) as [e h2] eqn:Hs; kcbn.
  destruct (decide (e = 0)) as [->|He]; kcbn.
  - destruct (decide (0 ≠ 0)); [done|]. kcbn.
    destruct (vmf_insert_pfn P vma addr _ h2) as [ri h3] eqn:Hi; kcbn.
    destruct (decide (ri ≠ VM_FAULT_NOPAGE)) as [Hri|Hri]; kcbn.
    + eexists. split; [by rewrite <- !app_assoc|]. by repeat constructor.
    + eexists. split; [by rewrite <- !app_assoc|]. by repeat constructor.
  - destruct (decide (e ≠ 0)); [|done]. kcbn.
    eexists. split; [by rewrite <- !app_assoc|]. by repeat constructor.
Qed.

Lemma fault_callback_events (vmf : vm_fault) (st : kstate HW) :
  ∃ tr, trace (sgx_virt_epc_fault P vmf st).2 = trace st ++ tr ∧
        Forall (λ e, is_fault_event e = true) tr.
Proof.
  rewrite fault_outer_unfold.
  pose proof (fault_inner_events (vmf_vma vmf) (vmf_address vmf) (emit EvDownWrite st).2)
    as (tr & Htr & Hev).
  destruct (__sgx_virt_epc_fault P _ _ _) as [ret st1]. cbn [fst snd] in *.
  cbn [emit snd trace] in *.
  assert (Hstep : ∀ e, Forall (λ e, is_fault_event e = true) e →
    ∃ tr0, ((trace st ++ [EvDownWrite]) ++ tr) ++ [EvUpWrite] ++ e = trace st ++ tr0 ∧
           Forall (λ e, is_fault_event e = true) tr0).
  { intros e He. exists ([EvDownWrite] ++ tr ++ [EvUpWrite] ++ e).
    split; [by rewrite <- !app_assoc|].
    repeat (apply Forall_app; split); try done; by repeat constructor. }
  destruct (decide (ret = 0)) as [H0|H0];
    [|destruct (signal_pending P (hw st1));
      [|destruct (decide (ret = - EBUSY ∧ _)) as [Hb|Hb]]];
    cbn [fst snd trace emit]; rewrite Htr.
  - destruct (Hstep [] ltac:(constructor)) as (tr0 & E & ?).
    exists tr0. rewrite <- E. by rewrite !app_nil_r.
  - destruct (Hstep [] ltac:(constructor)) as (tr0 & E & ?).
    exists tr0. rewrite <- E. by rewrite !app_nil_r.
  - destruct (Hstep [EvMmapReadUnlock] ltac:(by repeat constructor)) as (tr0 & E & ?).
    exists tr0. rewrite <- E. by rewrite <- !app_assoc.
  - destruct (Hstep [] ltac:(constructor)) as (tr0 & E & ?).
    exists tr0. rewrite <- E. by rewrite !app_nil_r.
Qed.

Lemma fault_seq_events (faults : list vm_fault) (st : kstate HW) :
  ∃ tr, trace (fault_seq P faults st) = trace st ++ tr ∧
        Forall (λ e, is_fault_event e = true) tr.
Proof.
  revert st. induction faults as [|vmf faults IH]; intros st; cbn [fault_seq foldl].
  { exists []. by rewrite app_nil_r. }
  destruct (fault_callback_events vmf st) as (tr1 & Htr1 & Hev1).
  destruct (IH (sgx_virt_epc_fault P vmf st).2) as (tr2 & Htr2 & Hev2).
  exists (tr1 ++ tr2). split; [|by apply Forall_app].
  unfold fault_seq in Htr2. by rewrite Htr2, Htr1, <- app_assoc.
Qed.

End OpenRelease.

(** X18: open and release balance.  When the allocation fails the open
    hook returns -ENOMEM having taken no mm reference and leaves
    file->private_data alone.  Otherwise it returns 0 with a region that
    has an empty table and the mm of the caller, on which it took one
    reference; and whatever faults the region then serves, over its
    whole life (the faults and the release) the only mmdrop is the one
    of that mm, once, and the only kfree is the one of the region, once,
    after it. *)
Theorem open_release_balance {HW} (P : platform HW) (id mm0 : Z)
    (old : option sgx_virt_epc) (faults : list vm_fault)
    (zombies : list sgx_epc_page) (h : HW) :
  sgx_virt_epc_open None mm0 old = (- ENOMEM, old, []) ∧
  ∃ e st2,
    sgx_virt_epc_open (Some id) mm0 old
      = (0, Some e, [OevMmgrab mm0; OevInitRwsem id; OevXaInit id]) ∧
    page_array e = ∅ ∧ mm e = mm0 ∧
    sgx_virt_epc_release P (fault_seq P faults (KState e zombies [] h)) = Some (0, st2) ∧
    mm_events (trace st2) = [inl mm0; inr id].
Proof.
  split; [done|].
  set (e := VirtEpc id ∅ mm0). set (st := KState e zombies [] h).
  destruct (fault_seq_run P faults st) as (_ & Hid & Hmm & Hok & _).
  destruct (fault_seq_events P faults st) as (trf & Htrf & Hevf).
  destruct (release_run_calls P (fault_seq P faults st))
    as (st2 & v1 & v2 & c3 & Hrun & _ & _ & _ & _ & Htr & _).
  { apply Hok. unfold xa_index_ok. apply map_Forall_empty. }
  exists e, st2. split; [done|]. split; [done|]. split; [done|]. split; [done|].
  rewrite Htr, Htrf, Hid, Hmm. cbn [st trace epc e mm epc_id app].
  rewrite mm_events_app, (mm_events_fault _ Hevf). cbn [app].
  change (EvMmdrop mm0 :: ?l) with ([EvMmdrop mm0] ++ l).
  change (EvMutexLock :: ?l) with ([EvMutexLock] ++ l).
  rewrite !mm_events_app.
  rewrite (proj2 (proj2 (proj2 (calls_no_alloc_no_free P false _ _)))).
  rewrite (proj2 (proj2 (proj2 (calls_no_alloc_no_free P true _ _)))).
  by case_decide.
Qed.

(** ** Debug access over a resolved range *)

Lemma dbg_failure_rd p r w : is_dbg_failure (EvEdbgrd p r w) = bool_decide (r ≠ 0).
Proof. done. Qed.

Lemma dbg_failure_wr p w r : is_dbg_failure (EvEdbgwr p w r) = bool_decide (r ≠ 0).
Proof. done. Qed.

(** X19: once every page of the range is in the table (the fault
    handler has resolved it), a debug access can only fail in the
    hardware.  With a page-aligned mapping and a range inside it that
    does not wrap, the call returns the whole length with every EDBGRD
    and EDBGWR of the call having succeeded, or it returns -EIO and the
    call made an EDBGRD or EDBGWR that failed; it never gives up for a
    missing page. *)
Theorem access_resolved_range {HW} (P : platform HW) (vma : vm_area_struct)
    (start : Z) (buf : list byte) (len : Z) (write : bool) (st : kstate HW) :
  0 ≤ vm_start vma → vm_start vma mod PAGE_SIZE = 0 →
  vm_start vma ≤ start → start + len ≤ 2 ^ 64 →
  (∀ k, 0 ≤ k < len →
     is_Some (page_array (epc st) !! sgx_virt_epc_calc_index vma (start + k))) →
  ∃ r buf' st' tr,
    sgx_virt_epc_access P vma start buf len write st = Some (r, buf', st') ∧
    trace st' = trace st ++ tr ∧
    (r = Z.max 0 len ∧ Forall (λ e, is_dbg_failure e = false) tr
     ∨ r = - EIO ∧ Exists (λ e, is_dbg_failure e = true) tr).
Proof.
  intros H0 Hal Hs Hmax Hpresent.
  destruct (access_loop_rule P vma start len write (page_array (epc st))
              (λ v tr, access_vars_ok vma start v ∧ 0 ≤ av_i v ≤ Z.max len 0 ∧
                       (av_ret v = 0 → Forall (λ e, is_dbg_failure e = false) tr) ∧
                       (av_ret v ≠ 0 → Exists (λ e, is_dbg_failure e = true) tr))) with
    (fuel := Z.to_nat len) (v := access_init buf) (st := st) (tr := @nil event)
    as (r & buf' & st' & v_end & tr0 & tr1 & Hrun & Htr
        & (Hok & Hi & Hgood & Hbad) & -> & _ & Hout).
  - intros v st0 tr pg v' st1 (Hok & Hi & Hgood & _) Hlt Hret Hm Hpg Hbody.
    specialize (Hgood Hret).
    pose proof (λ r d b, access_vars_ok_next vma start len v r d b H0 Hal Hs Hmax
                           ltac:(lia) Hok) as Hnext.
    pose proof (land_7_range (wrap64 (start + av_i v))) as Hoff. unfold ULONG_SIZE in Hoff.
    rewrite <- Hm in Hpg. rewrite (access_body_unfold P _ _ _ _ _ _ pg Hpg Hret) in Hbody.
    cbv zeta in Hbody.
    assert (Hstep : ∀ ret' d b trb,
      Forall (λ e, is_dbg_failure e = false) (removelast trb) →
      match last trb with
      | Some e => is_dbg_failure e = bool_decide (ret' ≠ 0)
      | None => False
      end →
      access_vars_ok vma start
        (access_next (AccessVars (av_i v)
           (Z.min (ULONG_SIZE - Z.land (wrap64 (start + av_i v)) (ULONG_SIZE - 1))
                  (len - av_i v)) (access_index vma start v) ret' d b)) ∧
      0 ≤ av_i v + Z.min (ULONG_SIZE - Z.land (wrap64 (start + av_i v)) (ULONG_SIZE - 1))
                         (len - av_i v) ≤ Z.max len 0 ∧
      (ret' = 0 → Forall (λ e, is_dbg_failure e = false) (tr ++ trb ++ [EvUpWrite])) ∧
      (ret' ≠ 0 → Exists (λ e, is_dbg_failure e = true) (tr ++ trb ++ [EvUpWrite]))).
    { intros ret' d b trb Hinit Hlast. split; [apply Hnext|].
      split; [unfold ULONG_SIZE; lia|].
      destruct (last trb) as [e|] eqn:He; [|done].
      apply last_Some in He as [trb0 ->]. rewrite removelast_last in Hinit.
      split.
      - intros Hz. rewrite Hz in Hlast.
        rewrite !Forall_app. repeat split; try done; by repeat constructor.
      - intros Hnz. rewrite bool_decide_eq_true_2 in Hlast by done.
        rewrite !Exists_app. right. left. right. by constructor. }
    repeat (case_decide || case_match); injection Hbody as <- <-;
      (eexists; split; [reflexivity|]); cbn [access_next av_i av_cnt av_ret].
    + apply (Hstep _ _ _ [EvDownWrite; EvEdbgrd _ 0 _; EvEdbgwr _ _ _]);
        [by repeat constructor|done].
    + match goal with |- context [EvEdbgrd ?p 0 ?w] =>
        pose proof (Hstep 0 (word_to_bytes w)
                      (memcpy (av_buf v) (av_i v) (word_to_bytes w)
                         (Z.land (wrap64 (start + av_i v)) (ULONG_SIZE - 1))
                         (Z.min (ULONG_SIZE - Z.land (wrap64 (start + av_i v))
                                                 (ULONG_SIZE - 1)) (len - av_i v)))
                      [EvDownWrite; EvEdbgrd p 0 w]
                      ltac:(by repeat constructor) eq_refl) as Hs0
      end.
      exact Hs0.
    + apply (Hstep _ _ _ [EvDownWrite; EvEdbgrd _ _ _]); [by repeat constructor|done].
    + apply (Hstep _ _ _ [EvDownWrite; EvEdbgwr _ _ _]); [by repeat constructor|done].
  - split; [by left|]. cbn [access_init av_i av_ret]. split; [lia|].
    split; [constructor|done].
  - done.
  - cbn [access_init av_i]. lia.
  - exists r, (av_buf v_end), st', (tr0 ++ tr1). split; [exact Hrun|]. split; [done|].
    cbn [app] in Hgood, Hbad.
    destruct Hout as [[-> [(-> & Hret & Hlt & Hnone)|(-> & Hret)]]|(-> & -> & Hret & Hge)].
    + exfalso.
      rewrite (access_index_ok vma start v_end H0 Hal Hs ltac:(lia) ltac:(lia) Hok)
        in Hnone.
      destruct (Hpresent (av_i v_end) ltac:(lia)) as [pg Hpg]. congruence.
    + right. split; [done|]. rewrite app_nil_r. by apply Hbad.
    + left. split; [lia|]. rewrite app_nil_r. by apply Hgood.
Qed.

(** A 12-byte write at offset 4 of the first page of the mapping, which
    the table holds. *)
Lemma access_resolved_range_witness :
  ∃ r buf' st' tr,
    sgx_virt_epc_access sim_platform sim_vma 65540 (replicate 12 Byte.x01) 12 true
                        (sim_debug 578437695752307201 []) = Some (r, buf', st') ∧
    trace st' = trace (sim_debug 578437695752307201 []) ++ tr ∧
    (r = Z.max 0 12 ∧ Forall (λ e, is_dbg_failure e = false) tr
     ∨ r = - EIO ∧ Exists (λ e, is_dbg_failure e = true) tr).
Proof.
  apply (access_resolved_range sim_platform sim_vma 65540 (replicate 12 Byte.x01) 12 true
           (sim_debug 578437695752307201 [])).
  - cbn [sim_vma vm_start]. lia.
  - reflexivity.
  - cbn [sim_vma vm_start]. lia.
  - lia.
  - intros k Hk. exists (sim_page 0).
    rewrite calc_index_by_page by (cbn [sim_vma vm_start]; (reflexivity || lia)).
    cbn [sim_vma vm_start vm_pgoff].
    replace ((65540 + k) / 8 / 512) with 16; [reflexivity|].
    rewrite Z.div_div by lia. apply Z.div_unique with (4 + k); lia.
Defined.

(** ** Writing, then reading back *)

Lemma byte_val_inj (a b : byte) : byte_val a = byte_val b → a = b.
Proof.
  unfold byte_val. intros H. apply Z2N.inj_iff in H; [|lia|lia].
  rewrite !N2Z.id in H.
  pose proof (Byte.of_to_N a) as Ha. rewrite H, Byte.of_to_N in Ha. congruence.
Qed.

(** The loop of a debug access, with an invariant on the state. *)
Section AccessState.
Context {HW : Type} (P : platform HW).
Context (vma : vm_area_struct) (start len : Z) (write : bool).
Context (m : gmap Z sgx_epc_page) (Inv : access_vars → kstate HW → Prop).
Hypothesis body_inv_st : ∀ (v : access_vars) (st : kstate HW) pg v' st',
  Inv v st → av_i v < len → av_ret v = 0 →
  page_array (epc st) = m →
  m !! access_index vma start v = Some pg →
  access_body P vma start len write v st = (inr v', st') →
  Inv (access_next v') st'.

Lemma access_loop_rule_st fuel (v : access_vars) (st : kstate HW) :
  Inv v st → page_array (epc st) = m →
  (Z.to_nat (len - av_i v) ≤ fuel)%nat →
  ∃ r buf' st' v_end st_end,
    access_loop P fuel vma start len write v st = Some (r, buf', st') ∧
    Inv v_end st_end ∧ buf' = av_buf v_end ∧ epc st' = epc st ∧
    (r = - EIO ∧
       (av_ret v_end = 0 ∧ av_i v_end < len ∧ m !! access_index vma start v_end = None
        ∨ av_ret v_end ≠ 0)
     ∨ r = av_i v_end ∧ av_ret v_end = 0 ∧ len ≤ av_i v_end ∧ st' = st_end).
Proof.
  revert v st. induction fuel as [|fuel IH]; intros v st HI Hm Hfuel.
  - simpl. destruct (decide (av_i v < len ∧ av_ret v = 0)) as [[Hlt _]|Hstop]; [lia|].
    destruct (decide (av_ret v ≠ 0)) as [Hr|Hr].
    + exists (- EIO), (av_buf v), st, v, st. repeat split; try done.
      left. split; [done|]. by right.
    + apply dec_stable in Hr. exists (av_i v), (av_buf v), st, v, st.
      repeat split; try done. right. repeat split; try done. lia.
  - simpl. destruct (decide (av_i v < len ∧ av_ret v = 0)) as [[Hlt Hret]|Hstop].
    + pose proof (access_body_frame P vma start len write v st)
        as (He & _ & trb & Htrb & _ & Hres).
      destruct (access_body P vma start len write v st) as [[r|v'] st1] eqn:Hbody;
        cbn [fst snd] in *.
      * destruct Hres as (-> & Hnone & ->).
        exists (- EIO), (av_buf v), st1, v, st. repeat split; try done.
        left. split; [done|]. left. by rewrite <- Hm.
      * destruct Hres as ([pg Hpg] & Hi & Hcnt & _). rewrite Hm in Hpg.
        pose proof (body_inv_st v st pg v' st1 HI Hlt Hret Hm Hpg Hbody) as HI'.
        pose proof (land_7_range (wrap64 (start + av_i v))) as Hoff.
        unfold ULONG_SIZE in Hcnt, Hoff.
        destruct (IH (access_next v') st1 HI')
          as (r & buf' & st' & v_end & st_end & Hrun & HIe & Hbuf & He' & Hr).
        { by rewrite He. }
        { cbn [access_next av_i]. lia. }
        exists r, buf', st', v_end, st_end.
        split; [exact Hrun|]. split; [done|]. split; [done|]. split; [congruence|]. done.
    + destruct (decide (av_ret v ≠ 0)) as [Hr|Hr].
      * exists (- EIO), (av_buf v), st, v, st. repeat split; try done.
        left. split; [done|]. by right.
      * apply dec_stable in Hr. exists (av_i v), (av_buf v), st, v, st.
        repeat split; try done. right. repeat split; try done. lia.
Qed.

End AccessState.

Section RoundTrip.
Context {HW : Type} (P : platform HW) (mem : HW → Z → Z) (good : HW → Prop).
Context (vma : vm_area_struct) (start len : Z).
Hypothesis Hmem : dbg_memory P mem good.
Hypothesis H0 : 0 ≤ vm_start vma.
Hypothesis Hal : vm_start vma mod PAGE_SIZE = 0.
Hypothesis Hs : vm_start vma ≤ start.
Hypothesis Hmax : start + len ≤ 2 ^ 64.

(** A debug write stores the buffer in the memory behind the range. *)
Lemma access_write_stores (buf : list byte) (st : kstate HW) :
  good (hw st) → len ≤ Z.of_nat (length buf) →
  (∀ k, 0 ≤ k < len →
     is_Some (page_array (epc st) !! sgx_virt_epc_calc_index vma (start + k))) →
  words_distinct P vma (page_array (epc st)) start len →
  ∃ st1,
    sgx_virt_epc_access P vma start buf len true st = Some (Z.max 0 len, buf, st1) ∧
    epc st1 = epc st ∧ good (hw st1) ∧
    ∀ k b pg, 0 ≤ k < len → buf !! Z.to_nat k = Some b →
      page_array (epc st) !! sgx_virt_epc_calc_index vma (start + k) = Some pg →
      word_byte (mem (hw st1) (access_word_addr P pg (start + k))) ((start + k) mod 8)
      = byte_val b.
Proof.
  intros Hgood Hbuf Hpresent Hdistinct.
  set (m := page_array (epc st)) in *.
  set (stored := λ (h : HW) (i : Z), ∀ k b pg, 0 ≤ k < i → buf !! Z.to_nat k = Some b →
    m !! sgx_virt_epc_calc_index vma (start + k) = Some pg →
    word_byte (mem h (access_word_addr P pg (start + k))) ((start + k) mod 8)
    = byte_val b).
  destruct (access_loop_rule_st P vma start len true m
              (λ v s, access_vars_ok vma start v ∧ 0 ≤ av_i v ≤ Z.max len 0 ∧
                      (av_i v = 0 ∨ (start + av_i v) mod 8 = 0 ∨ len ≤ av_i v) ∧
                      length (av_data v) = 8%nat ∧ av_buf v = buf ∧ av_ret v = 0 ∧
                      good (hw s) ∧ stored (hw s) (av_i v))) with
    (fuel := Z.to_nat len) (v := access_init buf) (st := st)
    as (r & buf' & st' & v_end & st_end & Hrun
        & (Hok & Hi & _ & _ & Hb & Hret & Hg & Hst) & -> & He & Hout).
  - intros v st0 pg v' st1 (Hok & Hi & Hword & Hd & Hb & _ & Hg & Hst) Hlt Hret Hm Hpg
      Hbody.
    assert (Hidx := access_index_ok vma start v H0 Hal Hs ltac:(lia) ltac:(lia) Hok).
    assert (Hw : wrap64 (start + av_i v) = start + av_i v)
      by (unfold wrap64; apply Z.mod_small; lia).
    pose proof (wrap64_mod8 (start + av_i v)) as Hoffeq.
    pose proof (Z.mod_pos_bound (start + av_i v) 8 ltac:(lia)) as Hoff.
    pose proof (access_body_frame P vma start len true v st0) as (Hepc & _).
    rewrite Hbody in Hepc. cbn [snd] in Hepc.
    rewrite <- Hm in Hpg. rewrite (access_body_unfold P _ _ _ _ _ _ pg Hpg Hret) in Hbody.
    cbv zeta in Hbody.
    pose proof (λ r d b, access_vars_ok_next vma start len v r d b H0 Hal Hs Hmax
                           ltac:(lia) Hok) as Hnext.
    rewrite Hoffeq in Hbody, Hnext. unfold ULONG_SIZE in Hbody, Hnext.
    set (off := (start + av_i v) mod 8) in *.
    set (cnt := Z.min (8 - off) (len - av_i v)) in *.
    assert (Hcnt : 0 < cnt ∧ cnt ≤ 8 - off ∧ cnt ≤ len - av_i v) by (unfold cnt; lia).
    rewrite Hb in Hbody.
    set (p := access_word_addr P pg (wrap64 (start + av_i v))) in *.
    assert (Hstep : ∀ (d : list byte) (h1 : HW),
      length d = 8%nat → good h1 → (∀ q, mem h1 q = mem (hw st0) q) →
      let data := memcpy d off buf (av_i v) cnt in
      let wr := __edbgwr P p (bytes_to_word data) h1 in
      v' = AccessVars (av_i v) cnt (access_index vma start v) wr.1 data buf →
      hw st1 = wr.2 →
      access_vars_ok vma start (access_next v') ∧
      0 ≤ av_i (access_next v') ≤ Z.max len 0 ∧
      (av_i (access_next v') = 0 ∨ (start + av_i (access_next v')) mod 8 = 0
       ∨ len ≤ av_i (access_next v')) ∧
      length (av_data (access_next v')) = 8%nat ∧ av_buf (access_next v') = buf ∧
      av_ret (access_next v') = 0 ∧ good (hw st1) ∧
      stored (hw st1) (av_i (access_next v'))).
    { intros d h1 Hdl Hg1 Hsame data wr -> Hhw.
      destruct Hmem as [_ Hwr].
      destruct (Hwr p (bytes_to_word data) h1 Hg1) as (Hwr0 & Hwrg & Hwrm).
      fold wr in Hwr0, Hwrg, Hwrm.
      split; [apply Hnext|]. unfold access_next. cbn [av_i av_cnt av_buf av_ret av_data].
      split; [lia|]. split.
      { destruct (decide (cnt = 8 - off)) as [Hc|Hc]; [|right; right; lia].
        right. left. rewrite Hc.
        pose proof (Z.div_mod (start + av_i v) 8 ltac:(lia)) as Hdm. fold off in Hdm.
        replace (start + (av_i v + (8 - off))) with ((1 + (start + av_i v) / 8) * 8) by lia.
        apply Z.mod_mul. lia. }
      split; [unfold data; rewrite length_memcpy; lia|]. split; [done|].
      split; [done|]. split; [by rewrite Hhw|].
      intros k b pgk Hk Hbk Hpgk. rewrite Hhw, Hwrm.
      destruct (decide (k < av_i v)) as [Hold|Hnew].
      - destruct (decide (access_word_addr P pgk (start + k) = p)) as [Halias|_].
        + exfalso.
          assert (Hq : (start + k) / 8 = (start + av_i v) / 8).
          { apply (Hdistinct k (av_i v) pgk pg); [lia|lia|done| |].
            - by rewrite <- Hidx, <- Hm.
            - rewrite Halias. unfold p. by rewrite Hw. }
          destruct Hword as [Hz|[Hz|Hz]]; [lia| |lia].
          pose proof (Z.div_mod (start + av_i v) 8 ltac:(lia)) as Hdi.
          pose proof (Z.div_mod (start + k) 8 ltac:(lia)) as Hdk.
          pose proof (Z.mod_pos_bound (start + k) 8 ltac:(lia)). lia.
        + rewrite Hsame. apply (Hst k b pgk); [lia|done|done].
      - destruct (same_word (start + av_i v) (start + k) off eq_refl ltac:(lia))
          as [Hq Hmod].
        assert (Hpgeq : pgk = pg).
        { rewrite Hm, Hidx in Hpg.
          rewrite calc_index_by_page in Hpg, Hpgk by (try done; lia).
          rewrite Hq in Hpgk. congruence. }
        subst pgk.
        assert (Hpeq : access_word_addr P pg (start + k) = p).
        { unfold p, access_word_addr. rewrite Hw, !align_down_8. by rewrite Hq. }
        rewrite Hpeq. destruct (decide (p = p)); [|done].
        rewrite Hmod. replace (off + (start + k - (start + av_i v)))
          with (Z.of_nat (Z.to_nat (off + (k - av_i v)))) by lia.
        apply word_byte_bytes_to_word. unfold data.
        rewrite lookup_memcpy by lia.
        destruct (decide (off ≤ Z.of_nat (Z.to_nat (off + (k - av_i v))) < off + cnt));
          [|lia].
        rewrite <- Hbk. f_equal. lia. }
    destruct Hmem as [Hrd _].
    destruct (Hrd p (hw st0) Hg) as (Hrd0 & Hrdw & Hrdg & Hrdm).
    set (rd := __edbgrd P p (hw st0)) in *.
    destruct (decide (true = false ∨ _)) as [Hpart|Hfull].
    + destruct (decide (_ = 0)) as [_|Hne]; [|done]. injection Hbody as Hv' Hst'.
      apply (Hstep (word_to_bytes rd.1.2) rd.2).
      * apply length_word_to_bytes.
      * done.
      * done.
      * by rewrite <- Hv'.
      * by rewrite <- Hst'.
    + injection Hbody as Hv' Hst'.
      apply (Hstep (av_data v) (hw st0)).
      * done.
      * done.
      * done.
      * by rewrite <- Hv'.
      * by rewrite <- Hst'.
  - split; [by left|]. cbn [access_init av_i av_buf av_ret av_data]. split; [lia|].
    split; [by left|]. split; [apply length_word_to_bytes|]. split; [done|].
    split; [done|]. split; [done|]. intros k b pg Hk. lia.
  - done.
  - cbn [access_init av_i]. lia.
  - destruct Hout as [[_ [(_ & Hlt & Hnone)|Hne]]|(-> & _ & Hge & ->)].
    + exfalso.
      rewrite (access_index_ok vma start v_end H0 Hal Hs ltac:(lia) ltac:(lia) Hok)
        in Hnone.
      destruct (Hpresent (av_i v_end) ltac:(lia)) as [pg Hpg]. fold m in Hpg. congruence.
    + done.
    + exists st_end. replace (Z.max 0 len) with (av_i v_end) by lia. rewrite Hb in Hrun.
      split; [exact Hrun|]. split; [done|]. split; [done|].
      intros k b pg Hk Hbk Hpg. apply (Hst k b pg); [lia|done|done].
Qed.

(** A debug read loads the buffer from the memory behind the range. *)
Lemma access_read_loads (buf0 : list byte) (st : kstate HW) :
  good (hw st) → len ≤ Z.of_nat (length buf0) →
  (∀ k, 0 ≤ k < len →
     is_Some (page_array (epc st) !! sgx_virt_epc_calc_index vma (start + k))) →
  ∃ buf2 st2,
    sgx_virt_epc_access P vma start buf0 len false st = Some (Z.max 0 len, buf2, st2) ∧
    length buf2 = length buf0 ∧
    ∀ k pg, 0 ≤ k < len →
      page_array (epc st) !! sgx_virt_epc_calc_index vma (start + k) = Some pg →
      ∃ b, buf2 !! Z.to_nat k = Some b ∧
           byte_val b = word_byte (mem (hw st) (access_word_addr P pg (start + k)))
                                  ((start + k) mod 8).
Proof.
  intros Hgood Hbuf Hpresent.
  set (m := page_array (epc st)) in *.
  set (loaded := λ (b' : list byte) (i : Z), ∀ k pg, 0 ≤ k < i →
    m !! sgx_virt_epc_calc_index vma (start + k) = Some pg →
    ∃ b, b' !! Z.to_nat k = Some b ∧
         byte_val b = word_byte (mem (hw st) (access_word_addr P pg (start + k)))
                                ((start + k) mod 8)).
  destruct (access_loop_rule_st P vma start len false m
              (λ v s, access_vars_ok vma start v ∧ 0 ≤ av_i v ≤ Z.max len 0 ∧
                      length (av_buf v) = length buf0 ∧ av_ret v = 0 ∧
                      good (hw s) ∧ (∀ q, mem (hw s) q = mem (hw st) q) ∧
                      loaded (av_buf v) (av_i v))) with
    (fuel := Z.to_nat len) (v := access_init buf0) (st := st)
    as (r & buf' & st' & v_end & st_end & Hrun
        & (Hok & Hi & Hl & Hret & Hg & Hsame & Hld) & -> & He & Hout).
  - intros v st0 pg v' st1 (Hok & Hi & Hl & _ & Hg & Hsame & Hld) Hlt Hret Hm Hpg Hbody.
    assert (Hidx := access_index_ok vma start v H0 Hal Hs ltac:(lia) ltac:(lia) Hok).
    assert (Hw : wrap64 (start + av_i v) = start + av_i v)
      by (unfold wrap64; apply Z.mod_small; lia).
    pose proof (wrap64_mod8 (start + av_i v)) as Hoffeq.
    pose proof (Z.mod_pos_bound (start + av_i v) 8 ltac:(lia)) as Hoff.
    rewrite <- Hm in Hpg. rewrite (access_body_unfold P _ _ _ _ _ _ pg Hpg Hret) in Hbody.
    cbv zeta in Hbody.
    destruct (decide (false = false ∨ _)) as [_|Hn]; [|exfalso; apply Hn; by left].
    pose proof (λ r d b, access_vars_ok_next vma start len v r d b H0 Hal Hs Hmax
                           ltac:(lia) Hok) as Hnext.
    rewrite Hoffeq in Hbody, Hnext. unfold ULONG_SIZE in Hbody, Hnext.
    set (off := (start + av_i v) mod 8) in *.
    set (cnt := Z.min (8 - off) (len - av_i v)) in *.
    assert (Hcnt : 0 < cnt ∧ cnt ≤ 8 - off ∧ cnt ≤ len - av_i v) by (unfold cnt; lia).
    set (p := access_word_addr P pg (wrap64 (start + av_i v))) in *.
    destruct Hmem as [Hrd _].
    destruct (Hrd p (hw st0) Hg) as (Hrd0 & Hrdw & Hrdg & Hrdm).
    set (rd := __edbgrd P p (hw st0)) in *.
    destruct (decide (_ = 0)) as [_|Hne]; [|done]. injection Hbody as <- <-.
    split; [apply Hnext|]. unfold access_next. cbn [av_i av_cnt av_buf av_ret hw].
    split; [lia|].
    split; [rewrite length_memcpy; rewrite ?length_word_to_bytes; lia|].
    split; [done|]. split; [done|].
    split; [intros q; by rewrite Hrdm|].
    intros k pgk Hk Hpgk.
    destruct (decide (k < av_i v)) as [Hold|Hnew].
    + destruct (Hld k pgk ltac:(lia) Hpgk) as (b & Hbk & Hbv).
      exists b. split; [|done].
      rewrite lookup_memcpy by (rewrite ?length_word_to_bytes; lia).
      destruct (decide (av_i v ≤ Z.of_nat (Z.to_nat k) < av_i v + cnt)); [lia|done].
    + destruct (same_word (start + av_i v) (start + k) off eq_refl ltac:(lia))
        as [Hq Hmod].
      assert (Hpgeq : pgk = pg).
      { rewrite Hm, Hidx in Hpg.
        rewrite calc_index_by_page in Hpg, Hpgk by (try done; lia).
        rewrite Hq in Hpgk. congruence. }
      subst pgk.
      assert (Hpeq : access_word_addr P pg (start + k) = p).
      { unfold p, access_word_addr. rewrite Hw, !align_down_8. by rewrite Hq. }
      exists (byte_of (Z.shiftr rd.1.2 (8 * (off + (k - av_i v))))). split.
      * rewrite lookup_memcpy by (rewrite ?length_word_to_bytes; lia).
        destruct (decide (av_i v ≤ Z.of_nat (Z.to_nat k) < av_i v + cnt)); [|lia].
        rewrite lookup_word_to_bytes by lia. do 3 f_equal. lia.
      * rewrite byte_val_of, word_byte_mod, Hmod, Hpeq, Hrdw, Hsame. do 2 f_equal. lia.
  - split; [by left|]. cbn [access_init av_i av_buf av_ret]. split; [lia|].
    split; [done|]. split; [done|]. split; [done|]. split; [done|].
    intros k pg Hk. lia.
  - done.
  - cbn [access_init av_i]. lia.
  - destruct Hout as [[_ [(_ & Hlt & Hnone)|Hne]]|(-> & _ & Hge & ->)].
    + exfalso.
      rewrite (access_index_ok vma start v_end H0 Hal Hs ltac:(lia) ltac:(lia) Hok)
        in Hnone.
      destruct (Hpresent (av_i v_end) ltac:(lia)) as [pg Hpg]. fold m in Hpg. congruence.
    + done.
    + exists (av_buf v_end), st_end. replace (Z.max 0 len) with (av_i v_end) by lia.
      split; [exact Hrun|]. split; [done|].
      intros k pg Hk Hpg. apply (Hld k pg); [lia|done].
Qed.

End RoundTrip.

(** X20: what a debug write stored, a debug read gives back.  On a
    platform whose EDBGRD and EDBGWR behave as a memory of words, with
    a page-aligned mapping, a non-wrapping range inside it whose pages
    are all in the table and whose words are backed by different words
    of enclave memory, a write of len bytes succeeds and leaves the
    buffer alone, and a read of the same range after it succeeds and
    returns, byte for byte, what was written: the split into words, the
    read-modify-write of the partial words at both ends and the
    little-endian packing cancel out. *)
Theorem access_write_then_read {HW} (P : platform HW) (mem : HW → Z → Z)
    (good : HW → Prop) (vma : vm_area_struct) (start len : Z)
    (buf buf0 : list byte) (st : kstate HW) :
  dbg_memory P mem good → good (hw st) →
  0 ≤ vm_start vma → vm_start vma mod PAGE_SIZE = 0 →
  vm_start vma ≤ start → start + len ≤ 2 ^ 64 →
  len ≤ Z.of_nat (length buf) → len ≤ Z.of_nat (length buf0) →
  (∀ k, 0 ≤ k < len →
     is_Some (page_array (epc st) !! sgx_virt_epc_calc_index vma (start + k))) →
  words_distinct P vma (page_array (epc st)) start len →
  ∃ st1 buf2 st2,
    sgx_virt_epc_access P vma start buf len true st = Some (Z.max 0 len, buf, st1) ∧
    sgx_virt_epc_access P vma start buf0 len false st1 = Some (Z.max 0 len, buf2, st2) ∧
    length buf2 = length buf0 ∧
    ∀ k : nat, Z.of_nat k < len → buf2 !! k = buf !! k.
Proof.
  intros Hmem Hgood H0 Hal Hs Hmax Hbuf Hbuf0 Hpresent Hdistinct.
  destruct (access_write_stores P mem good vma start len Hmem H0 Hal Hs Hmax buf st
              Hgood Hbuf Hpresent Hdistinct) as (st1 & Hw & He1 & Hg1 & Hstored).
  destruct (access_read_loads P mem good vma start len Hmem H0 Hal Hs Hmax buf0 st1
              Hg1 Hbuf0) as (buf2 & st2 & Hr & Hl2 & Hloaded).
  { intros k Hk. rewrite He1. by apply Hpresent. }
  exists st1, buf2, st2. split; [done|]. split; [done|]. split; [done|].
  intros k Hk.
  destruct (Hpresent (Z.of_nat k) ltac:(lia)) as [pg Hpg].
  destruct (lookup_lt_is_Some_2 buf k ltac:(lia)) as [b Hb].
  destruct (Hloaded (Z.of_nat k) pg ltac:(lia)) as (b2 & Hb2 & Hv2).
  { by rewrite He1. }
  rewrite Nat2Z.id in Hb2. rewrite Hb2, Hb. f_equal. apply byte_val_inj.
  rewrite Hv2. apply (Hstored (Z.of_nat k) b pg); [lia| |done]. by rewrite Nat2Z.id.
Qed.

Lemma sim_dbg_memory :
  dbg_memory sim_platform (λ h p, default 0 (sim_mem h !! p)) (λ h, sim_dbg_fault h = []).
Proof.
  split.
  - intros p h Hg. cbn [__edbgrd sim_platform]. unfold sim_edbgrd. rewrite Hg.
    rewrite bool_decide_eq_false_2 by apply not_elem_of_nil. done.
  - intros p w h Hg. cbn [__edbgwr sim_platform]. unfold sim_edbgwr. rewrite Hg.
    rewrite bool_decide_eq_false_2 by apply not_elem_of_nil.
    cbn [fst snd sim_dbg_fault sim_mem]. split; [done|]. split; [done|].
    intros q. destruct (decide (q = p)) as [->|Hne].
    + by rewrite lookup_insert_eq.
    + by rewrite lookup_insert_ne.
Qed.

Lemma sim_first_words (k : Z) :
  0 ≤ k < 12 →
  sgx_virt_epc_calc_index sim_vma (65540 + k) = 0 ∧
  ((65540 + k) / 8 = 8192 ∨ (65540 + k) / 8 = 8193).
Proof.
  intros Hk. split.
  - rewrite calc_index_by_page by (cbn [sim_vma vm_start]; (reflexivity || lia)).
    cbn [sim_vma vm_start vm_pgoff].
    replace ((65540 + k) / 8 / 512) with 16; [reflexivity|].
    rewrite Z.div_div by lia. apply Z.div_unique with (4 + k); lia.
  - destruct (decide (k < 4)).
    + left. symmetry. apply Z.div_unique with (4 + k); lia.
    + right. symmetry. apply Z.div_unique with (k - 4); lia.
Qed.

Lemma sim_words_distinct :
  words_distinct sim_platform sim_vma
    (page_array (epc (sim_debug 578437695752307201 []))) 65540 12.
Proof.
  intros k k' pg pg' Hk Hk' Hpg Hpg' Heq.
  destruct (sim_first_words k Hk) as [Hi Hq].
  destruct (sim_first_words k' Hk') as [Hi' Hq'].
  rewrite Hi in Hpg. rewrite Hi' in Hpg'.
  vm_compute in Hpg, Hpg'. injection Hpg as <-. injection Hpg' as <-.
  unfold access_word_addr in Heq. rewrite !align_down_8 in Heq.
  destruct Hq as [Hq|Hq], Hq' as [Hq'|Hq']; rewrite Hq, Hq' in Heq |- *;
    try reflexivity; vm_compute in Heq; discriminate.
Qed.

(** A 12-byte write at offset 4 of the one page of the reference
    region, then a read of the same range. *)
Lemma access_write_then_read_witness :
  ∃ st1 buf2 st2,
    sgx_virt_epc_access sim_platform sim_vma 65540 (replicate 12 Byte.x01) 12 true
                        (sim_debug 578437695752307201 [])
    = Some (Z.max 0 12, replicate 12 Byte.x01, st1) ∧
    sgx_virt_epc_access sim_platform sim_vma 65540 (replicate 12 Byte.x00) 12 false st1
    = Some (Z.max 0 12, buf2, st2) ∧
    length buf2 = length (replicate 12 Byte.x00) ∧
    ∀ k : nat, Z.of_nat k < 12 → buf2 !! k = replicate 12 Byte.x01 !! k.
Proof.
  apply (access_write_then_read sim_platform (λ h p, default 0 (sim_mem h !! p))
           (λ h, sim_dbg_fault h = []) sim_vma 65540 12
           (replicate 12 Byte.x01) (replicate 12 Byte.x00)
           (sim_debug 578437695752307201 [])).
  - exact sim_dbg_memory.
  - reflexivity.
  - cbn [sim_vma vm_start]. lia.
  - reflexivity.
  - cbn [sim_vma vm_start]. lia.
  - lia.
  - cbn [replicate length]. lia.
  - cbn [replicate length]. lia.
  - intros k Hk. exists (sim_page 0).
    destruct (sim_first_words k Hk) as [-> _]. reflexivity.
  - exact sim_words_distinct.
Defined.
